(** * Certificate PDF encoder: a shallow embedding of
      [src/app/api/generate-certificate/route.ts]

    The development follows the source file top to bottom:
    - JavaScript strings are sequences of UTF-16 code units, buffers are
      sequences of bytes, [Buffer.from (_, 'utf-8')] is the UTF-8 encoder
      of Node (unpaired surrogates become U+FFFD);
    - [escapeText] is the three chained global replacements of the source;
    - [generateCertificatePDF] builds the content lines, the seven objects
      (threading [objNum]), the offsets loop and the cross-reference table;
    - [POST] is the request handler, run on parsed JSON in an exception
      monad, with the clock it reads for its fallbacks made explicit. *)

From Stdlib Require Import String Ascii ZArith Zbitwise QArith List Bool Lia.
Import ListNotations.

Open Scope Z_scope.
Open Scope list_scope.

(* ================================================================== *)
(** ** JavaScript strings and Node buffers *)
(* ================================================================== *)

(** A JavaScript string is a sequence of 16-bit code units; [length] on it
    is the source's [.length]. *)
Definition jsstring := list Z.

(** A Node [Buffer]: a sequence of bytes. *)
Definition Buffer := list Z.

(** The code units of a source literal (all literals of the source are
    ASCII). *)
Definition lit (s : string) : jsstring :=
  map (fun a => Z.of_N (N_of_ascii a)) (list_ascii_of_string s).

(** ['\n'] *)
Definition nl : jsstring := [10].

Definition wf_unit (c : Z) : Prop := 0 <= c < 65536.
Definition wf_string (s : jsstring) : Prop := Forall wf_unit s.

Definition is_ascii (c : Z) : bool := (0 <=? c) && (c <? 128).
Definition ascii_only (s : jsstring) : bool := forallb is_ascii s.

Definition is_high_surrogate (c : Z) : bool := (0xD800 <=? c) && (c <=? 0xDBFF).
Definition is_low_surrogate (c : Z) : bool := (0xDC00 <=? c) && (c <=? 0xDFFF).

(** The three bytes of U+FFFD, written for an unpaired surrogate. *)
Definition replacement_bytes : Buffer := [0xEF; 0xBF; 0xBD].

Definition utf8_2 (c : Z) : Buffer :=
  [Z.lor 0xC0 (Z.shiftr c 6); Z.lor 0x80 (Z.land c 0x3F)].

Definition utf8_3 (c : Z) : Buffer :=
  [Z.lor 0xE0 (Z.shiftr c 12);
   Z.lor 0x80 (Z.land (Z.shiftr c 6) 0x3F);
   Z.lor 0x80 (Z.land c 0x3F)].

Definition utf8_4 (cp : Z) : Buffer :=
  [Z.lor 0xF0 (Z.shiftr cp 18);
   Z.lor 0x80 (Z.land (Z.shiftr cp 12) 0x3F);
   Z.lor 0x80 (Z.land (Z.shiftr cp 6) 0x3F);
   Z.lor 0x80 (Z.land cp 0x3F)].

(** The code point of a surrogate pair. *)
Definition pair_code_point (hi lo : Z) : Z :=
  0x10000 + Z.shiftl (hi - 0xD800) 10 + (lo - 0xDC00).

(** [Buffer.from (s, 'utf-8')]: one to three bytes per code unit, four for
    a surrogate pair, U+FFFD for a surrogate that has no partner. *)
Fixpoint utf8_encode (s : jsstring) : Buffer :=
  match s with
  | [] => []
  | c :: rest =>
      if c <? 0x80 then c :: utf8_encode rest
      else if c <? 0x800 then utf8_2 c ++ utf8_encode rest
      else if is_high_surrogate c then
        match rest with
        | d :: rest' =>
            if is_low_surrogate d
            then utf8_4 (pair_code_point c d) ++ utf8_encode rest'
            else replacement_bytes ++ utf8_encode rest
        | [] => replacement_bytes
        end
      else if is_low_surrogate c then replacement_bytes ++ utf8_encode rest
      else utf8_3 c ++ utf8_encode rest
  end.

(** [Buffer.byteLength (s, 'utf-8')] and [buffer.length]. *)
Definition byteLength (s : jsstring) : Z := Z.of_nat (length (utf8_encode s)).

(** [buf.subarray (pos, pos + len)]: what a reader finds at a byte
    position. *)
Definition bytes_at (buf : Buffer) (pos : Z) (len : nat) : Buffer :=
  firstn len (skipn (Z.to_nat pos) buf).

(* ================================================================== *)
(** ** Numbers in template literals *)
(* ================================================================== *)

Definition digit_unit (d : Z) : Z := 48 + d.

Fixpoint digits_aux (fuel : nat) (n : Z) (acc : jsstring) : jsstring :=
  let acc' := digit_unit (n mod 10) :: acc in
  match fuel with
  | O => acc'
  | S fuel' => if n <? 10 then acc' else digits_aux fuel' (n / 10) acc'
  end.

(** Decimal digits of a natural number; [Z.log2 n] steps are more than its
    number of digits. *)
Definition nat_digits (n : Z) : jsstring :=
  digits_aux (Z.to_nat (Z.log2 n)) n [].

(** [String (n)] for an integer [n]. *)
Definition int_to_string (n : Z) : jsstring :=
  if n <? 0 then lit "-" ++ nat_digits (- n) else nat_digits n.

(** Digits after the decimal point of [r / d] (with [0 <= r < d]), by long
    division. *)
Fixpoint frac_digits (fuel : nat) (r : Z) (d : Z) : jsstring :=
  match fuel with
  | O => []
  | S fuel' =>
      if r =? 0 then []
      else digit_unit (10 * r / d) :: frac_digits fuel' (10 * r mod d) d
  end.

(** [String (x)] for a JavaScript Number [x], given as the exact rational it
    holds. The Numbers of this program are sums and halves of integers and
    of multiples of 4.5: multiples of 1/4, whose shortest decimal form is
    their exact one (as long as they stay below 2^50, far above what a
    string length can produce). *)
Definition number_to_string (x : Q) : jsstring :=
  let n := Qnum x in
  let d := Zpos (Qden x) in
  let r := Z.abs n mod d in
  (if n <? 0 then lit "-" else []) ++
  nat_digits (Z.abs n / d) ++
  (if r =? 0 then [] else lit "." ++ frac_digits 20 r d).

(** [s.padStart (n, '0')] with a one-character pad. *)
Definition padStart (n : nat) (pad : Z) (s : jsstring) : jsstring :=
  repeat pad (n - length s) ++ s.

(** [lines.join (sep)]. *)
Fixpoint join (sep : jsstring) (lines : list jsstring) : jsstring :=
  match lines with
  | [] => []
  | [l] => l
  | l :: rest => l ++ sep ++ join sep rest
  end.

(* ================================================================== *)
(** ** escapeText *)
(* ================================================================== *)

(** [s.replace (/c/g, r)] for a one-character pattern: every occurrence of
    [c], left to right, becomes [r]. *)
Definition replace_all (c : Z) (r : jsstring) (s : jsstring) : jsstring :=
  flat_map (fun x => if x =? c then r else [x]) s.

Definition backslash : Z := 92.
Definition lparen : Z := 40.
Definition rparen : Z := 41.

Definition escapeText (text : jsstring) : jsstring :=
  replace_all rparen (lit "\)")
    (replace_all lparen (lit "\(")
      (replace_all backslash (lit "\\") text)).


(* ================================================================== *)
(** ** generateCertificatePDF *)
(* ================================================================== *)

Record CertificateRequest := {
  name : jsstring;
  course : jsstring;
  date : jsstring;
  certificate_id : jsstring
}.

(** [`${x}`] for a Number [x], and [s.length] as a Number. *)
Definition num (x : Q) : jsstring := number_to_string x.
Definition len (s : jsstring) : Q := inject_Z (Z.of_nat (length s)).

(** PDF dimensions: Letter landscape (792 x 612 points). *)
Definition pageWidth : Q := 792.
Definition pageHeight : Q := 612.
Definition centerX : Q := pageWidth / 2.

Definition certLabel : jsstring := lit "CERTIFICATE".
Definition ofLabel : jsstring := lit "OF COMPLETION".
Definition certifyText : jsstring := lit "This is to certify that".
Definition completedText : jsstring := lit "has successfully completed the course".
Definition brandLabel : jsstring := lit "Powered by CertifyFlow".
Definition dateLabel (data : CertificateRequest) : jsstring :=
  lit "Completed on: " ++ date data.
Definition idLabel (data : CertificateRequest) : jsstring :=
  lit "Certificate ID: " ++ certificate_id data.

(** A text block: [BT], font, fill colour, [x y Td], [(text) Tj], [ET],
    where [x] is [centerX - width / 2]. *)
Definition text_block (font colour : string) (width : Q) (y : string)
    (text : jsstring) : list jsstring :=
  [ lit "BT";
    lit font;
    lit colour;
    num (centerX - width / 2) ++ lit " " ++ lit y ++ lit " Td";
    lit "(" ++ escapeText text ++ lit ") Tj";
    lit "ET" ].

(** The lines pushed on [contentLines], in the order of the pushes. *)
Definition contentLines (data : CertificateRequest) : list jsstring :=
  (* outer border *)
  [ lit "0.15 0.15 0.15 RG";
    lit "3 w";
    lit "30 30 " ++ num (pageWidth - 60) ++ lit " " ++ num (pageHeight - 60) ++ lit " re S";
  (* inner border *)
    lit "0.4 0.4 0.4 RG";
    lit "1.5 w";
    lit "42 42 " ++ num (pageWidth - 84) ++ lit " " ++ num (pageHeight - 84) ++ lit " re S";
  (* corner accents *)
    lit "0.2 0.2 0.2 RG";
    lit "2 w";
    lit "50 552 m 50 562 l S";
    lit "50 562 m 60 562 l S";
    num (pageWidth - 50) ++ lit " 552 m " ++ num (pageWidth - 50) ++ lit " 562 l S";
    num (pageWidth - 50) ++ lit " 562 m " ++ num (pageWidth - 60) ++ lit " 562 l S";
    lit "50 60 m 50 50 l S";
    lit "50 50 m 60 50 l S";
    num (pageWidth - 50) ++ lit " 60 m " ++ num (pageWidth - 50) ++ lit " 50 l S";
    num (pageWidth - 50) ++ lit " 50 m " ++ num (pageWidth - 60) ++ lit " 50 l S";
  (* top line *)
    lit "0.3 0.3 0.3 RG";
    lit "1 w";
    num (centerX - 180) ++ lit " 520 m " ++ num (centerX + 180) ++ lit " 520 l S" ]
  (* header, subheader, lead-in *)
  ++ text_block "/F2 14 Tf" "0.35 0.35 0.35 rg" (len certLabel * 9) "535" certLabel
  ++ text_block "/F2 11 Tf" "0.45 0.45 0.45 rg" (len ofLabel * 7) "505" ofLabel
  ++ text_block "/F1 12 Tf" "0.4 0.4 0.4 rg" (len certifyText * 6) "455" certifyText
  (* participant name *)
  ++ text_block "/F2 28 Tf" "0.1 0.1 0.1 rg" (len (name data) * 14) "410" (name data)
  ++ [ lit "0.3 0.3 0.3 RG";
       lit "0.8 w";
       num (centerX - 140) ++ lit " 400 m " ++ num (centerX + 140) ++ lit " 400 l S" ]
  ++ text_block "/F1 12 Tf" "0.4 0.4 0.4 rg" (len completedText * 6) "370" completedText
  (* course name *)
  ++ text_block "/F2 22 Tf" "0.15 0.15 0.15 rg" (len (course data) * 11) "330" (course data)
  ++ [ lit "0.5 0.5 0.5 RG";
       lit "0.5 w";
       num (centerX - 100) ++ lit " 320 m " ++ num (centerX + 100) ++ lit " 320 l S" ]
  (* date *)
  ++ text_block "/F1 11 Tf" "0.4 0.4 0.4 rg" (len (dateLabel data) * 6) "280" (dateLabel data)
  (* signature lines *)
  ++ [ lit "0.3 0.3 0.3 RG";
       lit "0.8 w";
       lit "160 160 m 320 160 l S";
       lit "BT";
       lit "/F1 9 Tf";
       lit "0.45 0.45 0.45 rg";
       lit "200 145 Td";
       lit "(Authorized Signature) Tj";
       lit "ET";
       lit "0.3 0.3 0.3 RG";
       lit "0.8 w";
       num (pageWidth - 320) ++ lit " 160 m " ++ num (pageWidth - 160) ++ lit " 160 l S";
       lit "BT";
       lit "/F1 9 Tf";
       lit "0.45 0.45 0.45 rg";
       num (pageWidth - 280) ++ lit " 145 Td";
       lit "(Program Director) Tj";
       lit "ET" ]
  (* certificate id, branding, bottom line *)
  ++ text_block "/F3 8 Tf" "0.55 0.55 0.55 rg" (len (idLabel data) * 4.5) "80" (idLabel data)
  ++ text_block "/F2 8 Tf" "0.65 0.65 0.65 rg" (len brandLabel * 5) "62" brandLabel
  ++ [ lit "0.3 0.3 0.3 RG";
       lit "1 w";
       num (centerX - 180) ++ lit " 95 m " ++ num (centerX + 180) ++ lit " 95 l S" ].

Definition contentStream (data : CertificateRequest) : jsstring :=
  join nl (contentLines data).

(** The [objects] array together with the counter [objNum]. *)
Record objects_state := {
  objects : list jsstring;
  objNum : Z
}.

(** [objects.push (`${objNum} 0 obj\n` + body); objNum++] *)
Definition push_object (st : objects_state) (body : jsstring) : objects_state :=
  {| objects := objects st ++ [int_to_string (objNum st) ++ lit " 0 obj" ++ nl ++ body];
     objNum := objNum st + 1 |}.

Definition catalog_body : jsstring :=
  lit "<< /Type /Catalog /Pages 2 0 R >>" ++ nl ++ lit "endobj".

Definition pages_body : jsstring :=
  lit "<< /Type /Pages /Kids [3 0 R] /Count 1 >>" ++ nl ++ lit "endobj".

Definition page_body : jsstring :=
  lit "<< /Type /Page /Parent 2 0 R /MediaBox [0 0 " ++ num pageWidth ++ lit " "
  ++ num pageHeight
  ++ lit "] /Contents 4 0 R /Resources << /Font << /F1 5 0 R /F2 6 0 R /F3 7 0 R >> >> >>"
  ++ nl ++ lit "endobj".

(** [streamBytes = Buffer.from (contentStream, 'utf-8')], and the stream
    object written with [streamBytes.length]. *)
Definition streamBytes (data : CertificateRequest) : Buffer :=
  utf8_encode (contentStream data).

Definition stream_body (data : CertificateRequest) : jsstring :=
  lit "<< /Length " ++ int_to_string (Z.of_nat (length (streamBytes data))) ++ lit " >>"
  ++ nl ++ lit "stream" ++ nl ++ contentStream data ++ nl ++ lit "endstream"
  ++ nl ++ lit "endobj".

Definition font_body (base : string) : jsstring :=
  lit "<< /Type /Font /Subtype /Type1 /BaseFont /" ++ lit base
  ++ lit " /Encoding /WinAnsiEncoding >>" ++ nl ++ lit "endobj".

Definition build_objects (data : CertificateRequest) : objects_state :=
  let st := {| objects := []; objNum := 1 |} in
  let st := push_object st catalog_body in
  let st := push_object st pages_body in
  let st := push_object st page_body in
  let st := push_object st (stream_body data) in
  let st := push_object st (font_body "Helvetica") in
  let st := push_object st (font_body "Helvetica-Bold") in
  let st := push_object st (font_body "Courier") in
  st.

(** The text [pdf] and the array [offsets] of the assembly loop. *)
Record assembly := {
  pdf : jsstring;
  offsets : list Z
}.

(** [offsets.push (Buffer.byteLength (pdf, 'utf-8')); pdf += obj + '\n'] *)
Definition assemble_step (a : assembly) (obj : jsstring) : assembly :=
  {| pdf := pdf a ++ obj ++ nl;
     offsets := offsets a ++ [byteLength (pdf a)] |}.

Definition assemble_objects (objs : list jsstring) : assembly :=
  fold_left assemble_step objs {| pdf := lit "%PDF-1.4" ++ nl; offsets := [] |}.

(** [`${String(offset).padStart(10, '0')} 00000 n \n`] *)
Definition xref_entry (offset : Z) : jsstring :=
  padStart 10 48 (int_to_string offset) ++ lit " 00000 n " ++ nl.

Definition xref_head (count : Z) : jsstring :=
  lit "xref" ++ nl ++ lit "0 " ++ int_to_string count ++ nl
  ++ lit "0000000000 65535 f " ++ nl.

Definition trailer (count xrefOffset : Z) : jsstring :=
  lit "trailer" ++ nl ++ lit "<< /Size " ++ int_to_string count
  ++ lit " /Root 1 0 R >>" ++ nl ++ lit "startxref" ++ nl
  ++ int_to_string xrefOffset ++ nl ++ lit "%%EOF".

(** The objects laid out after the header, with their offsets. *)
Definition assembled (data : CertificateRequest) : assembly :=
  assemble_objects (objects (build_objects data)).

Definition object_offsets (data : CertificateRequest) : list Z :=
  offsets (assembled data).

Definition xrefOffset (data : CertificateRequest) : Z :=
  byteLength (pdf (assembled data)).

(** The final value of [pdf]. *)
Definition pdf_text (data : CertificateRequest) : jsstring :=
  let count := objNum (build_objects data) in
  let a := assembled data in
  let pdf := pdf a ++ xref_head count in
  let pdf := fold_left (fun pdf offset => pdf ++ xref_entry offset) (offsets a) pdf in
  pdf ++ trailer count (xrefOffset data).

Definition generateCertificatePDF (data : CertificateRequest) : Buffer :=
  utf8_encode (pdf_text data).

(* ================================================================== *)
(** ** Reading a buffer back *)
(* ================================================================== *)

(** A string that does not begin with a low surrogate: nothing before it can
    pair with its first code unit. *)
Definition safe_head (s : jsstring) : bool :=
  match s with
  | [] => true
  | c :: _ => negb (is_low_surrogate c)
  end.


Definition is_digit (c : Z) : bool := (48 <=? c) && (c <=? 57).

(** The value of a run of decimal digits, most significant first. *)
Definition read_digits (acc : Z) (s : list Z) : Z :=
  fold_left (fun v c => 10 * v + (c - 48)) s acc.

Definition read_decimal (s : list Z) : Z := read_digits 0 s.

(** The text of a list of objects as the assembly loop lays it out: every
    object followed by a newline. *)
Definition layout (objs : list jsstring) : jsstring :=
  concat (map (fun obj => obj ++ nl) objs).

(** The offsets the loop records when it starts from the text [p]. *)
Fixpoint offsets_from (p : jsstring) (objs : list jsstring) : list Z :=
  match objs with
  | [] => []
  | obj :: rest => byteLength p :: offsets_from (p ++ obj ++ nl) rest
  end.

(** Bodies numbered from [n] on, as [push_object] numbers them. *)
Fixpoint numbered (n : Z) (bodies : list jsstring) : list jsstring :=
  match bodies with
  | [] => []
  | body :: rest =>
      (int_to_string n ++ lit " 0 obj" ++ nl ++ body) :: numbered (n + 1) rest
  end.

(** The seven bodies in the order in which [build_objects] pushes them. *)
Definition object_bodies (data : CertificateRequest) : list jsstring :=
  [ catalog_body; pages_body; page_body; stream_body data;
    font_body "Helvetica"; font_body "Helvetica-Bold"; font_body "Courier" ].

Definition header : jsstring := lit "%PDF-1.4" ++ nl.

(** The text written before object number [k + 1]. *)
Definition text_before (data : CertificateRequest) (k : nat) : jsstring :=
  header ++ layout (firstn k (objects (build_objects data))).

(** The bytes of a list of objects: every object encoded, followed by a
    newline byte. *)
Definition encoded_layout (objs : list jsstring) : Buffer :=
  concat (map (fun obj => utf8_encode obj ++ nl) objs).

(** The cross-reference section and the trailer, which are ASCII. *)
Definition xref_section (data : CertificateRequest) : jsstring :=
  xref_head 8 ++ concat (map xref_entry (object_offsets data)).

(** *** A reader for the cross-reference data

    What a PDF reader does to find the objects of a file: read the number
    between [startxref] and [%%EOF] at the end, go to that byte, read the
    table heading and one fixed-width entry per object. *)

Fixpoint strip_prefix (p s : list Z) : option (list Z) :=
  match p, s with
  | [], _ => Some s
  | a :: p', b :: s' => if a =? b then strip_prefix p' s' else None
  | _ :: _, [] => None
  end.

Fixpoint take_digits (s : list Z) : list Z * list Z :=
  match s with
  | c :: s' =>
      if is_digit c
      then let (ds, rest) := take_digits s' in (c :: ds, rest)
      else ([], s)
  | [] => ([], [])
  end.

(** The number written between [startxref\n] and [\n%%EOF], where the file
    ends with [%%EOF]. *)
Definition read_startxref (buf : Buffer) : option Z :=
  match strip_prefix (rev (nl ++ lit "%%EOF")) (rev buf) with
  | None => None
  | Some r =>
      let (ds, r') := take_digits r in
      match ds, strip_prefix (rev (lit "startxref" ++ nl)) r' with
      | _ :: _, Some _ => Some (read_decimal (rev ds))
      | _, _ => None
      end
  end.

Record xref_line := {
  line_offset : Z;
  line_generation : Z;
  line_in_use : bool
}.

(** One entry of exactly twenty bytes: ten digits, a space, five digits, a
    space, [n] or [f], a space, a newline. *)
Definition read_xref_line (s : list Z) : option xref_line :=
  let off := firstn 10 s in
  match skipn 10 s with
  | sp1 :: g1 :: g2 :: g3 :: g4 :: g5 :: sp2 :: kind :: sp3 :: eol :: _ =>
      if (length off =? 10)%nat && forallb is_digit off
         && (sp1 =? 32) && forallb is_digit [g1; g2; g3; g4; g5] && (sp2 =? 32)
         && ((kind =? 110) || (kind =? 102)) && (sp3 =? 32) && (eol =? 10)
      then Some {| line_offset := read_decimal off;
                   line_generation := read_decimal [g1; g2; g3; g4; g5];
                   line_in_use := kind =? 110 |}
      else None
  | _ => None
  end.

Fixpoint read_xref_lines (n : nat) (s : list Z) : option (list xref_line * list Z) :=
  match n with
  | O => Some ([], s)
  | S n' =>
      match read_xref_line s with
      | None => None
      | Some l =>
          match read_xref_lines n' (skipn 20 s) with
          | None => None
          | Some (ls, rest) => Some (l :: ls, rest)
          end
      end
  end.

(** The table found by following [startxref]: its entries and what comes
    after them. *)
Definition read_xref (buf : Buffer) : option (list xref_line * list Z) :=
  match read_startxref buf with
  | None => None
  | Some xo =>
      match strip_prefix (lit "xref" ++ nl ++ lit "0 ") (skipn (Z.to_nat xo) buf) with
      | None => None
      | Some s =>
          let (ds, s') := take_digits s in
          match ds, strip_prefix nl s' with
          | _ :: _, Some s'' => read_xref_lines (Z.to_nat (read_decimal ds)) s''
          | _, _ => None
          end
      end
  end.

Definition free_line : xref_line :=
  {| line_offset := 0; line_generation := 65535; line_in_use := false |}.

Definition in_use_line (offset : Z) : xref_line :=
  {| line_offset := offset; line_generation := 0; line_in_use := true |}.

(** The text that opens object number [i]. *)
Definition obj_keyword (i : Z) : jsstring := int_to_string i ++ lit " 0 obj".

(** The stream object that begins at byte [pos]: its declared [/Length] and
    the bytes of that length found after [stream\n], provided that
    [\nendstream] follows them. *)
Definition read_stream (buf : Buffer) (pos : Z) : option (Z * Buffer) :=
  let s := skipn (Z.to_nat pos) buf in
  let (_, s1) := take_digits s in
  match strip_prefix (lit " 0 obj" ++ nl ++ lit "<< /Length ") s1 with
  | None => None
  | Some s2 =>
      let (ds, s3) := take_digits s2 in
      match ds, strip_prefix (lit " >>" ++ nl ++ lit "stream" ++ nl) s3 with
      | _ :: _, Some s4 =>
          let n := Z.to_nat (read_decimal ds) in
          match strip_prefix (nl ++ lit "endstream") (skipn n s4) with
          | Some _ =>
              if (length (firstn n s4) =? n)%nat
              then Some (read_decimal ds, firstn n s4)
              else None
          | None => None
          end
      | _, _ => None
      end
  end.

(** What precedes and what follows the payload of the stream object. *)
Definition stream_head (data : CertificateRequest) : jsstring :=
  lit "4 0 obj" ++ nl ++ lit "<< /Length "
  ++ int_to_string (Z.of_nat (length (streamBytes data)))
  ++ lit " >>" ++ nl ++ lit "stream" ++ nl.

Definition stream_tail : jsstring :=
  nl ++ lit "endstream" ++ nl ++ lit "endobj".

(** *** Sample requests *)

Definition alice : CertificateRequest :=
  {| name := lit "Alice Johnson";
     course := lit "Advanced React";
     date := lit "2025-01-15";
     certificate_id := lit "CERT-AJ-2025-001" |}.

(** A request whose text is not ASCII: e-acute, an emoji (a surrogate pair),
    a euro sign, and an unpaired high surrogate at the end of the name. *)
Definition zoe : CertificateRequest :=
  {| name := [90; 0xE9; 0xD83D; 0xDE00; 0xD83D];
     course := lit "Intro (Basics)";
     date := [0x20AC] ++ lit "2025";
     certificate_id := lit "CERT\1" |}.

(** *** Reading a string literal back *)

Definition is_special (c : Z) : bool :=
  (c =? backslash) || (c =? lparen) || (c =? rparen).

(** What one code unit becomes in a string literal. *)
Definition escape_unit (c : Z) : jsstring :=
  if is_special c then [backslash; c] else [c].

(** The reverse of the escaping rule, as a PDF reader applies it: a
    backslash stands for the code unit that follows it. *)
Fixpoint unescape (s : jsstring) : jsstring :=
  match s with
  | [] => []
  | c :: rest =>
      if c =? backslash then
        match rest with
        | d :: rest' => d :: unescape rest'
        | [] => []
        end
      else c :: unescape rest
  end.

(** The escaping with the replacements in the other order: parentheses
    first, backslash last. *)
Definition escape_backslash_last (text : jsstring) : jsstring :=
  replace_all backslash (lit "\\")
    (replace_all rparen (lit "\)")
      (replace_all lparen (lit "\(") text)).

(** *** The string literals of a content stream

    A reader of a whole content stream that collects its string literals
    in order. Outside a literal only an opening parenthesis matters; inside
    one, parentheses nest, a backslash makes the backslash or parenthesis
    after it an ordinary character, and the parenthesis that closes the
    literal ends it. [None] when a literal is left open or holds another
    escape. *)
Inductive scan_state :=
| Outside
| Inside (depth : nat) (acc : list Z)
| Escaped (depth : nat) (acc : list Z).

Fixpoint scan_literals (st : scan_state) (s : list Z) : option (list (list Z)) :=
  match s with
  | [] => match st with
          | Outside => Some []
          | _ => None
          end
  | c :: rest =>
      match st with
      | Outside =>
          if c =? lparen then scan_literals (Inside 0 []) rest
          else scan_literals Outside rest
      | Inside depth acc =>
          if c =? backslash then scan_literals (Escaped depth acc) rest
          else if c =? lparen then scan_literals (Inside (S depth) (c :: acc)) rest
          else if c =? rparen then
            match depth with
            | O => option_map (cons (rev acc)) (scan_literals Outside rest)
            | S depth' => scan_literals (Inside depth' (c :: acc)) rest
            end
          else scan_literals (Inside depth (c :: acc)) rest
      | Escaped depth acc =>
          if is_special c then scan_literals (Inside depth (c :: acc)) rest
          else None
      end
  end.

Definition content_literals (s : list Z) : option (list (list Z)) :=
  scan_literals Outside s.

(** The texts that [generateCertificatePDF] shows, in the order in which it
    pushes them: seven fixed ones and the four that hold the fields. *)
Definition stream_texts (data : CertificateRequest) : list jsstring :=
  [ certLabel; ofLabel; certifyText; name data; completedText; course data;
    dateLabel data; lit "Authorized Signature"; lit "Program Director";
    idLabel data; brandLabel ].

(** A piece of a content stream that holds the literals [texts], whatever
    follows it. *)
Definition reads_as (piece : list Z) (texts : list (list Z)) : Prop :=
  forall rest,
    scan_literals Outside (piece ++ rest)
    = option_map (app texts) (scan_literals Outside rest).

Definition no_lparen (s : list Z) : bool := forallb (fun c => negb (c =? lparen)) s.

(** *** Reading UTF-8 back

    A decoder for the byte sequences that a UTF-8 encoder writes: one byte
    below [0x80], or a lead byte and one to three continuation bytes, a
    code point above [0xFFFF] giving a surrogate pair. [None] on any other
    sequence. *)
Definition is_continuation (b : Z) : bool := (0x80 <=? b) && (b <? 0xC0).

Fixpoint utf8_decode (bytes : Buffer) : option jsstring :=
  match bytes with
  | [] => Some []
  | b0 :: rest =>
      if b0 <? 0x80 then option_map (cons b0) (utf8_decode rest)
      else if b0 <? 0xC0 then None
      else if b0 <? 0xE0 then
        match rest with
        | b1 :: rest1 =>
            if is_continuation b1
            then option_map (cons ((b0 - 0xC0) * 64 + (b1 - 0x80))) (utf8_decode rest1)
            else None
        | _ => None
        end
      else if b0 <? 0xF0 then
        match rest with
        | b1 :: b2 :: rest2 =>
            if is_continuation b1 && is_continuation b2
            then option_map
                   (cons ((b0 - 0xE0) * 4096 + (b1 - 0x80) * 64 + (b2 - 0x80)))
                   (utf8_decode rest2)
            else None
        | _ => None
        end
      else
        match rest with
        | b1 :: b2 :: b3 :: rest3 =>
            if is_continuation b1 && is_continuation b2 && is_continuation b3
            then
              let cp := (b0 - 0xF0) * 262144 + (b1 - 0x80) * 4096
                        + (b2 - 0x80) * 64 + (b3 - 0x80) in
              option_map
                (fun s => (0xD800 + (cp - 0x10000) / 1024)
                          :: (0xDC00 + (cp - 0x10000) mod 1024) :: s)
                (utf8_decode rest3)
            else None
        | _ => None
        end
  end.

(** A string of sixteen-bit code units in which every surrogate belongs to
    a pair: a high surrogate followed by a low one. *)
Fixpoint well_paired (s : jsstring) : bool :=
  match s with
  | [] => true
  | c :: rest =>
      if is_high_surrogate c then
        match rest with
        | d :: rest' => is_low_surrogate d && well_paired rest'
        | [] => false
        end
      else (0 <=? c) && (c <? 65536) && negb (is_low_surrogate c) && well_paired rest
  end.

(** [Some] of the elements when all of them are. *)
Fixpoint all_some {A} (l : list (option A)) : option (list A) :=
  match l with
  | [] => Some []
  | Some a :: rest => option_map (cons a) (all_some rest)
  | None :: _ => None
  end.

(* ================================================================== *)
(** ** The request handler *)
(* ================================================================== *)

(** *** JavaScript values and exceptions

    The handler works on whatever [request.json ()] returns: values parsed
    from JSON, and [undefined] for a property that is absent. *)
Set Warnings "-register-all".
Inductive value :=
| VUndefined
| VNull
| VBool (b : bool)
| VNumber (x : Q)   (* the value of the Number *)
| VString (s : jsstring)
| VArray (items : list value)
| VObject (fields : list (jsstring * value)).

(** What a [throw] carries: an [Error] object with its message, or any
    other value. *)
Inductive thrown :=
| ErrorObject (message : jsstring)
| NonError (v : value).

Inductive result (A : Type) :=
| Ok (a : A)
| Throw (e : thrown).

Arguments Ok {A} a.
Arguments Throw {A} e.

Definition bind {A B} (r : result A) (k : A -> result B) : result B :=
  match r with
  | Ok a => k a
  | Throw e => Throw e
  end.

Notation "x <- e ;; k" := (bind e (fun x => k))
  (at level 61, e at next level, right associativity).

(** *** The engine

    What the engine decides: the texts of its [TypeError]s, which name the
    value ([null] or [undefined]) that has no properties, the decimal form
    of a Number, and the greatest length of a string, in code units, with
    the text of the [RangeError] that an operation throws when its result
    would be longer. *)
Record Engine := {
  msg_destructure : value -> jsstring;
  msg_read_property : value -> jsstring -> jsstring;
  msg_not_a_function : jsstring -> jsstring;
  msg_not_primitive : jsstring;
  number_text : Q -> jsstring;
  max_string_length : Z;
  msg_string_length : jsstring
}.

(** *** Number to String

    [Number::toString] of ECMAScript in radix 10, on the binary64 Number
    nearest to a rational: the shortest digits that read back as the
    Number, written plainly for exponents up to 21 and down to -6 and with
    an exponent beyond. *)

(** [n / d >= 2 ^ k], for positive [n] and [d]. *)
Definition at_least_pow2 (n d k : Z) : bool :=
  if 0 <=? k then d * 2 ^ k <=? n else d <=? n * 2 ^ (- k).

(** The integer [l] with [2 ^ l <= n / d < 2 ^ (l + 1)]. *)
Definition floor_log2 (n d : Z) : Z :=
  let k := Z.log2 n - Z.log2 d in
  if at_least_pow2 n d k then k else k - 1.

(** Division rounded to the nearest integer, ties to the even one. *)
Definition div_half_even (num den : Z) : Z :=
  let q := num / den in
  let r := num mod den in
  if 2 * r <? den then q
  else if den <? 2 * r then q + 1
  else if Z.even q then q else q + 1.

(** The binary64 Number nearest to the positive rational [n / d], as
    [(m, e)] for the value [m * 2 ^ e]; [None] for [Infinity]. *)
Definition to_double (n d : Z) : option (Z * Z) :=
  let e := Z.max (floor_log2 n d - 52) (-1074) in
  let m := if 0 <=? e then div_half_even n (d * 2 ^ e)
           else div_half_even (n * 2 ^ (- e)) d in
  if (971 <? e) || ((e =? 971) && (2 ^ 53 <=? m)) then None else Some (m, e).

(** [m * 2 ^ e] as a fraction. *)
Definition double_fraction (v : Z * Z) : Z * Z :=
  let '(m, e) := v in
  if 0 <=? e then (m * 2 ^ e, 1) else (m, 2 ^ (- e)).

Definition same_double (n d : Z) (v : Z * Z) : bool :=
  match to_double n d with
  | Some w =>
      let '(a, b) := double_fraction w in
      let '(a', b') := double_fraction v in
      a * b' =? a' * b
  | None => false
  end.

(** The integer [n] with [10 ^ (n - 1) <= a / b < 10 ^ n], for a positive
    fraction below [10 ^ 400] and above [10 ^ -400]. *)
Fixpoint leading_zeros (fuel : nat) (a b : Z) : Z :=
  match fuel with
  | O => 0
  | S fuel' => if b <=? a then 0 else 1 + leading_zeros fuel' (10 * a) b
  end.

Definition decimal_exponent (a b : Z) : Z :=
  if b <=? a then Z.of_nat (length (nat_digits (a / b)))
  else 1 - leading_zeros 400 a b.

(** [s * 10 ^ p] as a fraction. *)
Definition scaled (s p : Z) : Z * Z :=
  if 0 <=? p then (s * 10 ^ p, 1) else (s, 10 ^ (- p)).

(** The digits [s] of the shortest decimal that reads back as the Number
    [v]: the least [k], from [k] on, for which [s * 10 ^ (n - k)] does,
    with [s] the nearest to [v] and even on a tie. *)
Fixpoint shortest (fuel : nat) (v : Z * Z) (n k : Z) : Z * Z :=
  let '(a, b) := double_fraction v in
  (* t = (a / b) / 10 ^ (n - k) *)
  let '(num, den) := if 0 <=? n - k then (a, b * 10 ^ (n - k))
                     else (a * 10 ^ (k - n), b) in
  let lo := num / den in
  let r := num mod den in
  let hi := lo + 1 in
  let reads s := let '(x, y) := scaled s (n - k) in same_double x y v in
  let nearest := if 2 * r <? den then lo
                 else if den <? 2 * r then hi
                 else if Z.even lo then lo else hi in
  match fuel with
  | O => (nearest, k)
  | S fuel' =>
      if r =? 0 then (lo, k)
      else if reads lo && reads hi then (nearest, k)
      else if reads lo then (lo, k)
      else if reads hi then (hi, k)
      else shortest fuel' v n (k + 1)
  end.

Definition zeros (n : Z) : jsstring := repeat 48 (Z.to_nat n).

(** Number::toString of ECMAScript for the digits [s] (of which there are
    [k]) and the exponent [n]. *)
Definition format_number (s k n : Z) : jsstring :=
  let digits := nat_digits s in
  if (k <=? n) && (n <=? 21) then digits ++ zeros (n - k)
  else if (0 <? n) && (n <=? 21) then
    firstn (Z.to_nat n) digits ++ lit "." ++ skipn (Z.to_nat n) digits
  else if (-6 <? n) && (n <=? 0) then lit "0." ++ zeros (- n) ++ digits
  else
    let e := n - 1 in
    let exponent := (if e <? 0 then lit "e-" else lit "e+") ++ nat_digits (Z.abs e) in
    if k =? 1 then digits ++ exponent
    else firstn 1 digits ++ lit "." ++ skipn 1 digits ++ exponent.

(** Trailing zeros of [s] do not count as digits. *)
Fixpoint strip_zeros (fuel : nat) (s k : Z) : Z * Z :=
  match fuel with
  | O => (s, k)
  | S fuel' => if (s mod 10 =? 0) && (1 <? k) then strip_zeros fuel' (s / 10) (k - 1) else (s, k)
  end.

Definition positive_to_string (n d : Z) : jsstring :=
  match to_double n d with
  | None => lit "Infinity"
  | Some (m, e) =>
      if m =? 0 then lit "0"
      else
        let '(a, b) := double_fraction (m, e) in
        let n10 := decimal_exponent a b in
        let '(s, k) := shortest 17 (m, e) n10 1 in
        (* [s] may have reached [10 ^ k] *)
        let n10 := if 10 ^ k <=? s then n10 + 1 else n10 in
        let k' := Z.of_nat (length (nat_digits s)) in
        let '(s, k) := strip_zeros 20 s k' in
        format_number s k n10
  end.

(** [String (x)] for the Number nearest to the rational [x]. *)
Definition js_number_to_string (x : Q) : jsstring :=
  let n := Qnum x in
  let d := Zpos (Qden x) in
  if n =? 0 then lit "0"
  else
    let text := positive_to_string (Z.abs n) d in
    if (n <? 0) && negb (match text with [48] => true | _ => false end)
    then lit "-" ++ text else text.

Definition nullish_text (receiver : value) : jsstring :=
  match receiver with
  | VUndefined => lit "undefined"
  | _ => lit "null"
  end.

(** V8, the engine of Node. *)
Definition v8 : Engine :=
  {| msg_destructure := fun receiver =>
       lit "Cannot destructure property 'participants' of 'body' as it is "
       ++ nullish_text receiver ++ lit ".";
     msg_read_property := fun receiver key =>
       lit "Cannot read properties of " ++ nullish_text receiver
       ++ lit " (reading '" ++ key ++ lit "')";
     msg_not_a_function := fun callee => callee ++ lit " is not a function";
     msg_not_primitive := lit "Cannot convert object to primitive value";
     number_text := js_number_to_string;
     max_string_length := 2 ^ 29 - 24;
     msg_string_length := lit "Invalid string length" |}.

Definition unit_eqb_list (a b : jsstring) : bool :=
  (length a =? length b)%nat && forallb (fun p => fst p =? snd p) (combine a b).

(** The own property [key] of an object literal parsed from JSON. *)
Fixpoint get_own (key : jsstring) (fields : list (jsstring * value)) : value :=
  match fields with
  | [] => VUndefined
  | (k, v) :: rest => if unit_eqb_list k key then v else get_own key rest
  end.

Definition has_own (key : jsstring) (fields : list (jsstring * value)) : bool :=
  existsb (fun kv => unit_eqb_list (fst kv) key) fields.

(** [v ? a : b] decides on this. *)
Definition truthy (v : value) : bool :=
  match v with
  | VUndefined | VNull => false
  | VBool b => b
  | VNumber x => negb (Qeq_bool x 0)
  | VString s => negb (length s =? 0)%nat
  | VArray _ | VObject _ => true
  end.

(** [v || d] *)
Definition or_else (v d : value) : value := if truthy v then v else d.

(** [new Date (t).toISOString ().split ('T')[0]]: the calendar date of the
    time [t], in milliseconds since 1970, in UTC. *)
Definition civil_from_days (z : Z) : Z * Z * Z :=
  let z := z + 719468 in
  let era := z / 146097 in
  let doe := z - era * 146097 in
  let yoe := (doe - doe / 1460 + doe / 36524 - doe / 146096) / 365 in
  let doy := doe - (365 * yoe + yoe / 4 - yoe / 100) in
  let mp := (5 * doy + 2) / 153 in
  let d := doy - (153 * mp + 2) / 5 + 1 in
  let m := if mp <? 10 then mp + 3 else mp - 9 in
  let y := yoe + era * 400 in
  (if m <=? 2 then y + 1 else y, m, d).

Definition iso_year (y : Z) : jsstring :=
  if (0 <=? y) && (y <=? 9999) then padStart 4 48 (nat_digits y)
  else (if y <? 0 then lit "-" else lit "+") ++ padStart 6 48 (nat_digits (Z.abs y)).

Definition iso_date (t : Z) : jsstring :=
  let '(y, m, d) := civil_from_days (t / 86400000) in
  iso_year y ++ lit "-" ++ padStart 2 48 (nat_digits m)
  ++ lit "-" ++ padStart 2 48 (nat_digits d).

(** [buf.toString ('base64')] *)
Definition b64_char (i : Z) : Z :=
  if i <? 26 then 65 + i
  else if i <? 52 then 97 + (i - 26)
  else if i <? 62 then 48 + (i - 52)
  else if i =? 62 then 43 else 47.

Fixpoint base64 (bytes : Buffer) : jsstring :=
  match bytes with
  | [] => []
  | [a] => [b64_char (a / 4); b64_char (a mod 4 * 16); 61; 61]
  | [a; b] =>
      [b64_char (a / 4); b64_char (a mod 4 * 16 + b / 16);
       b64_char (b mod 16 * 4); 61]
  | a :: b :: c :: rest =>
      b64_char (a / 4) :: b64_char (a mod 4 * 16 + b / 16)
      :: b64_char (b mod 16 * 4 + c / 64) :: b64_char (c mod 64)
      :: base64 rest
  end.

(** [/[^a-zA-Z0-9]/] on one code unit, negated. *)
Definition is_alnum (c : Z) : bool :=
  ((97 <=? c) && (c <=? 122)) || ((65 <=? c) && (c <=? 90))
  || ((48 <=? c) && (c <=? 57)).

(** [s.replace (/[^a-zA-Z0-9]/g, '_')] *)
Definition sanitize (s : jsstring) : jsstring :=
  map (fun c => if is_alnum c then c else 95) s.

Record certificate_entry := {
  entry_name : value;
  entry_email : value;
  entry_course : value;
  entry_date : value;
  entry_certificate_id : value;
  pdf_base64 : jsstring;
  filename : jsstring
}.

(** The JSON body of a response: [{ success: false, error }] or
    [{ success: true, total, certificates }]. *)
Inductive response_body :=
| Failure (error : jsstring)
| Success (total : Z) (certificates : list certificate_entry).

Record response := {
  status : Z;
  body : response_body
}.

Definition success (r : response) : bool :=
  match body r with
  | Failure _ => false
  | Success _ _ => true
  end.

Section Handler.

Variable E : Engine.

(** The system clock: the time, in milliseconds, of its [n]-th reading. *)
Variable clock : nat -> Z.

(** [String (v)], the conversion a template literal applies. An object
    literal has the conversion of [Object.prototype] unless an own
    property shadows [toString] (no JSON value is callable); an array
    joins the conversions of its elements. *)
Fixpoint to_string (v : value) : result jsstring :=
  match v with
  | VUndefined => Ok (lit "undefined")
  | VNull => Ok (lit "null")
  | VBool b => Ok (if b then lit "true" else lit "false")
  | VNumber x => Ok (number_text E x)
  | VString s => Ok s
  | VArray items =>
      (fix join_items (l : list value) : result jsstring :=
         match l with
         | [] => Ok []
         | x :: rest =>
             head <- match x with
                     | VUndefined | VNull => Ok []
                     | _ => to_string x
                     end ;;
             match rest with
             | [] => Ok head
             | _ :: _ => tail <- join_items rest ;; Ok (head ++ lit "," ++ tail)
             end
         end) items
  | VObject fields =>
      if has_own (lit "toString") fields
      then Throw (ErrorObject (msg_not_primitive E))
      else Ok (lit "[object Object]")
  end.

(** What the encoder needs of [name] and of [course]: [text.length * k],
    which converts the length to a Number, then [text.replace], which only
    a string has. *)
Definition text_argument (text : value) : result jsstring :=
  match text with
  | VString s => Ok s
  | VUndefined | VNull => Throw (ErrorObject (msg_read_property E text (lit "length")))
  | VObject fields =>
      _ <- to_string (get_own (lit "length") fields) ;;
      Throw (ErrorObject (msg_not_a_function E (lit "text.replace")))
  | _ => Throw (ErrorObject (msg_not_a_function E (lit "text.replace")))
  end.

(** [generateCertificatePDF] as the runtime runs it, on values whose types
    nothing has checked. *)
Definition generateCertificatePDF_untyped
    (name course date certificate_id : value) : result Buffer :=
  n <- text_argument name ;;
  c <- text_argument course ;;
  d <- to_string date ;;
  i <- to_string certificate_id ;;
  Ok (generateCertificatePDF
        {| name := n; course := c; date := d; certificate_id := i |}).

(** [p.key], for the property names the handler reads (none of them is a
    property of a prototype). *)
Definition get_property (p : value) (key : string) : result value :=
  match p with
  | VUndefined | VNull => Throw (ErrorObject (msg_read_property E p (lit key)))
  | VObject fields => Ok (get_own (lit key) fields)
  | _ => Ok VUndefined
  end.

(** [(v).replace (/[^a-zA-Z0-9]/g, '_')] *)
Definition sanitized (v : value) : result jsstring :=
  match v with
  | VString s => Ok (sanitize s)
  | _ => Throw (ErrorObject (msg_not_a_function E (lit "(intermediate value).replace")))
  end.

(** One turn of the loop over [participants], from the clock reading
    number [tick] on; returns the entry pushed and the next reading. *)
Definition certificate_for (p : value) (tick : nat)
    : result (certificate_entry * nat) :=
  p_name <- get_property p "name" ;;
  p_course <- get_property p "course" ;;
  p_date <- get_property p "date" ;;
  let '(date, tick) :=
    if truthy p_date then (p_date, tick)
    else (VString (iso_date (clock tick)), S tick) in
  p_id <- get_property p "certificate_id" ;;
  let '(certificate_id, tick) :=
    if truthy p_id then (p_id, tick)
    else (VString (lit "CERT-" ++ int_to_string (clock tick)), S tick) in
  pdfBuffer <- generateCertificatePDF_untyped
                 (or_else p_name (VString (lit "Participant")))
                 (or_else p_course (VString (lit "Course")))
                 date certificate_id ;;
  sanitizedName <- sanitized (or_else p_name (VString (lit "certificate"))) ;;
  p_email <- get_property p "email" ;;
  Ok ({| entry_name := p_name;
         entry_email := p_email;
         entry_course := p_course;
         entry_date := p_date;
         entry_certificate_id := p_id;
         pdf_base64 := base64 pdfBuffer;
         filename := lit "Certificate_" ++ sanitizedName ++ lit ".pdf" |},
      tick).

(** [for (const p of participants) { ... certificates.push (...) }] *)
Fixpoint certificates_for (participants : list value) (tick : nat)
    : result (list certificate_entry) :=
  match participants with
  | [] => Ok []
  | p :: rest =>
      r <- certificate_for p tick ;;
      certificates <- certificates_for rest (snd r) ;;
      Ok (fst r :: certificates)
  end.

(** [const { participants } = body] *)
Definition destructure_participants (body : value) : result value :=
  match body with
  | VUndefined | VNull => Throw (ErrorObject (msg_destructure E body))
  | VObject fields => Ok (get_own (lit "participants") fields)
  | _ => Ok VUndefined
  end.

(** The [try] block, given what [await request.json ()] gives. *)
Definition POST_try (request_json : result value) : result response :=
  body <- request_json ;;
  participants <- destructure_participants body ;;
  match participants with
  | VArray (p :: rest) =>
      certificates <- certificates_for (p :: rest) 0 ;;
      Ok {| status := 200;
            body := Success (Z.of_nat (length certificates)) certificates |}
  | _ =>
      Ok {| status := 400;
            body := Failure (lit "participants array is required") |}
  end.

(** [error instanceof Error ? error.message : 'PDF generation failed'] *)
Definition errorMsg (error : thrown) : jsstring :=
  match error with
  | ErrorObject message => message
  | NonError _ => lit "PDF generation failed"
  end.

Definition POST (request_json : result value) : response :=
  match POST_try request_json with
  | Ok r => r
  | Throw error => {| status := 500; body := Failure (errorMsg error) |}
  end.

End Handler.

(** *** Sample requests to the handler *)

Definition field (key : string) (v : string) : jsstring * value :=
  (lit key, VString (lit v)).

Definition alice_json : value :=
  VObject [ field "name" "Alice Johnson"; field "email" "alice@example.com";
            field "course" "Advanced React"; field "date" "2025-01-15";
            field "certificate_id" "CERT-AJ-2025-001" ].

(** A participant with an e-mail address only. *)
Definition anonymous_json : value :=
  VObject [ field "email" "bob@example.com" ].

Definition batch (participants : list value) : result value :=
  Ok (VObject [ (lit "participants", VArray participants) ]).

(** A clock that stands at 2025-01-15T00:00:00Z. *)
Definition fixed_clock (n : nat) : Z := 1736899200000.

(** The [certificates] of a response ([[]] when it has none). *)
Definition certificates_of (r : response) : list certificate_entry :=
  match body r with
  | Success _ certificates => certificates
  | Failure _ => []
  end.

Definition error_of (r : response) : jsstring :=
  match body r with
  | Failure error => error
  | Success _ _ => []
  end.

(** The entry of a turn of the loop, without the clock reading. *)
Definition entry_of (r : result (certificate_entry * nat)) : result certificate_entry :=
  x <- r ;; Ok (fst x).

(** A clock that stands at 1970-01-01T00:00:00Z. *)
Definition epoch_clock (n : nat) : Z := 0.
(* ================================================================== *)
(** ** The encoder on an engine with a greatest string length *)
(* ================================================================== *)










(* ================================================================== *)
(** ** Further readers and helpers *)
(* ================================================================== *)

(** A reader for the body of a PDF string literal, after its opening
    parenthesis: parentheses nest, a backslash makes the backslash or the
    parenthesis that follows it an ordinary character, and the parenthesis
    that closes the literal ends it. It returns the characters of the
    literal and what follows the closing parenthesis; it accepts the three
    escapes that [escapeText] writes. *)
Fixpoint read_literal (depth : nat) (s acc : list Z) : option (list Z * list Z) :=
  match s with
  | [] => None
  | c :: rest =>
      if c =? backslash then
        match rest with
        | d :: rest' => if is_special d then read_literal depth rest' (d :: acc) else None
        | [] => None
        end
      else if c =? lparen then read_literal (S depth) rest (c :: acc)
      else if c =? rparen then
        match depth with
        | O => Some (rev acc, rest)
        | S depth' => read_literal depth' rest (c :: acc)
        end
      else read_literal depth rest (c :: acc)
  end.

(** The number of backslashes and parentheses of a text. *)
Definition count_special (s : jsstring) : nat :=
  length (filter is_special s).

Definition is_byte (b : Z) : Prop := 0 <= b < 256.

(* ================================================================== *)
(** ** The client side: downloading a certificate *)
(* ================================================================== *)

(** The alphabet of base64 read back. *)
Definition b64_index (c : Z) : option Z :=
  if (65 <=? c) && (c <=? 90) then Some (c - 65)
  else if (97 <=? c) && (c <=? 122) then Some (c - 71)
  else if (48 <=? c) && (c <=? 57) then Some (c + 4)
  else if c =? 43 then Some 62
  else if c =? 47 then Some 63
  else None.

Fixpoint b64_indices (s : jsstring) : option (list Z) :=
  match s with
  | [] => Some []
  | c :: rest =>
      match b64_index c, b64_indices rest with
      | Some i, Some l => Some (i :: l)
      | _, _ => None
      end
  end.

(** Four groups of six bits give three bytes; of a last incomplete group,
    the bits that do not fill a byte are dropped. *)
Fixpoint decode_sextets (l : list Z) : list Z :=
  match l with
  | a :: b :: c :: d :: rest =>
      (a * 4 + b / 16) :: (b mod 16 * 16 + c / 4) :: (c mod 4 * 64 + d)
      :: decode_sextets rest
  | [a; b; c] => [a * 4 + b / 16; b mod 16 * 16 + c / 4]
  | [a; b] => [a * 4 + b / 16]
  | _ => []
  end.

Definition is_ascii_whitespace (c : Z) : bool :=
  (c =? 9) || (c =? 10) || (c =? 12) || (c =? 13) || (c =? 32).

(** A text whose length is a multiple of four loses one or two closing
    [=]. *)
Definition strip_padding (s : jsstring) : jsstring :=
  if (length s mod 4 =? 0)%nat then
    match rev s with
    | a :: b :: r =>
        if a =? 61 then (if b =? 61 then rev r else rev (b :: r)) else s
    | [a] => if a =? 61 then [] else s
    | [] => s
    end
  else s.

(** [atob (data)]: the characters whose codes are the bytes that [data]
    encodes; [None] when it throws. *)
Definition atob (data : jsstring) : option jsstring :=
  let s := strip_padding (filter (fun c => negb (is_ascii_whitespace c)) data) in
  if (length s mod 4 =? 1)%nat then None
  else option_map decode_sextets (b64_indices s).

(** The fields of a [CertificateEntry] that [downloadPDF] reads; the last
    two are optional. *)
Record client_certificate := {
  participant_name : jsstring;
  cert_pdf_base64 : option jsstring;
  cert_filename : option jsstring
}.

Inductive download :=
| NoDownload
| DownloadThrows
| Download (bytes : Buffer) (file : jsstring).

(** [cert.filename || `Certificate_${cert.participant_name}.pdf`] *)
Definition download_name (cert : client_certificate) : jsstring :=
  match cert_filename cert with
  | Some (c :: f) => c :: f
  | _ => lit "Certificate_" ++ participant_name cert ++ lit ".pdf"
  end.

(** [downloadPDF]: the bytes put in the [Blob] and the name given to the
    download. *)
Definition downloadPDF (cert : client_certificate) : download :=
  match cert_pdf_base64 cert with
  | None | Some [] => NoDownload
  | Some (c :: s) =>
      match atob (c :: s) with
      | None => DownloadThrows
      | Some byteCharacters =>
          Download (map (fun code => code mod 256) byteCharacters) (download_name cert)
      end
  end.

(** The values of the six-bit groups of a buffer, and the padding that
    completes its base64 text. *)
Fixpoint sextet_values (bytes : Buffer) : list Z :=
  match bytes with
  | [] => []
  | [a] => [a / 4; a mod 4 * 16]
  | [a; b] => [a / 4; a mod 4 * 16 + b / 16; b mod 16 * 4]
  | a :: b :: c :: rest =>
      a / 4 :: (a mod 4 * 16 + b / 16) :: (b mod 16 * 4 + c / 64) :: c mod 64
      :: sextet_values rest
  end.

Fixpoint b64_padding (bytes : Buffer) : jsstring :=
  match bytes with
  | [] => []
  | [_] => [61; 61]
  | [_; _] => [61]
  | _ :: _ :: _ :: rest => b64_padding rest
  end.

Definition is_sextet (i : Z) : Prop := 0 <= i < 64.

(* ================================================================== *)
(** ** Helpers for statements about the handler *)
(* ================================================================== *)



(** A property that holds something other than a string and is not
    replaced by a default. *)
Definition truthy_non_string (v : value) : Prop :=
  truthy v = true /\ forall s, v <> VString s.

(** The characters of a sanitized name. *)
Definition is_name_char (c : Z) : bool := is_alnum c || (c =? 95).

(** The decimal text of [q / 4]: its sign, its integer part and the
    fraction [.25], [.5] or [.75]. *)
Definition quarters_to_string (q : Z) : jsstring :=
  (if q <? 0 then lit "-" else [])
  ++ nat_digits (Z.abs q / 4)
  ++ (if Z.abs q mod 4 =? 0 then []
      else if Z.abs q mod 4 =? 1 then lit ".25"
      else if Z.abs q mod 4 =? 2 then lit ".5"
      else lit ".75").

(* ================================================================== *)
(** ** The client side: attaching the PDFs to the certificates *)
(* ================================================================== *)

(** [a === b] for two values parsed from two different JSON texts: equal
    primitives are equal, an object or an array of one text is never the
    object or array of the other. *)
Definition strict_equal (a b : value) : bool :=
  match a, b with
  | VUndefined, VUndefined => true
  | VNull, VNull => true
  | VBool x, VBool y => Bool.eqb x y
  | VNumber x, VNumber y => Qeq_bool x y
  | VString x, VString y => unit_eqb_list x y
  | _, _ => false
  end.

(** A certificate of the generation agent, as an object: the four
    properties the merge reads or writes, and its other properties. *)
Record agent_certificate := {
  ac_certificate_id : value;
  ac_email : value;
  ac_pdf_base64 : value;
  ac_filename : value;
  ac_other : list (jsstring * value)
}.

(** An entry of the answer of the handler, as the client reads it. *)
Record pdf_entry := {
  pe_certificate_id : value;
  pe_email : value;
  pe_pdf_base64 : value;
  pe_filename : value
}.

(** [p.certificate_id === cert.certificate_id || p.email === cert.email] *)
Definition pdf_matches (cert : agent_certificate) (p : pdf_entry) : bool :=
  strict_equal (pe_certificate_id p) (ac_certificate_id cert)
  || strict_equal (pe_email p) (ac_email cert).

(** [{ ...cert, pdf_base64: pdfMatch.pdf_base64, filename: pdfMatch.filename }] *)
Definition with_pdf (cert : agent_certificate) (p : pdf_entry) : agent_certificate :=
  {| ac_certificate_id := ac_certificate_id cert;
     ac_email := ac_email cert;
     ac_pdf_base64 := pe_pdf_base64 p;
     ac_filename := pe_filename p;
     ac_other := ac_other cert |}.

(** The body of [parsed.certificates.map (cert => ...)] in
    [handleGenerate]. *)
Definition attach_pdf (pdfs : list pdf_entry) (cert : agent_certificate)
    : agent_certificate :=
  match find (pdf_matches cert) pdfs with
  | Some pdfMatch => with_pdf cert pdfMatch
  | None => cert
  end.

Definition attach_pdfs (certificates : list agent_certificate)
    (pdfs : list pdf_entry) : list agent_certificate :=
  map (attach_pdf pdfs) certificates.

(** What the handler sends for a participant, as the client reads it back:
    a property that was [undefined] is absent from the JSON text and reads
    as [undefined] again. *)
Definition pdf_entry_of (e : certificate_entry) : pdf_entry :=
  {| pe_certificate_id := entry_certificate_id e;
     pe_email := entry_email e;
     pe_pdf_base64 := VString (pdf_base64 e);
     pe_filename := VString (filename e) |}.

(* ================================================================== *)
(** ** The client side: reading and writing CSV *)
(* ================================================================== *)

(** [s.split (sep)] for a separator of one character. *)
Fixpoint split_on (sep : Z) (s : jsstring) : list jsstring :=
  match s with
  | [] => [[]]
  | c :: rest =>
      if c =? sep then [] :: split_on sep rest
      else match split_on sep rest with
           | piece :: pieces => (c :: piece) :: pieces
           | [] => [[c]]
           end
  end.

(** White space and line terminators of ECMAScript, which [trim] removes. *)
Definition is_js_space (c : Z) : bool :=
  ((9 <=? c) && (c <=? 13)) || (c =? 32) || (c =? 0xA0) || (c =? 0x1680)
  || ((0x2000 <=? c) && (c <=? 0x200A)) || (c =? 0x2028) || (c =? 0x2029)
  || (c =? 0x202F) || (c =? 0x205F) || (c =? 0x3000) || (c =? 0xFEFF).

Fixpoint trim_start (s : jsstring) : jsstring :=
  match s with
  | [] => []
  | c :: rest => if is_js_space c then trim_start rest else s
  end.

(** [s.trim ()] *)
Definition trim (s : jsstring) : jsstring :=
  rev (trim_start (rev (trim_start s))).

Definition quote : Z := 34.

(** The [replace] of [parseCSV], whose pattern is a quotation mark at the
    start or at the end: a mark at the start is removed, and a mark at the
    end when it is another character. *)
Definition strip_quotes (s : jsstring) : jsstring :=
  let s1 := match s with
            | c :: rest => if c =? quote then rest else s
            | [] => s
            end in
  match rev s1 with
  | c :: r => if c =? quote then rev r else s1
  | [] => s1
  end.

(** One cell of [parseCSV]: trimmed, then without its quotation marks. *)
Definition cell (s : jsstring) : jsstring := strip_quotes (trim s).

(** A row object: its own properties with their values. Only lookups by
    key are made on it, so the order that [Object.keys] would give to keys
    that are array indices is not modelled. *)
Definition csv_row := list (jsstring * jsstring).

Fixpoint row_get (r : csv_row) (key : jsstring) : option jsstring :=
  match r with
  | [] => None
  | (k, v) :: rest => if unit_eqb_list k key then Some v else row_get rest key
  end.

Fixpoint row_set (r : csv_row) (key v : jsstring) : csv_row :=
  match r with
  | [] => [(key, v)]
  | (k, w) :: rest =>
      if unit_eqb_list k key then (k, v) :: rest else (k, w) :: row_set rest key v
  end.

(** [row[h] = v] on an object literal, for a string [v]: the key
    [__proto__] names the setter of [Object.prototype], which ignores a
    string; any other key becomes or stays an own property. *)
Definition row_assign (r : csv_row) (key v : jsstring) : csv_row :=
  if unit_eqb_list key (lit "__proto__") then r else row_set r key v.

(** [headers.forEach ((h, i) => { row[h] = values[i] || '' })], from the
    index [i] on. *)
Fixpoint fill_row (headers : list jsstring) (i : nat) (values : list jsstring)
    (r : csv_row) : csv_row :=
  match headers with
  | [] => r
  | h :: rest => fill_row rest (S i) values (row_assign r h (nth i values []))
  end.

Definition line_cells (line : jsstring) : list jsstring :=
  map cell (split_on 44 line).

Definition is_blank (line : jsstring) : bool :=
  match trim line with
  | [] => true
  | _ :: _ => false
  end.

Record csv_table := {
  csv_headers : list jsstring;
  csv_rows : list csv_row
}.

(** [text.split ('\n').filter (line => line.trim ())] *)
Definition nonblank_lines (text : jsstring) : list jsstring :=
  filter (fun line => negb (is_blank line)) (split_on 10 text).

Definition parseCSV (text : jsstring) : csv_table :=
  let lines := nonblank_lines text in
  match lines with
  | [] => {| csv_headers := []; csv_rows := [] |}
  | first :: rest =>
      let headers := line_cells first in
      {| csv_headers := headers;
         csv_rows := map (fun line => fill_row headers 0 (line_cells line) []) rest |}
  end.

(** The field that [exportToCSV] writes for the text [s]: every quotation
    mark written twice, the whole between two quotation marks. *)
Definition csv_field (s : jsstring) : jsstring :=
  [quote] ++ replace_all quote [quote; quote] s ++ [quote].

(** The text that [exportToCSV] puts in the file, for rows given by their
    keys and the texts of their values in the order of [Object.keys];
    [None] when it returns at once. *)
Definition row_line (row : list (jsstring * jsstring)) : jsstring :=
  join (lit ",") (map (fun kv => csv_field (snd kv)) row).

Definition exportToCSV_text (data : list (list (jsstring * jsstring)))
    : option jsstring :=
  match data with
  | [] => None
  | first :: _ =>
      let headers := join (lit ",") (map fst first) in
      let rows := map row_line data in
      Some (join nl (headers :: rows))
  end.

(** A reader of one quoted field, after its opening quote: two quotes stand
    for one, a single quote ends the field. It returns the text of the
    field and what follows the closing quote. *)
Fixpoint read_quoted (s acc : jsstring) : option (jsstring * jsstring) :=
  match s with
  | [] => None
  | c :: rest =>
      if c =? quote then
        match rest with
        | d :: rest' =>
            if d =? quote then read_quoted rest' (quote :: acc)
            else Some (rev acc, rest)
        | [] => Some (rev acc, [])
        end
      else read_quoted rest (c :: acc)
  end.

(** Two lines that differ by one more character [x] at the end at most. *)
Definition same_but_end (x : Z) (a b : jsstring) : Prop := a = b \/ a = b ++ [x].

Definition has_unit (c : Z) (s : jsstring) : bool := existsb (Z.eqb c) s.

(** A key that [parseCSV] reads back as it is from a line of keys: not
    empty, without comma or line feed, unchanged by [cell], and not
    [__proto__]. *)
Definition plain_key (k : jsstring) : bool :=
  negb (unit_eqb_list k []) && negb (has_unit 44 k) && negb (has_unit 10 k)
  && unit_eqb_list (trim k) k && unit_eqb_list (strip_quotes k) k
  && negb (unit_eqb_list k (lit "__proto__")).

(** A value whose quoted field [parseCSV] reads back as it is: without
    comma, line feed or quotation mark. *)
Definition plain_value (v : jsstring) : bool :=
  negb (has_unit 44 v) && negb (has_unit 10 v) && negb (has_unit quote v).

Definition read_field (s : jsstring) : option (jsstring * jsstring) :=
  match s with
  | c :: rest => if c =? quote then read_quoted rest [] else None
  | [] => None
  end.

Definition starts_with (c : Z) (s : jsstring) : bool :=
  match s with
  | d :: _ => d =? c
  | [] => false
  end.

(* ================================================================== *)
(** ** Properties of the UTF-8 encoder *)
(* ================================================================== *)

Lemma is_ascii_not_low c : is_ascii c = true -> is_low_surrogate c = false.
Proof.
  unfold is_ascii, is_low_surrogate. intros H.
  apply andb_true_iff in H. destruct H as [_ H]. apply Z.ltb_lt in H.
  apply andb_false_iff. left. apply Z.leb_gt. lia.
Qed.

Lemma is_ascii_lt c : is_ascii c = true -> (c <? 128) = true.
Proof.
  unfold is_ascii. intros H. apply andb_true_iff in H. tauto.
Qed.

Lemma utf8_encode_ascii_app a b :
  ascii_only a = true -> utf8_encode (a ++ b) = a ++ utf8_encode b.
Proof.
  induction a as [|c a IH]; intros H; [reflexivity|].
  cbn [ascii_only forallb] in H. apply andb_true_iff in H. destruct H as [Hc Ha].
  cbn [app utf8_encode]. rewrite (is_ascii_lt c Hc). f_equal. apply IH, Ha.
Qed.

Lemma utf8_encode_ascii a : ascii_only a = true -> utf8_encode a = a.
Proof.
  intros H. rewrite <- (app_nil_r a) at 1.
  rewrite utf8_encode_ascii_app by exact H. cbn. apply app_nil_r.
Qed.

Lemma utf8_encode_app_bounded n :
  forall a b, (length a <= n)%nat -> safe_head b = true ->
  utf8_encode (a ++ b) = utf8_encode a ++ utf8_encode b.
Proof.
  induction n as [|n IH]; intros a b Hlen Hb.
  - destruct a; [reflexivity | cbn in Hlen; lia].
  - destruct a as [|c a]; [reflexivity|]. cbn [length] in Hlen.
    cbn [app utf8_encode].
    destruct (c <? 128); [rewrite IH by (auto; lia); reflexivity|].
    destruct (c <? 2048); [rewrite IH by (auto; lia); reflexivity|].
    destruct (is_high_surrogate c).
    + destruct a as [|d a].
      * cbn [app]. destruct b as [|e b]; [reflexivity|].
        cbn [safe_head] in Hb. apply negb_true_iff in Hb. rewrite Hb. reflexivity.
      * cbn [app length] in *. destruct (is_low_surrogate d).
        -- rewrite IH by (auto; lia). reflexivity.
        -- change (d :: a ++ b) with ((d :: a) ++ b).
           rewrite (IH (d :: a) b) by (auto; cbn [length]; lia). reflexivity.
    + destruct (is_low_surrogate c); rewrite IH by (auto; lia); reflexivity.
Qed.

(** The encoder distributes over a concatenation whose right part does not
    begin with a low surrogate. (It does not in general: a high surrogate
    ending the left part pairs with a low one beginning the right part.) *)
Lemma utf8_encode_app a b :
  safe_head b = true -> utf8_encode (a ++ b) = utf8_encode a ++ utf8_encode b.
Proof.
  intros Hb. apply (utf8_encode_app_bounded (length a)); [lia | exact Hb].
Qed.

Lemma utf8_encode_app_not_general :
  utf8_encode ([0xD83D] ++ [0xDE00]) <> utf8_encode [0xD83D] ++ utf8_encode [0xDE00].
Proof. discriminate. Qed.

(* ================================================================== *)
(** ** Properties of the number renderings *)
(* ================================================================== *)

Lemma is_digit_ascii c : is_digit c = true -> is_ascii c = true.
Proof.
  unfold is_digit, is_ascii. intros H. apply andb_true_iff in H.
  destruct H as [H1 H2]. apply Z.leb_le in H1, H2.
  apply andb_true_iff. split; [apply Z.leb_le | apply Z.ltb_lt]; lia.
Qed.

Lemma forallb_digit_ascii s : forallb is_digit s = true -> ascii_only s = true.
Proof.
  unfold ascii_only. rewrite !forallb_forall. intros H c Hc.
  apply is_digit_ascii, H, Hc.
Qed.

Lemma is_digit_digit_unit d : 0 <= d <= 9 -> is_digit (digit_unit d) = true.
Proof.
  intros H. unfold is_digit, digit_unit.
  apply andb_true_iff. split; apply Z.leb_le; lia.
Qed.

Lemma digits_aux_digits fuel : forall n acc,
  forallb is_digit acc = true -> forallb is_digit (digits_aux fuel n acc) = true.
Proof.
  induction fuel as [|fuel IH]; intros n acc Hacc; cbn [digits_aux].
  - cbn [forallb]. rewrite Hacc, is_digit_digit_unit; [reflexivity|].
    pose proof (Z.mod_pos_bound n 10). lia.
  - assert (Hd : forallb is_digit (digit_unit (n mod 10) :: acc) = true).
    { cbn [forallb]. rewrite Hacc, is_digit_digit_unit; [reflexivity|].
      pose proof (Z.mod_pos_bound n 10). lia. }
    destruct (n <? 10); [exact Hd | apply IH, Hd].
Qed.

Lemma nat_digits_digits n : forallb is_digit (nat_digits n) = true.
Proof. apply digits_aux_digits. reflexivity. Qed.

Lemma digits_aux_nonempty fuel : forall n acc, digits_aux fuel n acc <> [].
Proof.
  induction fuel as [|fuel IH]; intros n acc; cbn [digits_aux].
  - discriminate.
  - destruct (n <? 10); [discriminate | apply IH].
Qed.

Lemma nat_digits_ascii n : ascii_only (nat_digits n) = true.
Proof. apply forallb_digit_ascii, nat_digits_digits. Qed.

Lemma ascii_only_app a b :
  ascii_only (a ++ b) = ascii_only a && ascii_only b.
Proof. apply forallb_app. Qed.

Lemma int_to_string_ascii n : ascii_only (int_to_string n) = true.
Proof.
  unfold int_to_string. destruct (n <? 0).
  - rewrite ascii_only_app, nat_digits_ascii. reflexivity.
  - apply nat_digits_ascii.
Qed.

(** Reading digits back. *)
Lemma read_digits_acc s : forall acc,
  read_digits acc s = acc * 10 ^ Z.of_nat (length s) + read_digits 0 s.
Proof.
  unfold read_digits.
  induction s as [|c s IH]; intros acc.
  - cbn. lia.
  - cbn [fold_left length]. rewrite IH, (IH (10 * 0 + (c - 48))).
    rewrite Nat2Z.inj_succ, Z.pow_succ_r by lia. ring.
Qed.

Lemma read_digits_app a b acc :
  read_digits acc (a ++ b) = read_digits (read_digits acc a) b.
Proof. unfold read_digits. apply fold_left_app. Qed.

Lemma read_digits_aux fuel : forall n acc,
  0 <= n < 2 ^ (Z.of_nat fuel + 1) ->
  read_decimal (digits_aux fuel n acc)
  = n * 10 ^ Z.of_nat (length acc) + read_decimal acc.
Proof.
  unfold read_decimal.
  induction fuel as [|fuel IH]; intros n acc Hn.
  - cbn [digits_aux]. change (2 ^ (Z.of_nat 0 + 1)) with 2 in Hn.
    rewrite Z.mod_small by lia.
    change (digit_unit n :: acc) with ([digit_unit n] ++ acc).
    rewrite read_digits_app, read_digits_acc.
    unfold digit_unit. cbn [read_digits fold_left]. f_equal. lia.
  - cbn [digits_aux]. destruct (n <? 10) eqn:E.
    + apply Z.ltb_lt in E. rewrite Z.mod_small by lia.
      change (digit_unit n :: acc) with ([digit_unit n] ++ acc).
      rewrite read_digits_app, read_digits_acc.
      unfold digit_unit. cbn [read_digits fold_left]. f_equal. lia.
    + apply Z.ltb_ge in E. rewrite IH.
      * cbn [length]. rewrite Nat2Z.inj_succ, Z.pow_succ_r by lia.
        change (digit_unit (n mod 10) :: acc) with ([digit_unit (n mod 10)] ++ acc).
        rewrite read_digits_app, (read_digits_acc acc).
        unfold digit_unit. cbn [read_digits fold_left].
        pose proof (Z.div_mod n 10 ltac:(lia)) as Hdm.
        set (q := n / 10) in *. set (m := n mod 10) in *.
        set (p := 10 ^ Z.of_nat (length acc)).
        clearbody q m p. rewrite Hdm. ring.
      * rewrite Nat2Z.inj_succ in Hn.
        replace (Z.succ (Z.of_nat fuel) + 1) with (Z.succ (Z.of_nat fuel + 1)) in Hn by lia.
        rewrite Z.pow_succ_r in Hn by lia.
        split; [apply Z.div_pos; lia|].
        apply Z.div_lt_upper_bound; lia.
Qed.

Lemma log2_fuel n : 0 <= n -> 0 <= n < 2 ^ (Z.of_nat (Z.to_nat (Z.log2 n)) + 1).
Proof.
  intros Hn. rewrite Z2Nat.id by apply Z.log2_nonneg.
  destruct (Z.eq_dec n 0) as [->|Hz]; [cbn; lia|].
  pose proof (Z.log2_spec n ltac:(lia)) as H.
  replace (Z.log2 n + 1) with (Z.succ (Z.log2 n)) by lia. lia.
Qed.

(** The digits of [n] read back as [n]. *)
Lemma read_decimal_nat_digits n : 0 <= n -> read_decimal (nat_digits n) = n.
Proof.
  intros Hn. unfold nat_digits. rewrite read_digits_aux by (apply log2_fuel, Hn).
  cbn. lia.
Qed.

Lemma digits_aux_length fuel : forall n acc k,
  0 <= n < 10 ^ Z.of_nat (S k) ->
  (length (digits_aux fuel n acc) <= S k + length acc)%nat.
Proof.
  induction fuel as [|fuel IH]; intros n acc k Hn; cbn [digits_aux].
  - cbn [length]. lia.
  - destruct (n <? 10) eqn:E; [cbn [length]; lia|].
    apply Z.ltb_ge in E.
    destruct k as [|k]; [change (10 ^ Z.of_nat 1) with 10 in Hn; lia|].
    specialize (IH (n / 10) (digit_unit (n mod 10) :: acc) k).
    cbn [length] in IH |- *.
    assert (0 <= n / 10 < 10 ^ Z.of_nat (S k)).
    { rewrite (Nat2Z.inj_succ (S k)), Z.pow_succ_r in Hn by lia.
      split; [apply Z.div_pos; lia | apply Z.div_lt_upper_bound; lia]. }
    specialize (IH H). lia.
Qed.

(** A natural number below [10^10] has at most ten digits. *)
Lemma nat_digits_length_10 n :
  0 <= n < 10 ^ 10 -> (length (nat_digits n) <= 10)%nat.
Proof.
  intros Hn. pose proof (digits_aux_length (Z.to_nat (Z.log2 n)) n [] 9) as H.
  cbn [length] in H. unfold nat_digits.
  change (10 ^ Z.of_nat 10) with (10 ^ 10) in H. specialize (H Hn). lia.
Qed.

Lemma int_to_string_nonneg n : 0 <= n -> int_to_string n = nat_digits n.
Proof.
  intros Hn. unfold int_to_string.
  destruct (n <? 0) eqn:E; [apply Z.ltb_lt in E; lia | reflexivity].
Qed.

Lemma padStart_length n pad s :
  (length s <= n)%nat -> length (padStart n pad s) = n.
Proof.
  intros H. unfold padStart. rewrite length_app, repeat_length. lia.
Qed.

Lemma read_digits_zeros k : forall s, read_decimal (repeat 48 k ++ s) = read_decimal s.
Proof.
  unfold read_decimal. induction k as [|k IH]; intros s; [reflexivity|].
  cbn [repeat app]. unfold read_digits in *. cbn [fold_left].
  change (10 * 0 + (48 - 48)) with 0. apply IH.
Qed.

(** Zero padding does not change the value read. *)
Lemma read_decimal_padStart n s :
  read_decimal (padStart n 48 s) = read_decimal s.
Proof. apply read_digits_zeros. Qed.

Lemma padStart_digits n s :
  forallb is_digit s = true -> forallb is_digit (padStart n 48 s) = true.
Proof.
  intros H. unfold padStart. rewrite forallb_app, H, andb_true_r.
  apply forallb_forall. intros c Hc. apply repeat_spec in Hc. subst c. reflexivity.
Qed.

(* ================================================================== *)
(** ** The object list and the assembly loop *)
(* ================================================================== *)

Lemma push_objects_fold bodies : forall st,
  fold_left push_object bodies st
  = {| objects := objects st ++ numbered (objNum st) bodies;
       objNum := objNum st + Z.of_nat (length bodies) |}.
Proof.
  induction bodies as [|b bodies IH]; intros st.
  - cbn. rewrite app_nil_r, Z.add_0_r. destruct st; reflexivity.
  - cbn [fold_left]. rewrite IH. cbn [push_object objects objNum numbered length].
    rewrite <- app_assoc. cbn [app]. f_equal. lia.
Qed.

Lemma build_objects_fold data :
  build_objects data
  = fold_left push_object (object_bodies data) {| objects := []; objNum := 1 |}.
Proof. reflexivity. Qed.

Lemma build_objects_numbered data :
  objects (build_objects data) = numbered 1 (object_bodies data).
Proof. rewrite build_objects_fold, push_objects_fold. reflexivity. Qed.

Lemma build_objects_objNum data : objNum (build_objects data) = 8.
Proof. rewrite build_objects_fold, push_objects_fold. reflexivity. Qed.

Lemma numbered_length bodies : forall n, length (numbered n bodies) = length bodies.
Proof.
  induction bodies as [|b bodies IH]; intros n; cbn; [reflexivity | now rewrite IH].
Qed.

Lemma numbered_nth bodies : forall n k body,
  nth_error bodies k = Some body ->
  nth_error (numbered n bodies) k
  = Some (int_to_string (n + Z.of_nat k) ++ lit " 0 obj" ++ nl ++ body).
Proof.
  induction bodies as [|b bodies IH]; intros n k body H.
  - destruct k; discriminate.
  - destruct k as [|k]; cbn [nth_error numbered] in *.
    + injection H as ->. rewrite Z.add_0_r. reflexivity.
    + rewrite (IH (n + 1) k body H).
      replace (n + Z.of_nat (S k)) with (n + 1 + Z.of_nat k) by lia. reflexivity.
Qed.

Lemma layout_app a b : layout (a ++ b) = layout a ++ layout b.
Proof. unfold layout. rewrite map_app. apply concat_app. Qed.

Lemma layout_cons obj objs : layout (obj :: objs) = obj ++ nl ++ layout objs.
Proof. unfold layout. cbn. rewrite <- app_assoc. reflexivity. Qed.

Lemma assemble_fold objs : forall a,
  fold_left assemble_step objs a
  = {| pdf := pdf a ++ layout objs;
       offsets := offsets a ++ offsets_from (pdf a) objs |}.
Proof.
  induction objs as [|obj objs IH]; intros a.
  - cbn. rewrite !app_nil_r. destruct a; reflexivity.
  - cbn [fold_left]. rewrite IH. cbn [assemble_step pdf offsets offsets_from].
    rewrite layout_cons, <- !app_assoc. reflexivity.
Qed.

Lemma assembled_pdf data :
  pdf (assembled data) = header ++ layout (objects (build_objects data)).
Proof. unfold assembled, assemble_objects. rewrite assemble_fold. reflexivity. Qed.

Lemma assembled_offsets data :
  object_offsets data = offsets_from header (objects (build_objects data)).
Proof.
  unfold object_offsets, assembled, assemble_objects. rewrite assemble_fold. reflexivity.
Qed.

Lemma offsets_from_length objs : forall p, length (offsets_from p objs) = length objs.
Proof.
  induction objs as [|obj objs IH]; intros p; cbn; [reflexivity | now rewrite IH].
Qed.

(** The loop invariant: the [k]-th recorded offset is the byte length of the
    text written before the [k]-th object. *)
Lemma offsets_from_nth objs : forall p k,
  (k < length objs)%nat ->
  nth_error (offsets_from p objs) k = Some (byteLength (p ++ layout (firstn k objs))).
Proof.
  induction objs as [|obj objs IH]; intros p k Hk; cbn [length] in Hk; [lia|].
  destruct k as [|k]; cbn [offsets_from nth_error firstn].
  - cbn. rewrite app_nil_r. reflexivity.
  - rewrite IH by lia. rewrite layout_cons, <- !app_assoc. reflexivity.
Qed.

Lemma xref_entries_fold offs : forall p,
  fold_left (fun pdf offset => pdf ++ xref_entry offset) offs p
  = p ++ concat (map xref_entry offs).
Proof.
  induction offs as [|o offs IH]; intros p; cbn [fold_left map concat].
  - now rewrite app_nil_r.
  - rewrite IH, <- app_assoc. reflexivity.
Qed.

(** The final text: header, objects, cross-reference table, trailer. *)
Lemma pdf_text_layout data :
  pdf_text data
  = header ++ layout (objects (build_objects data))
    ++ xref_head 8 ++ concat (map xref_entry (object_offsets data))
    ++ trailer 8 (xrefOffset data).
Proof.
  unfold pdf_text. rewrite xref_entries_fold, build_objects_objNum.
  fold (object_offsets data). rewrite assembled_pdf, <- !app_assoc. reflexivity.
Qed.

(* ================================================================== *)
(** ** The bytes of the output *)
(* ================================================================== *)

Lemma ascii_only_concat l :
  Forall (fun s => ascii_only s = true) l -> ascii_only (concat l) = true.
Proof.
  induction 1 as [|s l Hs _ IH]; [reflexivity|].
  cbn [concat]. rewrite ascii_only_app, Hs, IH. reflexivity.
Qed.

Lemma ascii_only_repeat c n : is_ascii c = true -> ascii_only (repeat c n) = true.
Proof.
  intros Hc. apply forallb_forall. intros x Hx. apply repeat_spec in Hx. now subst.
Qed.

Lemma padStart_ascii n pad s :
  is_ascii pad = true -> ascii_only s = true -> ascii_only (padStart n pad s) = true.
Proof.
  intros Hp Hs. unfold padStart.
  rewrite ascii_only_app, ascii_only_repeat, Hs by exact Hp. reflexivity.
Qed.

Lemma xref_entry_ascii o : ascii_only (xref_entry o) = true.
Proof.
  unfold xref_entry. rewrite ascii_only_app, padStart_ascii; [reflexivity|reflexivity|].
  apply int_to_string_ascii.
Qed.

Lemma xref_section_ascii data : ascii_only (xref_section data) = true.
Proof.
  unfold xref_section. rewrite ascii_only_app. apply andb_true_iff. split; [reflexivity|].
  apply ascii_only_concat, Forall_map, Forall_forall. intros o _. apply xref_entry_ascii.
Qed.

Lemma trailer_ascii count xo : ascii_only (trailer count xo) = true.
Proof.
  unfold trailer.
  repeat (rewrite ascii_only_app; apply andb_true_iff; split);
    solve [reflexivity | apply int_to_string_ascii].
Qed.

Lemma utf8_encode_nl_app s : utf8_encode (nl ++ s) = nl ++ utf8_encode s.
Proof. reflexivity. Qed.

(** Every object is followed by a newline, so the encoder never pairs a
    code unit of one object with a code unit of the next. *)
Lemma utf8_encode_layout objs tail :
  utf8_encode (layout objs ++ tail) = encoded_layout objs ++ utf8_encode tail.
Proof.
  induction objs as [|obj objs IH]; [reflexivity|].
  rewrite layout_cons, <- !app_assoc.
  rewrite utf8_encode_app by reflexivity.
  change (utf8_encode (nl ++ layout objs ++ tail)) with (nl ++ utf8_encode (layout objs ++ tail)).
  rewrite IH. unfold encoded_layout. cbn [map concat]. rewrite <- !app_assoc. reflexivity.
Qed.

Lemma utf8_encode_header_layout objs tail :
  utf8_encode (header ++ layout objs ++ tail)
  = header ++ encoded_layout objs ++ utf8_encode tail.
Proof.
  rewrite utf8_encode_ascii_app by reflexivity. now rewrite utf8_encode_layout.
Qed.

Lemma encoded_layout_app a b :
  encoded_layout (a ++ b) = encoded_layout a ++ encoded_layout b.
Proof. unfold encoded_layout. rewrite map_app. apply concat_app. Qed.

(** The output: header, encoded objects, then the ASCII cross-reference
    section and trailer. *)
Lemma buffer_layout data :
  generateCertificatePDF data
  = header ++ encoded_layout (objects (build_objects data))
    ++ xref_section data ++ trailer 8 (xrefOffset data).
Proof.
  unfold generateCertificatePDF. rewrite pdf_text_layout.
  rewrite utf8_encode_header_layout. do 2 f_equal.
  rewrite app_assoc. fold (xref_section data).
  rewrite utf8_encode_ascii_app by apply xref_section_ascii.
  rewrite utf8_encode_ascii by apply trailer_ascii. reflexivity.
Qed.

Lemma byteLength_header_layout objs :
  byteLength (header ++ layout objs)
  = Z.of_nat (length (header ++ encoded_layout objs)).
Proof.
  unfold byteLength. rewrite <- (app_nil_r (layout objs)).
  rewrite utf8_encode_header_layout. cbn [utf8_encode]. now rewrite app_nil_r.
Qed.

Lemma xrefOffset_bytes data :
  xrefOffset data
  = Z.of_nat (length (header ++ encoded_layout (objects (build_objects data)))).
Proof. unfold xrefOffset. rewrite assembled_pdf. apply byteLength_header_layout. Qed.

Lemma object_offsets_length data : length (object_offsets data) = 7%nat.
Proof.
  rewrite assembled_offsets, offsets_from_length, build_objects_numbered, numbered_length.
  reflexivity.
Qed.

Lemma objects_length data : length (objects (build_objects data)) = 7%nat.
Proof. rewrite build_objects_numbered, numbered_length. reflexivity. Qed.

(** The [k]-th offset is the number of bytes that precede the [k]-th object
    in the output. *)
Lemma object_offset_bytes data k :
  (k < 7)%nat ->
  nth_error (object_offsets data) k
  = Some (Z.of_nat (length (header
            ++ encoded_layout (firstn k (objects (build_objects data)))))).
Proof.
  intros Hk. rewrite assembled_offsets, offsets_from_nth by (rewrite objects_length; exact Hk).
  now rewrite byteLength_header_layout.
Qed.

Lemma skipn_length_app {A} (a b : list A) : skipn (length a) (a ++ b) = b.
Proof. induction a; cbn; auto. Qed.

Lemma firstn_length_app {A} (a b : list A) : firstn (length a) (a ++ b) = a.
Proof. induction a; cbn; [now destruct b | now f_equal]. Qed.

Lemma bytes_at_app (pre s post : Buffer) :
  bytes_at (pre ++ s ++ post) (Z.of_nat (length pre)) (length s) = s.
Proof.
  unfold bytes_at. rewrite Nat2Z.id, skipn_length_app. apply firstn_length_app.
Qed.

(** The output split at the [k]-th object. *)
Lemma buffer_split_at_object data k obj :
  nth_error (objects (build_objects data)) k = Some obj ->
  generateCertificatePDF data
  = (header ++ encoded_layout (firstn k (objects (build_objects data))))
    ++ utf8_encode obj ++ nl
    ++ encoded_layout (skipn (S k) (objects (build_objects data)))
    ++ xref_section data ++ trailer 8 (xrefOffset data).
Proof.
  intros H. rewrite buffer_layout.
  set (objs := objects (build_objects data)) in *.
  assert (Hs : objs = firstn k objs ++ obj :: skipn (S k) objs).
  { clearbody objs. revert k H. induction objs as [|x objs IH]; intros [|k] H;
      try discriminate; cbn in *.
    - now injection H as ->.
    - f_equal. apply IH, H. }
  rewrite Hs at 1. rewrite encoded_layout_app. unfold encoded_layout at 2.
  cbn [map concat]. fold (encoded_layout (skipn (S k) objs)).
  rewrite <- !app_assoc. reflexivity.
Qed.

(* ================================================================== *)
(** ** The reader on the output *)
(* ================================================================== *)

Lemma strip_prefix_app p : forall s, strip_prefix p (p ++ s) = Some s.
Proof.
  induction p as [|a p IH]; intros s; cbn; [reflexivity|].
  rewrite Z.eqb_refl. apply IH.
Qed.

Lemma take_digits_app ds : forall s,
  forallb is_digit ds = true ->
  match s with [] => True | c :: _ => is_digit c = false end ->
  take_digits (ds ++ s) = (ds, s).
Proof.
  induction ds as [|d ds IH]; intros s Hds Hs.
  - destruct s as [|c s]; cbn; [reflexivity | now rewrite Hs].
  - cbn [forallb] in Hds. apply andb_true_iff in Hds. destruct Hds as [Hd Hds].
    cbn [app take_digits]. rewrite Hd, IH by assumption. reflexivity.
Qed.

Lemma forallb_rev {A} (f : A -> bool) l : forallb f (rev l) = forallb f l.
Proof.
  induction l as [|x l IH]; [reflexivity|].
  cbn [rev forallb]. rewrite forallb_app, IH. cbn. rewrite andb_true_r. apply andb_comm.
Qed.

Lemma read_startxref_spec X D :
  forallb is_digit D = true -> D <> [] ->
  read_startxref (X ++ (lit "startxref" ++ nl) ++ D ++ nl ++ lit "%%EOF")
  = Some (read_decimal D).
Proof.
  intros HD Hne. unfold read_startxref.
  set (E := nl ++ lit "%%EOF"). set (S := lit "startxref" ++ nl).
  replace (rev (X ++ S ++ D ++ E)) with (rev E ++ rev D ++ rev S ++ rev X)
    by (rewrite !rev_app_distr, <- !app_assoc; reflexivity).
  rewrite strip_prefix_app.
  rewrite take_digits_app; [| now rewrite forallb_rev | reflexivity].
  destruct (rev D) as [|d r] eqn:HrD.
  - apply (f_equal (@rev Z)) in HrD. rewrite rev_involutive in HrD. contradiction.
  - rewrite <- HrD, rev_involutive, strip_prefix_app. reflexivity.
Qed.

Lemma xref_entry_shape o :
  0 <= o < 10 ^ 10 ->
  length (padStart 10 48 (int_to_string o)) = 10%nat
  /\ forallb is_digit (padStart 10 48 (int_to_string o)) = true
  /\ read_decimal (padStart 10 48 (int_to_string o)) = o.
Proof.
  intros Ho. rewrite int_to_string_nonneg by lia. repeat split.
  - apply padStart_length, nat_digits_length_10, Ho.
  - apply padStart_digits, nat_digits_digits.
  - rewrite read_decimal_padStart. apply read_decimal_nat_digits. lia.
Qed.

(** An entry written for an offset below [10^10] is twenty bytes long. *)
Lemma xref_entry_length o : 0 <= o < 10 ^ 10 -> length (xref_entry o) = 20%nat.
Proof.
  intros Ho. unfold xref_entry. destruct (xref_entry_shape o Ho) as (Hl & _).
  rewrite length_app, Hl. reflexivity.
Qed.

Lemma read_xref_line_entry o rest :
  0 <= o < 10 ^ 10 ->
  read_xref_line (xref_entry o ++ rest) = Some (in_use_line o).
Proof.
  intros Ho. destruct (xref_entry_shape o Ho) as (Hl & Hd & Hv).
  unfold read_xref_line, xref_entry. rewrite <- !app_assoc.
  set (P := padStart 10 48 (int_to_string o)) in *. clearbody P.
  set (R := lit " 00000 n " ++ nl ++ rest).
  assert (Hf : firstn 10 (P ++ R) = P) by (rewrite <- Hl; apply firstn_length_app).
  assert (Hs : skipn 10 (P ++ R) = R) by (rewrite <- Hl; apply skipn_length_app).
  rewrite Hf, Hs. subst R.
  cbn [lit list_ascii_of_string map app nl]. rewrite Hl, Hd, Hv. reflexivity.
Qed.

Lemma read_xref_lines_entries offs : forall rest,
  Forall (fun o => 0 <= o < 10 ^ 10) offs ->
  read_xref_lines (length offs) (concat (map xref_entry offs) ++ rest)
  = Some (map in_use_line offs, rest).
Proof.
  induction offs as [|o offs IH]; intros rest H; [reflexivity|].
  inversion H as [|? ? Ho Hoffs]; subst.
  cbn [length map concat read_xref_lines]. rewrite <- app_assoc.
  rewrite read_xref_line_entry by exact Ho.
  replace 20%nat with (length (xref_entry o)) by (apply xref_entry_length, Ho).
  rewrite skipn_length_app, IH by exact Hoffs. reflexivity.
Qed.

Lemma Some_eq {A} (a b : A) : Some a = Some b -> a = b.
Proof. congruence. Qed.

Lemma encoded_layout_firstn_le objs k :
  (length (encoded_layout (firstn k objs)) <= length (encoded_layout objs))%nat.
Proof.
  rewrite <- (firstn_skipn k objs) at 2. rewrite encoded_layout_app, length_app. lia.
Qed.

Lemma xrefOffset_le_length data :
  xrefOffset data <= Z.of_nat (length (generateCertificatePDF data)).
Proof.
  rewrite xrefOffset_bytes, buffer_layout, !length_app. lia.
Qed.

(** Every recorded offset lies between the header and the cross-reference
    section. *)
Lemma object_offsets_bounds data :
  Forall (fun o => 9 <= o <= xrefOffset data) (object_offsets data).
Proof.
  apply Forall_forall. intros o Ho. apply In_nth_error in Ho. destruct Ho as [k Hk].
  assert (Hlt : (k < 7)%nat).
  { rewrite <- (object_offsets_length data). apply nth_error_Some. congruence. }
  rewrite object_offset_bytes in Hk by exact Hlt. apply Some_eq in Hk. subst o.
  rewrite xrefOffset_bytes, !length_app.
  pose proof (encoded_layout_firstn_le (objects (build_objects data)) k).
  change (length header) with 9%nat. lia.
Qed.

Lemma object_offsets_fit data :
  Z.of_nat (length (generateCertificatePDF data)) < 10 ^ 10 ->
  Forall (fun o => 0 <= o < 10 ^ 10) (object_offsets data).
Proof.
  intros Hsize. pose proof (xrefOffset_le_length data).
  eapply Forall_impl; [| apply object_offsets_bounds]. cbn beta. intros o Ho. lia.
Qed.

Lemma xrefOffset_nonneg data : 0 <= xrefOffset data.
Proof. rewrite xrefOffset_bytes. lia. Qed.

Lemma read_startxref_framed A B C T D :
  forallb is_digit D = true -> D <> [] ->
  read_startxref (A ++ B ++ C ++ T ++ (lit "startxref" ++ nl) ++ D ++ nl ++ lit "%%EOF")
  = Some (read_decimal D).
Proof.
  intros HD Hne. rewrite (app_assoc A), (app_assoc (A ++ B)), (app_assoc ((A ++ B) ++ C)).
  apply read_startxref_spec; assumption.
Qed.

Lemma trailer_split count xo :
  trailer count xo
  = (lit "trailer" ++ nl ++ lit "<< /Size " ++ int_to_string count
     ++ lit " /Root 1 0 R >>" ++ nl)
    ++ (lit "startxref" ++ nl) ++ int_to_string xo ++ nl ++ lit "%%EOF".
Proof. unfold trailer. rewrite <- !app_assoc. reflexivity. Qed.

(** Reading the end of the output gives back [xrefOffset]. *)
Lemma read_startxref_output data :
  read_startxref (generateCertificatePDF data) = Some (xrefOffset data).
Proof.
  rewrite buffer_layout, trailer_split.
  pose proof (xrefOffset_nonneg data) as Hx.
  rewrite (int_to_string_nonneg (xrefOffset data)) by exact Hx.
  rewrite read_startxref_framed; [| apply nat_digits_digits | apply digits_aux_nonempty].
  rewrite read_decimal_nat_digits by exact Hx. reflexivity.
Qed.

Lemma xref_head_split count :
  xref_head count
  = (lit "xref" ++ nl ++ lit "0 ") ++ int_to_string count ++ nl
    ++ lit "0000000000 65535 f " ++ nl.
Proof. unfold xref_head. rewrite <- !app_assoc. reflexivity. Qed.

Lemma read_xref_table P offs T :
  read_startxref (P ++ (xref_head (Z.of_nat (S (length offs)))
                        ++ concat (map xref_entry offs)) ++ T)
  = Some (Z.of_nat (length P)) ->
  Forall (fun o => 0 <= o < 10 ^ 10) offs ->
  read_xref (P ++ (xref_head (Z.of_nat (S (length offs)))
                   ++ concat (map xref_entry offs)) ++ T)
  = Some (free_line :: map in_use_line offs, T).
Proof.
  intros Hstart Hoffs. unfold read_xref. rewrite Hstart, Nat2Z.id, skipn_length_app.
  rewrite xref_head_split.
  set (p := lit "xref" ++ nl ++ lit "0 "). rewrite <- !app_assoc.
  rewrite strip_prefix_app.
  rewrite int_to_string_nonneg by lia.
  rewrite take_digits_app; [| apply nat_digits_digits | reflexivity].
  destruct (nat_digits (Z.of_nat (S (length offs)))) as [|d ds] eqn:E.
  { exfalso. revert E. apply digits_aux_nonempty. }
  rewrite <- E. rewrite strip_prefix_app.
  rewrite read_decimal_nat_digits, Nat2Z.id by lia.
  cbn [read_xref_lines].
  change (read_xref_line (lit "0000000000 65535 f " ++ nl ++ concat (map xref_entry offs) ++ T))
    with (Some free_line).
  change (skipn 20 (lit "0000000000 65535 f " ++ nl ++ concat (map xref_entry offs) ++ T))
    with (concat (map xref_entry offs) ++ T).
  rewrite read_xref_lines_entries by exact Hoffs. reflexivity.
Qed.

(** Following [startxref] in the output: the free entry, then one in-use
    entry per recorded offset, then the trailer. *)
Lemma read_xref_output data :
  Z.of_nat (length (generateCertificatePDF data)) < 10 ^ 10 ->
  read_xref (generateCertificatePDF data)
  = Some (free_line :: map in_use_line (object_offsets data),
          trailer 8 (xrefOffset data)).
Proof.
  intros Hsize. pose proof (read_startxref_output data) as Hstart.
  pose proof (object_offsets_fit data Hsize) as Hfit.
  rewrite buffer_layout in Hstart |- *. unfold xref_section in *.
  rewrite xrefOffset_bytes in Hstart at 2.
  rewrite app_assoc in Hstart |- *.
  change 8 with (Z.of_nat (S 7)) in Hstart at 1 |- * at 1.
  rewrite <- (object_offsets_length data) in Hstart at 1 |- * at 1.
  apply read_xref_table; assumption.
Qed.

(* ================================================================== *)
(** ** Objects at their offsets *)
(* ================================================================== *)

Lemma obj_keyword_ascii i : ascii_only (obj_keyword i) = true.
Proof.
  unfold obj_keyword. rewrite ascii_only_app, int_to_string_ascii. reflexivity.
Qed.

(** The [k]-th object pushed is introduced as object number [k + 1]. *)
Lemma object_nth data k :
  (k < 7)%nat ->
  exists body,
    nth_error (object_bodies data) k = Some body
    /\ nth_error (objects (build_objects data)) k
       = Some (obj_keyword (1 + Z.of_nat k) ++ nl ++ body).
Proof.
  intros Hk.
  destruct (nth_error (object_bodies data) k) as [body|] eqn:E.
  - exists body. split; [reflexivity|].
    rewrite build_objects_numbered, (numbered_nth _ 1 k body E).
    unfold obj_keyword. rewrite <- !app_assoc. reflexivity.
  - apply nth_error_None in E. cbn in E. lia.
Qed.

Lemma utf8_encode_object i body :
  utf8_encode (obj_keyword i ++ nl ++ body)
  = obj_keyword i ++ nl ++ utf8_encode body.
Proof.
  rewrite utf8_encode_ascii_app by apply obj_keyword_ascii. reflexivity.
Qed.

(** At the [k]-th recorded offset the output reads [<k+1> 0 obj]. *)
Lemma bytes_at_object_offset data k o :
  nth_error (object_offsets data) k = Some o ->
  bytes_at (generateCertificatePDF data) o
    (length (obj_keyword (1 + Z.of_nat k)))
  = obj_keyword (1 + Z.of_nat k).
Proof.
  intros Ho.
  assert (Hk : (k < 7)%nat).
  { rewrite <- (object_offsets_length data). apply nth_error_Some. congruence. }
  rewrite object_offset_bytes in Ho by exact Hk. apply Some_eq in Ho. subst o.
  destruct (object_nth data k Hk) as (body & _ & Hobj).
  rewrite (buffer_split_at_object data k _ Hobj), utf8_encode_object.
  rewrite <- !app_assoc. rewrite (app_assoc header). apply bytes_at_app.
Qed.

Lemma encoded_layout_cons obj objs :
  encoded_layout (obj :: objs) = utf8_encode obj ++ nl ++ encoded_layout objs.
Proof. unfold encoded_layout. cbn [map concat]. now rewrite <- app_assoc. Qed.

Lemma encoded_layout_firstn_S objs : forall k obj,
  nth_error objs k = Some obj ->
  encoded_layout (firstn (S k) objs)
  = encoded_layout (firstn k objs) ++ utf8_encode obj ++ nl.
Proof.
  induction objs as [|x objs IH]; intros [|k] obj H; try discriminate.
  - cbn [nth_error] in H. apply Some_eq in H. subst x.
    cbn [firstn]. rewrite encoded_layout_cons. reflexivity.
  - cbn [nth_error] in H. change (firstn (S (S k)) (x :: objs)) with (x :: firstn (S k) objs).
    change (firstn (S k) (x :: objs)) with (x :: firstn k objs).
    rewrite !encoded_layout_cons, (IH k obj H), <- !app_assoc. reflexivity.
Qed.

Lemma encoded_layout_firstn_lt objs : forall i j,
  (i < j <= length objs)%nat ->
  (length (encoded_layout (firstn i objs)) < length (encoded_layout (firstn j objs)))%nat.
Proof.
  intros i j. induction j as [|j IH]; intros H; [lia|].
  destruct (nth_error objs j) as [obj|] eqn:E.
  2:{ apply nth_error_None in E. lia. }
  rewrite (encoded_layout_firstn_S objs j obj E), !length_app. cbn [length nl].
  destruct (Nat.eq_dec i j) as [->|Hne]; [lia|].
  specialize (IH ltac:(lia)). lia.
Qed.

(** Objects are laid out in the order of their numbers. *)
Lemma object_offsets_increasing data i j oi oj :
  (i < j)%nat ->
  nth_error (object_offsets data) i = Some oi ->
  nth_error (object_offsets data) j = Some oj ->
  oi < oj.
Proof.
  intros Hij Hi Hj.
  assert (Hj7 : (j < 7)%nat).
  { rewrite <- (object_offsets_length data). apply nth_error_Some. congruence. }
  rewrite object_offset_bytes in Hi, Hj by lia.
  apply Some_eq in Hi, Hj. subst oi oj. rewrite !length_app.
  pose proof (encoded_layout_firstn_lt (objects (build_objects data)) i j) as H.
  rewrite objects_length in H. specialize (H ltac:(lia)). lia.
Qed.

Lemma stream_head_ascii data : ascii_only (stream_head data) = true.
Proof.
  unfold stream_head.
  repeat (rewrite ascii_only_app; apply andb_true_iff; split);
    solve [reflexivity | apply int_to_string_ascii].
Qed.

(** The bytes of the stream object: an ASCII head, the encoded content
    stream, an ASCII tail. *)
Lemma obj_keyword_4 : obj_keyword 4 = lit "4 0 obj".
Proof. reflexivity. Qed.

Lemma stream_object_text data :
  obj_keyword 4 ++ nl ++ stream_body data
  = stream_head data ++ contentStream data ++ stream_tail.
Proof.
  rewrite obj_keyword_4. unfold stream_body, stream_head, stream_tail.
  rewrite <- !app_assoc. reflexivity.
Qed.

Lemma utf8_encode_stream_object data :
  utf8_encode (obj_keyword 4 ++ nl ++ stream_body data)
  = stream_head data ++ streamBytes data ++ stream_tail.
Proof.
  rewrite stream_object_text.
  rewrite (utf8_encode_ascii_app (stream_head data)) by apply stream_head_ascii.
  rewrite (utf8_encode_app (contentStream data) stream_tail) by reflexivity.
  rewrite (utf8_encode_ascii stream_tail) by reflexivity.
  unfold streamBytes. reflexivity.
Qed.

Lemma stream_object_nth data :
  nth_error (objects (build_objects data)) 3
  = Some (obj_keyword 4 ++ nl ++ stream_body data).
Proof.
  destruct (object_nth data 3 ltac:(lia)) as (body & Hb & Hobj).
  cbn in Hb. apply Some_eq in Hb. subst body. exact Hobj.
Qed.

(** The output split around the payload of the stream object. *)
Lemma buffer_split_at_stream data :
  exists pre post,
    generateCertificatePDF data
    = pre ++ stream_head data ++ streamBytes data ++ stream_tail ++ post
    /\ nth_error (object_offsets data) 3 = Some (Z.of_nat (length pre)).
Proof.
  exists (header ++ encoded_layout (firstn 3 (objects (build_objects data)))).
  eexists. split.
  - rewrite (buffer_split_at_object data 3 _ (stream_object_nth data)).
    rewrite utf8_encode_stream_object, <- !app_assoc. reflexivity.
  - apply object_offset_bytes. lia.
Qed.

Lemma read_stream_framed pre n payload rest :
  0 <= n -> Z.of_nat (length payload) = n ->
  read_stream
    (pre ++ lit "4" ++ (lit " 0 obj" ++ nl ++ lit "<< /Length ") ++ nat_digits n
         ++ (lit " >>" ++ nl ++ lit "stream" ++ nl) ++ payload
         ++ (nl ++ lit "endstream") ++ rest)
    (Z.of_nat (length pre))
  = Some (n, payload).
Proof.
  intros Hn Hlen. unfold read_stream. rewrite Nat2Z.id, skipn_length_app.
  set (p1 := lit " 0 obj" ++ nl ++ lit "<< /Length ").
  set (p2 := lit " >>" ++ nl ++ lit "stream" ++ nl).
  set (p3 := nl ++ lit "endstream").
  rewrite (take_digits_app (lit "4")) by (subst p1; reflexivity).
  rewrite strip_prefix_app.
  rewrite (take_digits_app (nat_digits n));
    [| apply nat_digits_digits | subst p2; reflexivity].
  destruct (nat_digits n) as [|d ds] eqn:E.
  { exfalso. revert E. apply digits_aux_nonempty. }
  rewrite <- E, strip_prefix_app, read_decimal_nat_digits by exact Hn.
  rewrite <- Hlen, Nat2Z.id, skipn_length_app, firstn_length_app, strip_prefix_app.
  rewrite Nat.eqb_refl. reflexivity.
Qed.

Lemma stream_frame n payload post :
  (lit "4 0 obj" ++ nl ++ lit "<< /Length " ++ nat_digits n
     ++ lit " >>" ++ nl ++ lit "stream" ++ nl)
  ++ payload ++ stream_tail ++ post
  = lit "4" ++ (lit " 0 obj" ++ nl ++ lit "<< /Length ") ++ nat_digits n
    ++ (lit " >>" ++ nl ++ lit "stream" ++ nl) ++ payload
    ++ (nl ++ lit "endstream") ++ (nl ++ lit "endobj") ++ post.
Proof.
  change (lit "4 0 obj") with (lit "4" ++ lit " 0 obj"). unfold stream_tail.
  rewrite <- !app_assoc. reflexivity.
Qed.

Lemma read_stream_spec pre n payload post :
  0 <= n -> Z.of_nat (length payload) = n ->
  read_stream
    (pre ++ (lit "4 0 obj" ++ nl ++ lit "<< /Length " ++ int_to_string n
             ++ lit " >>" ++ nl ++ lit "stream" ++ nl)
         ++ payload ++ stream_tail ++ post)
    (Z.of_nat (length pre))
  = Some (n, payload).
Proof.
  intros Hn Hlen. rewrite (int_to_string_nonneg n) by exact Hn.
  rewrite stream_frame. apply read_stream_framed; assumption.
Qed.

Lemma stream_shape data pre post :
  generateCertificatePDF data
  = pre ++ stream_head data ++ streamBytes data ++ stream_tail ++ post ->
  generateCertificatePDF data
  = pre ++ (lit "4 0 obj" ++ nl ++ lit "<< /Length "
            ++ int_to_string (Z.of_nat (length (streamBytes data)))
            ++ lit " >>" ++ nl ++ lit "stream" ++ nl)
        ++ streamBytes data ++ stream_tail ++ post.
Proof.
  intros Hbuf. rewrite Hbuf. unfold stream_head. rewrite <- !app_assoc. reflexivity.
Qed.

Lemma streamBytes_unfold data : streamBytes data = utf8_encode (contentStream data).
Proof. unfold streamBytes. reflexivity. Qed.

(** Reading the stream object at its recorded offset. *)
Lemma read_stream_output data :
  exists pre : Buffer,
    nth_error (object_offsets data) 3 = Some (Z.of_nat (length pre))
    /\ read_stream (generateCertificatePDF data) (Z.of_nat (length pre))
       = Some (byteLength (contentStream data), utf8_encode (contentStream data)).
Proof.
  destruct (buffer_split_at_stream data) as (pre & post & Hbuf & Hoff).
  exists pre. split; [exact Hoff|].
  rewrite (stream_shape data pre post Hbuf).
  unfold byteLength. rewrite <- streamBytes_unfold.
  apply (read_stream_spec pre (Z.of_nat (length (streamBytes data))) (streamBytes data) post);
    [apply Nat2Z.is_nonneg | reflexivity].
Qed.
(* ================================================================== *)
(** ** Cross-reference table, stream length and file frame *)
(* ================================================================== *)

Lemma nth_error_map_in_use offs k l :
  nth_error (map in_use_line offs) k = Some l ->
  nth_error offs k = Some (line_offset l) /\ line_in_use l = true.
Proof.
  rewrite nth_error_map. destruct (nth_error offs k) as [o|]; [|discriminate].
  cbn. intros H. apply Some_eq in H. subst l. split; reflexivity.
Qed.

(** C1. Following [startxref] in the output of [generateCertificatePDF]
    leads to a cross-reference table made of the free entry and exactly seven
    in-use entries; the offset recorded in the entry of object [i] is the
    byte position at which [<i> 0 obj] begins; the objects were pushed with
    the numbers 1 to 7 in this order and lie in the file in this order. The
    entries have their fixed width as long as the file is shorter than
    [10^10] bytes, which holds for every text a JavaScript string can hold. *)
Theorem xref_offsets_point_to_objects (data : CertificateRequest) :
  Z.of_nat (length (generateCertificatePDF data)) < 10 ^ 10 ->
  exists lines,
    read_xref (generateCertificatePDF data)
    = Some (free_line :: lines, trailer 8 (xrefOffset data))
    /\ length lines = 7%nat
    /\ Forall (fun l => line_in_use l = true) lines
    /\ map line_offset lines = object_offsets data
    /\ (forall i, 1 <= i <= 7 ->
        exists l body,
          nth_error lines (Z.to_nat (i - 1)) = Some l
          /\ bytes_at (generateCertificatePDF data) (line_offset l)
               (length (obj_keyword i)) = obj_keyword i
          /\ nth_error (objects (build_objects data)) (Z.to_nat (i - 1))
             = Some (obj_keyword i ++ nl ++ body))
    /\ (forall i j li lj, (i < j)%nat ->
        nth_error lines i = Some li -> nth_error lines j = Some lj ->
        line_offset li < line_offset lj)
    /\ objNum (build_objects data) = 8.
Proof.
  intros Hsize. exists (map in_use_line (object_offsets data)).
  split; [apply read_xref_output, Hsize|].
  split; [rewrite length_map; apply object_offsets_length|].
  split; [apply Forall_map, Forall_forall; intros o _; reflexivity|].
  split; [rewrite map_map; cbn [in_use_line line_offset]; apply map_id|].
  split; [|split; [|apply build_objects_objNum]].
  - intros i Hi.
    assert (Hk : (Z.to_nat (i - 1) < 7)%nat) by lia.
    destruct (object_nth data _ Hk) as (body & _ & Hobj).
    replace (1 + Z.of_nat (Z.to_nat (i - 1))) with i in Hobj by lia.
    pose proof (object_offset_bytes data _ Hk) as Hoff.
    eexists (in_use_line _), body. split; [|split; [|exact Hobj]].
    + rewrite nth_error_map, Hoff. reflexivity.
    + cbn [in_use_line line_offset].
      pose proof (bytes_at_object_offset data _ _ Hoff) as Hb.
      replace (1 + Z.of_nat (Z.to_nat (i - 1))) with i in Hb by lia. exact Hb.
  - intros i j li lj Hij Hi Hj.
    apply nth_error_map_in_use in Hi, Hj.
    eapply object_offsets_increasing; [exact Hij | apply Hi | apply Hj].
Qed.

Lemma xref_offsets_point_to_objects_witness :
  Z.of_nat (length (generateCertificatePDF alice)) < 10 ^ 10
  /\ exists lines,
       read_xref (generateCertificatePDF alice)
       = Some (free_line :: lines, trailer 8 (xrefOffset alice))
       /\ map line_offset lines = object_offsets alice.
Proof.
  assert (H : Z.of_nat (length (generateCertificatePDF alice)) < 10 ^ 10)
    by (vm_compute; reflexivity).
  split; [exact H|].
  destruct (xref_offsets_point_to_objects alice H) as (lines & Hr & _ & _ & Ho & _).
  exists lines. split; [exact Hr | exact Ho].
Defined.

(** C2. The [/Length] written in the dictionary of the content-stream
    object is the number of bytes of the payload that the output holds
    between [stream\n] and [\nendstream]: the bytes of the UTF-8 encoding of
    the content stream, not its number of characters. A reader that starts
    at the offset of object 4, takes [/Length] bytes after [stream\n] and
    expects [\nendstream] after them finds exactly this payload. *)
Theorem stream_length_is_payload_byte_count (data : CertificateRequest) :
  exists pre payload post declared,
    generateCertificatePDF data
    = pre ++ (lit "4 0 obj" ++ nl ++ lit "<< /Length " ++ int_to_string declared
              ++ lit " >>" ++ nl ++ lit "stream" ++ nl)
          ++ payload ++ (nl ++ lit "endstream" ++ nl ++ lit "endobj") ++ post
    /\ nth_error (object_offsets data) 3 = Some (Z.of_nat (length pre))
    /\ payload = utf8_encode (contentStream data)
    /\ declared = Z.of_nat (length payload)
    /\ read_stream (generateCertificatePDF data) (Z.of_nat (length pre))
       = Some (declared, payload).
Proof.
  destruct (buffer_split_at_stream data) as (pre & post & Hbuf & Hoff).
  exists pre, (streamBytes data), post, (Z.of_nat (length (streamBytes data))).
  pose proof (stream_shape data pre post Hbuf) as Hshape.
  split; [exact Hshape|]. split; [exact Hoff|].
  split; [apply streamBytes_unfold|]. split; [reflexivity|].
  rewrite Hshape.
  apply (read_stream_spec pre (Z.of_nat (length (streamBytes data))) (streamBytes data) post);
    [apply Nat2Z.is_nonneg | reflexivity].
Qed.



Lemma utf8_encode_text_before data k :
  utf8_encode (text_before data k)
  = header ++ encoded_layout (firstn k (objects (build_objects data))).
Proof.
  unfold text_before.
  rewrite <- (app_nil_r (layout (firstn k (objects (build_objects data))))).
  rewrite utf8_encode_header_layout. cbn [utf8_encode]. now rewrite app_nil_r.
Qed.

Lemma firstn_all_objects data :
  firstn 7 (objects (build_objects data)) = objects (build_objects data).
Proof. rewrite <- (objects_length data). apply firstn_all. Qed.

(** C10. Whatever code units the fields hold, every recorded offset is the
    UTF-8 byte length of the text written before the object, [startxref] is
    the byte length of the text written before [xref], [/Length] is the
    byte length of the content stream, and the output is the UTF-8 encoding
    of the whole text: so the bytes that precede a recorded offset are the
    encoding of the text written before it, the object keyword stands at the
    offset, and the stream payload has the declared length. *)
Theorem offsets_count_utf8_bytes (data : CertificateRequest) :
  generateCertificatePDF data = utf8_encode (pdf_text data)
  /\ (forall k o, nth_error (object_offsets data) k = Some o ->
        o = byteLength (text_before data k)
        /\ firstn (Z.to_nat o) (generateCertificatePDF data)
           = utf8_encode (text_before data k)
        /\ bytes_at (generateCertificatePDF data) o
             (length (obj_keyword (1 + Z.of_nat k)))
           = obj_keyword (1 + Z.of_nat k))
  /\ xrefOffset data = byteLength (text_before data 7)
  /\ firstn (Z.to_nat (xrefOffset data)) (generateCertificatePDF data)
     = utf8_encode (text_before data 7)
  /\ read_startxref (generateCertificatePDF data) = Some (xrefOffset data)
  /\ bytes_at (generateCertificatePDF data) (xrefOffset data) 4 = lit "xref"
  /\ (exists o4,
        nth_error (object_offsets data) 3 = Some o4
        /\ read_stream (generateCertificatePDF data) o4
           = Some (byteLength (contentStream data), utf8_encode (contentStream data))).
Proof.
  split; [reflexivity|]. split; [|split; [|split; [|split; [|split]]]].
  - intros k o Ho.
    assert (Hk : (k < 7)%nat).
    { rewrite <- (object_offsets_length data). apply nth_error_Some. congruence. }
    split; [|split; [|apply bytes_at_object_offset, Ho]].
    + rewrite object_offset_bytes in Ho by exact Hk. apply Some_eq in Ho. subst o.
      unfold byteLength. now rewrite utf8_encode_text_before.
    + rewrite object_offset_bytes in Ho by exact Hk. apply Some_eq in Ho. subst o.
      destruct (object_nth data k Hk) as (body & _ & Hobj).
      rewrite (buffer_split_at_object data k _ Hobj), Nat2Z.id, firstn_length_app.
      now rewrite utf8_encode_text_before.
  - unfold byteLength. rewrite utf8_encode_text_before, firstn_all_objects.
    apply xrefOffset_bytes.
  - rewrite utf8_encode_text_before, firstn_all_objects, xrefOffset_bytes, Nat2Z.id.
    rewrite buffer_layout, app_assoc. apply firstn_length_app.
  - apply read_startxref_output.
  - rewrite buffer_layout, xrefOffset_bytes, app_assoc. unfold xref_section, xref_head.
    rewrite <- !app_assoc.
    apply (bytes_at_app (header ++ encoded_layout (objects (build_objects data)))
             (lit "xref")).
  - destruct (read_stream_output data) as (pre & Hoff & Hread).
    exists (Z.of_nat (length pre)). split; [exact Hoff | exact Hread].
Qed.

Lemma offsets_count_utf8_bytes_witness :
  nth_error (object_offsets zoe) 4 = Some 1585
  /\ 1585 = byteLength (text_before zoe 4)
  /\ Z.of_nat (length (text_before zoe 4)) = 1578.
Proof.
  assert (H : nth_error (object_offsets zoe) 4 = Some 1585) by (vm_compute; reflexivity).
  split; [exact H|].
  destruct (offsets_count_utf8_bytes zoe) as (_ & Hoff & _).
  destruct (Hoff 4%nat 1585 H) as (Hb & _).
  split; [exact Hb | vm_compute; reflexivity].
Defined.
(* ================================================================== *)
(** ** Escaping *)
(* ================================================================== *)

Lemma replace_all_app c r a b :
  replace_all c r (a ++ b) = replace_all c r a ++ replace_all c r b.
Proof. unfold replace_all. apply flat_map_app. Qed.

Lemma escapeText_app a b : escapeText (a ++ b) = escapeText a ++ escapeText b.
Proof. unfold escapeText. now rewrite !replace_all_app. Qed.

Lemma escapeText_unit c : escapeText [c] = escape_unit c.
Proof.
  unfold escapeText, escape_unit, is_special, replace_all, backslash, lparen, rparen.
  cbn [flat_map app].
  destruct (c =? 92) eqn:E1.
  - apply Z.eqb_eq in E1. subst c. reflexivity.
  - cbn [flat_map app]. destruct (c =? 40) eqn:E2.
    + apply Z.eqb_eq in E2. subst c. reflexivity.
    + cbn [flat_map app orb]. destruct (c =? 41) eqn:E3; [|reflexivity].
      apply Z.eqb_eq in E3. subst c. reflexivity.
Qed.

(** The three chained replacements amount to one pass that puts a backslash
    before every backslash and parenthesis. *)
Lemma escapeText_one_pass text : escapeText text = flat_map escape_unit text.
Proof.
  induction text as [|c text IH]; [reflexivity|].
  change (c :: text) with ([c] ++ text).
  rewrite escapeText_app, escapeText_unit, IH. reflexivity.
Qed.

Lemma unescape_escape_unit c s :
  unescape (escape_unit c ++ s) = c :: unescape s.
Proof.
  unfold escape_unit, is_special. destruct (c =? backslash) eqn:E.
  - cbn [orb app unescape]. change (backslash =? backslash) with true. reflexivity.
  - cbn [orb]. destruct ((c =? lparen) || (c =? rparen)); cbn [app unescape].
    + change (backslash =? backslash) with true. reflexivity.
    + rewrite E. reflexivity.
Qed.

Lemma unescape_escapeText text : unescape (escapeText text) = text.
Proof.
  rewrite escapeText_one_pass.
  induction text as [|c text IH]; [reflexivity|].
  cbn [flat_map]. rewrite unescape_escape_unit, IH. reflexivity.
Qed.

Lemma escapeText_injective a b : escapeText a = escapeText b -> a = b.
Proof.
  intros H. rewrite <- (unescape_escapeText a), <- (unescape_escapeText b).
  now rewrite H.
Qed.

Lemma name_literal_line data :
  nth_error (contentLines data) 41 = Some (lit "(" ++ escapeText (name data) ++ lit ") Tj").
Proof. reflexivity. Qed.

Lemma course_literal_line data :
  nth_error (contentLines data) 56
  = Some (lit "(" ++ escapeText (course data) ++ lit ") Tj").
Proof. reflexivity. Qed.

Lemma date_literal_line data :
  nth_error (contentLines data) 65
  = Some (lit "(" ++ escapeText (lit "Completed on: " ++ date data) ++ lit ") Tj").
Proof. reflexivity. Qed.

Lemma id_literal_line data :
  nth_error (contentLines data) 89
  = Some (lit "(" ++ escapeText (lit "Certificate ID: " ++ certificate_id data)
          ++ lit ") Tj").
Proof. reflexivity. Qed.

(** With the backslash replaced last the escape of a parenthesis would be
    escaped again: the order of the source matters. *)
Lemma escape_backslash_last_differs :
  escape_backslash_last (lit "(") = lit "\\("
  /\ unescape (escape_backslash_last (lit "(")) <> lit "(".
Proof. split; [reflexivity | discriminate]. Qed.
(* ================================================================== *)
(** ** The participant name in the content stream *)
(* ================================================================== *)

(** A Number that holds an integer is written as that integer. *)
Lemma number_to_string_integer x z :
  Qnum x = z * Zpos (Qden x) -> number_to_string x = int_to_string z.
Proof.
  intros H. unfold number_to_string, int_to_string. rewrite H.
  set (d := Zpos (Qden x)). assert (Hd : 0 < d) by (subst d; lia).
  rewrite Z.abs_mul, (Z.abs_eq d) by lia.
  rewrite Z.div_mul, Z.mod_mul by lia. cbn [Z.eqb]. rewrite app_nil_r.
  destruct (z <? 0) eqn:Ez.
  - apply Z.ltb_lt in Ez.
    assert (E : (z * d <? 0) = true) by (apply Z.ltb_lt; nia).
    rewrite E. rewrite Z.abs_neq by lia. reflexivity.
  - apply Z.ltb_ge in Ez.
    assert (E : (z * d <? 0) = false) by (apply Z.ltb_ge; nia).
    rewrite E. rewrite Z.abs_eq by lia. reflexivity.
Qed.

(** A Number that holds a multiple of a quarter is written with the
    fraction [.25], [.5] or [.75]. *)
Lemma number_to_string_quarters x q :
  Qnum x * 4 = q * Zpos (Qden x) -> number_to_string x = quarters_to_string q.
Proof.
  intros H. unfold number_to_string, quarters_to_string.
  set (n := Qnum x) in *. set (d := Zpos (Qden x)) in *.
  assert (Hd : 0 < d) by (subst d; lia).
  assert (Hs : (n <? 0) = (q <? 0)).
  { destruct (Z.ltb_spec n 0), (Z.ltb_spec q 0); try reflexivity; nia. }
  rewrite Hs. f_equal.
  assert (Ha : Z.abs n * 4 = Z.abs q * d) by nia.
  set (a := Z.abs q / 4). set (b := Z.abs q mod 4).
  assert (Hq : Z.abs q = 4 * a + b) by (subst a b; apply Z.div_mod; lia).
  assert (Hb : 0 <= b < 4) by (subst b; apply Z.mod_pos_bound; lia).
  set (r := Z.abs n - a * d).
  assert (Hr : 4 * r = b * d) by (subst r; nia).
  assert (Hrd : 0 <= r < d) by nia.
  assert (Hdiv : Z.abs n / d = a).
  { symmetry. apply (Z.div_unique _ _ a r); [left; exact Hrd | subst r; lia]. }
  assert (Hmod : Z.abs n mod d = r).
  { symmetry. apply (Z.mod_unique _ _ a r); [left; exact Hrd | subst r; lia]. }
  rewrite Hdiv, Hmod. f_equal.
  assert (Hcase : b = 0 \/ b = 1 \/ b = 2 \/ b = 3) by lia.
  destruct Hcase as [E | [E | [E | E]]]; rewrite E in *; cbn [Z.eqb Pos.eqb].
  - assert (r = 0) by lia. subst r. now rewrite H0.
  - assert (Hr0 : (r =? 0) = false) by (apply Z.eqb_neq; lia).
    assert (E1 : 10 * r / d = 2) by (symmetry; apply (Z.div_unique _ _ 2 (2 * r)); lia).
    assert (E2 : 10 * r mod d = 2 * r) by (symmetry; apply (Z.mod_unique _ _ 2 (2 * r)); lia).
    assert (E3 : 10 * (2 * r) / d = 5) by (symmetry; apply (Z.div_unique _ _ 5 0); lia).
    assert (E4 : 10 * (2 * r) mod d = 0) by (symmetry; apply (Z.mod_unique _ _ 5 0); lia).
    assert (Hr2 : (2 * r =? 0) = false) by (apply Z.eqb_neq; lia).
    change 20%nat with (S (S (S 17))). cbn [frac_digits].
    rewrite Hr0, E1, E2, Hr2, E3, E4. reflexivity.
  - assert (Hr0 : (r =? 0) = false) by (apply Z.eqb_neq; lia).
    assert (E1 : 10 * r / d = 5) by (symmetry; apply (Z.div_unique _ _ 5 0); lia).
    assert (E2 : 10 * r mod d = 0) by (symmetry; apply (Z.mod_unique _ _ 5 0); lia).
    change 20%nat with (S (S 18)). cbn [frac_digits].
    rewrite Hr0, E1, E2. reflexivity.
  - assert (Hr0 : (r =? 0) = false) by (apply Z.eqb_neq; lia).
    assert (Hd4 : d = 4 * (d / 4)).
    { assert (d mod 4 = 0); [|pose proof (Z.div_mod d 4); lia].
      assert (Hm : (4 * r) mod 4 = 0) by (rewrite Z.mul_comm; apply Z.mod_mul; lia).
      rewrite Hr in Hm. rewrite Z.mul_mod in Hm by lia.
      pose proof (Z.mod_pos_bound d 4 ltac:(lia)) as Hbd.
      change (3 mod 4) with 3 in Hm.
      assert (Hc : d mod 4 = 0 \/ d mod 4 = 1 \/ d mod 4 = 2 \/ d mod 4 = 3) by lia.
      destruct Hc as [Hc | [Hc | [Hc | Hc]]]; rewrite Hc in Hm; [exact Hc | discriminate ..]. }
    set (k := d / 4) in *.
    assert (Hrk : r = 3 * k) by lia.
    assert (E1 : 10 * r / d = 7) by (symmetry; apply (Z.div_unique _ _ 7 (2 * k)); lia).
    assert (E2 : 10 * r mod d = 2 * k) by (symmetry; apply (Z.mod_unique _ _ 7 (2 * k)); lia).
    assert (E3 : 10 * (2 * k) / d = 5) by (symmetry; apply (Z.div_unique _ _ 5 0); lia).
    assert (E4 : 10 * (2 * k) mod d = 0) by (symmetry; apply (Z.mod_unique _ _ 5 0); lia).
    assert (Hr2 : (2 * k =? 0) = false) by (apply Z.eqb_neq; lia).
    change 20%nat with (S (S (S 17))). cbn [frac_digits].
    rewrite Hr0, E1, E2, Hr2, E3, E4. reflexivity.
Qed.


Lemma join_app sep a b :
  a <> [] -> b <> [] -> join sep (a ++ b) = join sep a ++ sep ++ join sep b.
Proof.
  intros Ha Hb. induction a as [|x a IH]; [contradiction|].
  destruct a as [|y a].
  - cbn [app join]. destruct b; [contradiction | reflexivity].
  - change ((x :: y :: a) ++ b) with (x :: (y :: a) ++ b).
    cbn [join app] in *. rewrite IH by discriminate.
    rewrite <- !app_assoc. reflexivity.
Qed.

Lemma firstn_skipn_middle {A} (l : list A) i n :
  l = firstn i l ++ firstn n (skipn i l) ++ skipn n (skipn i l).
Proof. now rewrite firstn_skipn, firstn_skipn. Qed.

(* ================================================================== *)
(** ** The request handler: classification of the outcomes *)
(* ================================================================== *)

Lemma bind_Ok {A B} (r : result A) (k : A -> result B) b :
  bind r k = Ok b -> exists a, r = Ok a /\ k a = Ok b.
Proof. destruct r as [a|e]; cbn; [eauto | discriminate]. Qed.

Lemma certificates_for_length E clock ps : forall tick cs,
  certificates_for E clock ps tick = Ok cs -> length cs = length ps.
Proof.
  induction ps as [|p ps IH]; intros tick cs H; cbn [certificates_for] in H.
  - injection H as <-. reflexivity.
  - apply bind_Ok in H. destruct H as (r & _ & H).
    apply bind_Ok in H. destruct H as (cs' & Hcs & H).
    injection H as <-. cbn [length]. f_equal. eapply IH, Hcs.
Qed.

(** The entry at position [k] is the one the loop made for the participant
    at position [k]. *)
Lemma certificates_for_nth E clock ps : forall tick cs k p,
  certificates_for E clock ps tick = Ok cs ->
  nth_error ps k = Some p ->
  exists tick1 tick2 e,
    certificate_for E clock p tick1 = Ok (e, tick2) /\ nth_error cs k = Some e.
Proof.
  induction ps as [|q ps IH]; intros tick cs k p H Hk; [destruct k; discriminate|].
  cbn [certificates_for] in H.
  apply bind_Ok in H. destruct H as ([e tick2] & He & H).
  apply bind_Ok in H. destruct H as (cs' & Hcs & H). injection H as <-.
  destruct k as [|k]; cbn [nth_error] in *.
  - injection Hk as <-. exists tick, tick2, e. split; [exact He | reflexivity].
  - eapply IH; eassumption.
Qed.

(** What a turn of the loop that does not throw has made. *)
Lemma certificate_for_entry E clock p tick e tick' :
  certificate_for E clock p tick = Ok (e, tick') ->
  exists p_name base,
    get_property E p "name" = Ok p_name
    /\ entry_name e = p_name
    /\ or_else p_name (VString (lit "certificate")) = VString base
    /\ filename e = lit "Certificate_" ++ sanitize base ++ lit ".pdf".
Proof.
  unfold certificate_for. intros H.
  apply bind_Ok in H. destruct H as (p_name & Hname & H).
  apply bind_Ok in H. destruct H as (p_course & _ & H).
  apply bind_Ok in H. destruct H as (p_date & _ & H).
  destruct (if truthy p_date then _ else _) as [d t1].
  apply bind_Ok in H. destruct H as (p_id & _ & H).
  destruct (if truthy p_id then _ else _) as [i t2].
  apply bind_Ok in H. destruct H as (buf & _ & H).
  apply bind_Ok in H. destruct H as (sn & Hsn & H).
  apply bind_Ok in H. destruct H as (p_email & _ & H).
  injection H as <- <-. exists p_name.
  unfold sanitized in Hsn.
  destruct (or_else p_name (VString (lit "certificate"))) as [| | | |base| |] eqn:Hb;
    try discriminate.
  injection Hsn as <-. exists base. repeat split; assumption.
Qed.

Lemma or_else_string v d base :
  or_else v (VString d) = VString base ->
  (v = VString base /\ base <> []) \/ (truthy v = false /\ base = d).
Proof.
  unfold or_else. destruct (truthy v) eqn:T; intros H.
  - left. subst v. split; [reflexivity|]. cbn in T. destruct base; [discriminate|discriminate].
  - right. injection H as <-. split; reflexivity.
Qed.

(** C8 as stated fails: an exception raised during generation reaches the
    client with its own message, here the text of the engine's [TypeError]
    for a participant that is [null], and not with a generic one. *)
Lemma failure_message_not_generic :
  POST v8 fixed_clock (batch [alice_json; VNull])
  = {| status := 500;
       body := Failure (lit "Cannot read properties of null (reading 'name')") |}
  /\ error_of (POST v8 fixed_clock (batch [alice_json; VNull]))
     <> lit "PDF generation failed".
Proof. split; [vm_compute; reflexivity | vm_compute; discriminate]. Qed.

(** The five properties of an entry are those of the participant it was
    made for, as they were received. *)
Lemma certificate_for_echo E clock p tick e tick' :
  certificate_for E clock p tick = Ok (e, tick') ->
  get_property E p "name" = Ok (entry_name e)
  /\ get_property E p "email" = Ok (entry_email e)
  /\ get_property E p "course" = Ok (entry_course e)
  /\ get_property E p "date" = Ok (entry_date e)
  /\ get_property E p "certificate_id" = Ok (entry_certificate_id e).
Proof.
  unfold certificate_for. intros H.
  apply bind_Ok in H. destruct H as (p_name & Hname & H).
  apply bind_Ok in H. destruct H as (p_course & Hcourse & H).
  apply bind_Ok in H. destruct H as (p_date & Hdate & H).
  destruct (if truthy p_date then _ else _) as [d t1].
  apply bind_Ok in H. destruct H as (p_id & Hid & H).
  destruct (if truthy p_id then _ else _) as [i t2].
  apply bind_Ok in H. destruct H as (buf & _ & H).
  apply bind_Ok in H. destruct H as (sn & _ & H).
  apply bind_Ok in H. destruct H as (p_email & Hemail & H).
  injection H as <- <-. cbn [entry_name entry_email entry_course entry_date
                             entry_certificate_id].
  repeat split; assumption.
Qed.

Lemma certificates_for_throws E clock ps : forall tick p,
  In p ps ->
  (forall t, exists e, certificate_for E clock p t = Throw e) ->
  exists e, certificates_for E clock ps tick = Throw e.
Proof.
  induction ps as [|q ps IH]; intros tick p Hin Hbad; [contradiction|].
  cbn [certificates_for]. destruct Hin as [-> | Hin].
  - destruct (Hbad tick) as (e & ->). cbn [bind]. eauto.
  - destruct (certificate_for E clock q tick) as [[e t]|e]; cbn [bind snd]; [|eauto].
    destruct (IH t p Hin Hbad) as (e' & ->). cbn [bind]. eauto.
Qed.

(** C8, amended. The handler has three outcomes. An exception raised in the
    [try] block (by [request.json ()], by a body that is [null], by any
    participant) gives status 500 with [success: false], no certificate and,
    as error, the message of the exception when it is an [Error], the fixed
    text [PDF generation failed] otherwise. A body whose [participants] is
    not a non-empty array gives status 400 with [participants array is
    required]. Otherwise the answer has status 200 and exactly one
    certificate per participant, in order: the entry at a position is the
    one the loop made for the participant at that position and carries the
    properties of that participant. There is no partial success: one
    participant whose turn throws gives status 500 and no certificate. *)
Theorem POST_outcomes (E : Engine) (clock : nat -> Z) (request_json : result value) :
  ((exists error,
      POST_try E clock request_json = Throw error
      /\ POST E clock request_json
         = {| status := 500;
              body := Failure (match error with
                               | ErrorObject message => message
                               | NonError _ => lit "PDF generation failed"
                               end) |}
      /\ success (POST E clock request_json) = false
      /\ certificates_of (POST E clock request_json) = [])
   \/ (exists body participants,
      request_json = Ok body
      /\ destructure_participants E body = Ok participants
      /\ (forall p rest, participants <> VArray (p :: rest))
      /\ POST E clock request_json
         = {| status := 400;
              body := Failure (lit "participants array is required") |}
      /\ success (POST E clock request_json) = false)
   \/ (exists body participants certificates,
      request_json = Ok body
      /\ destructure_participants E body = Ok (VArray participants)
      /\ participants <> []
      /\ certificates_for E clock participants 0 = Ok certificates
      /\ length certificates = length participants
      /\ POST E clock request_json
         = {| status := 200;
              body := Success (Z.of_nat (length participants)) certificates |}
      /\ success (POST E clock request_json) = true
      /\ (forall k p, nth_error participants k = Some p ->
            exists e tick tick',
              nth_error certificates k = Some e
              /\ certificate_for E clock p tick = Ok (e, tick')
              /\ get_property E p "name" = Ok (entry_name e)
              /\ get_property E p "email" = Ok (entry_email e)
              /\ get_property E p "course" = Ok (entry_course e)
              /\ get_property E p "date" = Ok (entry_date e)
              /\ get_property E p "certificate_id" = Ok (entry_certificate_id e))))
  /\ (forall body participants p,
        request_json = Ok body ->
        destructure_participants E body = Ok (VArray participants) ->
        In p participants ->
        (forall tick, exists error, certificate_for E clock p tick = Throw error) ->
        status (POST E clock request_json) = 500
        /\ certificates_of (POST E clock request_json) = []).
Proof.
  split.
  2:{ intros body participants p Hreq Hd Hin Hthrow.
      destruct (certificates_for_throws E clock participants 0%nat p Hin Hthrow)
        as (error & Herr).
      unfold POST, POST_try. rewrite Hreq. cbn [bind]. rewrite Hd. cbn [bind].
      destruct participants as [|q rest]; [contradiction|].
      rewrite Herr. cbn [bind]. split; reflexivity. }
  unfold POST. destruct (POST_try E clock request_json) as [r|error] eqn:Htry.
  2:{ left. exists error. repeat split. }
  right. unfold POST_try in Htry.
  apply bind_Ok in Htry. destruct Htry as (body & Hreq & Htry).
  apply bind_Ok in Htry. destruct Htry as (participants & Hpart & Htry).
  assert (Hbad : (forall p rest, participants <> VArray (p :: rest)) ->
                 r = {| status := 400;
                        body := Failure (lit "participants array is required") |}).
  { intros Hno. destruct participants as [| | | | |[|p rest]|]; congruence. }
  destruct participants as [| | | | |items|];
    try (left; exists body; eexists; repeat split;
         [exact Hreq | exact Hpart | discriminate | apply Hbad; discriminate
         | rewrite Hbad by discriminate; reflexivity]).
  destruct items as [|p rest].
  - left. exists body, (VArray []). repeat split;
      [exact Hreq | exact Hpart | discriminate | apply Hbad; discriminate
      | rewrite Hbad by discriminate; reflexivity].
  - right. apply bind_Ok in Htry. destruct Htry as (cs & Hcs & Htry).
    pose proof (certificates_for_length _ _ _ _ _ Hcs) as Hlen.
    exists body, (p :: rest), cs.
    split; [exact Hreq|]. split; [exact Hpart|]. split; [discriminate|].
    split; [exact Hcs|]. split; [exact Hlen|].
    split; [injection Htry as <-; rewrite Hlen; reflexivity|].
    split; [injection Htry as <-; reflexivity|].
    intros k q Hk.
    destruct (certificates_for_nth _ _ _ _ _ _ _ Hcs Hk) as (t1 & t2 & e & He & Hnth).
    exists e, t1, t2. split; [exact Hnth|]. split; [exact He|].
    exact (certificate_for_echo _ _ _ _ _ _ He).
Qed.


(** C9 as stated fails: the file name also ends in [.pdf], and a
    participant without a name gets the base name [certificate]. *)
Lemma filename_has_extension_and_fallback :
  map filename
    (certificates_of (POST v8 fixed_clock (batch [alice_json; anonymous_json])))
  = [lit "Certificate_Alice_Johnson.pdf"; lit "Certificate_certificate.pdf"]
  /\ lit "Certificate_Alice_Johnson.pdf"
     <> lit "Certificate_" ++ sanitize (lit "Alice Johnson")
  /\ get_property v8 anonymous_json "name" = Ok VUndefined.
Proof.
  split; [vm_compute; reflexivity|]. split; [vm_compute; discriminate | reflexivity].
Qed.

Lemma POST_success_inv E clock request_json total certificates :
  POST E clock request_json = {| status := 200; body := Success total certificates |} ->
  exists body participants,
    request_json = Ok body
    /\ destructure_participants E body = Ok (VArray participants)
    /\ certificates_for E clock participants 0 = Ok certificates
    /\ total = Z.of_nat (length participants).
Proof.
  unfold POST. destruct (POST_try E clock request_json) as [r|error] eqn:Htry;
    [|discriminate].
  intros ->. unfold POST_try in Htry.
  apply bind_Ok in Htry. destruct Htry as (body & Hreq & Htry).
  apply bind_Ok in Htry. destruct Htry as (participants & Hpart & Htry).
  destruct participants as [| | | | |[|p rest]|]; try discriminate.
  apply bind_Ok in Htry. destruct Htry as (cs & Hcs & Htry).
  injection Htry as Hn <-. exists body, (p :: rest).
  rewrite <- (certificates_for_length _ _ _ _ _ Hcs). repeat split; auto.
Qed.

(** C9, amended. In a successful answer the file name of every participant
    is [Certificate_], then the base name with every code unit outside
    [a-z], [A-Z], [0-9] replaced by an underscore, then [.pdf]; the base
    name is the participant's name when it is a non-empty string and
    [certificate] when the name is absent or empty. *)
Theorem filename_derivation (E : Engine) (clock : nat -> Z)
    (request_json : result value) (total : Z) (certificates : list certificate_entry) :
  POST E clock request_json
  = {| status := 200; body := Success total certificates |} ->
  exists body participants,
    request_json = Ok body
    /\ destructure_participants E body = Ok (VArray participants)
    /\ length certificates = length participants
    /\ forall k p, nth_error participants k = Some p ->
       exists e p_name base,
         nth_error certificates k = Some e
         /\ get_property E p "name" = Ok p_name
         /\ entry_name e = p_name
         /\ ((p_name = VString base /\ base <> [])
             \/ (truthy p_name = false /\ base = lit "certificate"))
         /\ filename e = lit "Certificate_" ++ sanitize base ++ lit ".pdf".
Proof.
  intros H. apply POST_success_inv in H.
  destruct H as (body & participants & Hreq & Hd & Hcs & _).
  exists body, participants. split; [exact Hreq|]. split; [exact Hd|].
  split; [eapply certificates_for_length, Hcs|].
  intros k p Hk.
  destruct (certificates_for_nth _ _ _ _ _ _ _ Hcs Hk) as (t1 & t2 & e & He & Hnth).
  destruct (certificate_for_entry _ _ _ _ _ _ He) as (p_name & base & Hn & Hen & Hb & Hf).
  exists e, p_name, base. repeat split; try assumption.
  apply or_else_string, Hb.
Qed.

Lemma filename_derivation_witness :
  POST v8 fixed_clock (batch [alice_json; anonymous_json])
  = {| status := 200;
       body := Success 2 (certificates_of
                 (POST v8 fixed_clock (batch [alice_json; anonymous_json]))) |}
  /\ length (certificates_of (POST v8 fixed_clock (batch [alice_json; anonymous_json])))
     = 2%nat.
Proof.
  assert (H : POST v8 fixed_clock (batch [alice_json; anonymous_json])
              = {| status := 200;
                   body := Success 2 (certificates_of
                     (POST v8 fixed_clock (batch [alice_json; anonymous_json]))) |})
    by (vm_compute; reflexivity).
  split; [exact H|].
  destruct (filename_derivation v8 fixed_clock _ _ _ H)
    as (body & participants & Hreq & Hd & Hlen & _).
  injection Hreq as <-. cbn in Hd. injection Hd as <-. exact Hlen.
Defined.

(* ================================================================== *)
(** ** The clock and the types of the fields *)
(* ================================================================== *)

Lemma get_property_ok_any E p key1 key2 v :
  get_property E p key1 = Ok v -> exists w, get_property E p key2 = Ok w.
Proof.
  destruct p; cbn; intros H; try discriminate; eauto.
Qed.

(** For a participant without a date the handler puts the day the clock
    shows into the certificate: the bytes depend on the clock. *)
Lemma missing_date_reads_clock :
  entry_of (certificate_for v8 fixed_clock anonymous_json 0)
  <> entry_of (certificate_for v8 epoch_clock anonymous_json 0).
Proof.
  intros H.
  apply (f_equal (fun r => match r with
                           | Ok e => length (pdf_base64 e)
                           | Throw _ => 0%nat
                           end)) in H.
  vm_compute in H. discriminate.
Qed.

(** Outside the documented domain the same code throws: a name that is a
    number has no [replace]. *)
Lemma generateCertificatePDF_untyped_number E c d i :
  generateCertificatePDF_untyped E (VNumber 5) c d i
  = Throw (ErrorObject (msg_not_a_function E (lit "text.replace"))).
Proof. reflexivity. Qed.

(** The texts of V8 on some Numbers and on the two values without
    properties. *)
Lemma v8_texts :
  number_text v8 (1 # 3) = lit "0.3333333333333333"
  /\ number_text v8 (inject_Z (10 ^ 21)) = lit "1e+21"
  /\ number_text v8 (1 # 10000000) = lit "1e-7"
  /\ number_text v8 (759 # 2) = number_to_string (759 # 2)
  /\ msg_read_property v8 VUndefined (lit "length")
     = lit "Cannot read properties of undefined (reading 'length')"
  /\ msg_read_property v8 VNull (lit "name")
     = lit "Cannot read properties of null (reading 'name')".
Proof. repeat split; vm_compute; reflexivity. Qed.
(* ================================================================== *)
(** ** More on escaping *)
(* ================================================================== *)

Lemma is_special_cases c :
  is_special c = true -> c = backslash \/ c = lparen \/ c = rparen.
Proof.
  unfold is_special. intros H.
  apply orb_true_iff in H. destruct H as [H|H].
  - apply orb_true_iff in H. destruct H as [H|H]; apply Z.eqb_eq in H; auto.
  - apply Z.eqb_eq in H. auto.
Qed.

Lemma read_literal_escaped text : forall depth acc rest,
  read_literal depth (flat_map escape_unit text ++ rest) acc
  = read_literal depth rest (rev text ++ acc).
Proof.
  induction text as [|c text IH]; intros depth acc rest; [reflexivity|].
  cbn [flat_map rev]. rewrite <- !app_assoc. cbn [app].
  unfold escape_unit at 1. destruct (is_special c) eqn:Hs.
  - cbn [app read_literal]. change (backslash =? backslash) with true.
    rewrite Hs. apply IH.
  - cbn [app read_literal].
    unfold is_special in Hs. apply orb_false_iff in Hs. destruct Hs as [Hs H3].
    apply orb_false_iff in Hs. destruct Hs as [H1 H2].
    rewrite H1, H2, H3. apply IH.
Qed.

(** X1. A string literal written through [escapeText] ends at the
    parenthesis the encoder writes after it, whatever the text: a reader of
    PDF literals gets the text back and continues right after that
    parenthesis. No parenthesis or backslash of the text can close the
    literal early or keep it open. *)
Theorem escaped_literal_ends_at_its_parenthesis (text rest : jsstring) :
  read_literal 0 (escapeText text ++ lit ")" ++ rest) [] = Some (text, rest).
Proof.
  rewrite escapeText_one_pass, read_literal_escaped.
  cbn [lit list_ascii_of_string map app read_literal].
  change (Z.of_N (N_of_ascii ")")) with rparen.
  change (rparen =? backslash) with false. change (rparen =? lparen) with false.
  change (rparen =? rparen) with true. cbn iota.
  rewrite app_nil_r, rev_involutive. reflexivity.
Qed.

Lemma escape_unit_length c :
  length (escape_unit c) = if is_special c then 2%nat else 1%nat.
Proof. unfold escape_unit. destruct (is_special c); reflexivity. Qed.

(** X2. [escapeText] adds one code unit for each backslash and parenthesis
    of the text and nothing else; it returns the text itself exactly when
    the text has none of them. *)
Theorem escapeText_length (text : jsstring) :
  length (escapeText text) = (length text + count_special text)%nat
  /\ (escapeText text = text <-> count_special text = 0%nat).
Proof.
  rewrite escapeText_one_pass. unfold count_special.
  assert (Hlen : length (flat_map escape_unit text)
                 = (length text + length (filter is_special text))%nat).
  { induction text as [|c text IH]; [reflexivity|].
    cbn [flat_map filter]. rewrite length_app, escape_unit_length, IH.
    destruct (is_special c); cbn [length]; lia. }
  split; [exact Hlen|]. split.
  - intros H. rewrite H in Hlen. lia.
  - intros H. clear Hlen. induction text as [|c text IH]; [reflexivity|].
    cbn [filter] in H. destruct (is_special c) eqn:Hs; [discriminate|].
    cbn [flat_map]. unfold escape_unit. rewrite Hs. cbn [app]. f_equal. apply IH, H.
Qed.

Lemma high_bit_not_special b : Z.testbit b 7 = true -> is_special b = false.
Proof.
  intros H. destruct (is_special b) eqn:Hs; [|reflexivity].
  apply is_special_cases in Hs. destruct Hs as [->|[->| ->]]; discriminate.
Qed.

Lemma lor_high_bit_not_special k x :
  Z.testbit k 7 = true -> is_special (Z.lor k x) = false.
Proof.
  intros H. apply high_bit_not_special. rewrite Z.lor_spec, H. reflexivity.
Qed.

Lemma escape_unit_plain c : is_special c = false -> escape_unit c = [c].
Proof. unfold escape_unit. now intros ->. Qed.

Lemma not_ascii_not_special c : (c <? 128) = false -> is_special c = false.
Proof.
  intros H. apply Z.ltb_ge in H. destruct (is_special c) eqn:Hs; [|reflexivity].
  apply is_special_cases in Hs. unfold backslash, lparen, rparen in Hs. lia.
Qed.

Lemma escape_bytes_utf8_2 c : flat_map escape_unit (utf8_2 c) = utf8_2 c.
Proof.
  unfold utf8_2. cbn [flat_map].
  rewrite !escape_unit_plain by (apply lor_high_bit_not_special; reflexivity).
  reflexivity.
Qed.

Lemma escape_bytes_utf8_3 c : flat_map escape_unit (utf8_3 c) = utf8_3 c.
Proof.
  unfold utf8_3. cbn [flat_map].
  rewrite !escape_unit_plain by (apply lor_high_bit_not_special; reflexivity).
  reflexivity.
Qed.

Lemma escape_bytes_utf8_4 c : flat_map escape_unit (utf8_4 c) = utf8_4 c.
Proof.
  unfold utf8_4. cbn [flat_map].
  rewrite !escape_unit_plain by (apply lor_high_bit_not_special; reflexivity).
  reflexivity.
Qed.

Lemma utf8_encode_escape_unit c rest :
  (c <? 128) = true ->
  utf8_encode (escape_unit c ++ rest) = escape_unit c ++ utf8_encode rest.
Proof.
  intros H. unfold escape_unit. destruct (is_special c); cbn [app utf8_encode].
  - change (backslash <? 128) with true. cbn iota. rewrite H. reflexivity.
  - rewrite H. reflexivity.
Qed.

Lemma escape_unit_head_not_low d rest :
  is_low_surrogate d = false ->
  safe_head (escape_unit d ++ rest) = true.
Proof.
  intros H. unfold escape_unit. destruct (is_special d); cbn [app safe_head].
  - reflexivity.
  - now rewrite H.
Qed.

Lemma low_surrogate_not_special d : is_low_surrogate d = true -> is_special d = false.
Proof.
  intros H. unfold is_low_surrogate in H. apply andb_true_iff in H.
  destruct H as [H _]. apply Z.leb_le in H.
  apply not_ascii_not_special. apply Z.ltb_ge. lia.
Qed.

Lemma utf8_encode_escaped_bounded n : forall s,
  (length s <= n)%nat ->
  utf8_encode (flat_map escape_unit s) = flat_map escape_unit (utf8_encode s).
Proof.
  induction n as [|n IH]; intros s Hlen.
  - destruct s; [reflexivity | cbn in Hlen; lia].
  - destruct s as [|c s]; [reflexivity|]. cbn [length] in Hlen.
    cbn [flat_map utf8_encode].
    destruct (c <? 128) eqn:H1.
    { rewrite utf8_encode_escape_unit by exact H1. rewrite IH by lia. reflexivity. }
    rewrite (escape_unit_plain c) by (apply not_ascii_not_special, H1).
    cbn [app utf8_encode]. rewrite H1.
    destruct (c <? 2048).
    { rewrite flat_map_app, escape_bytes_utf8_2, IH by lia. reflexivity. }
    destruct (is_high_surrogate c).
    + destruct s as [|d s].
      * reflexivity.
      * cbn [flat_map length] in *. destruct (is_low_surrogate d) eqn:Hd.
        -- rewrite (escape_unit_plain d) by (apply low_surrogate_not_special, Hd).
           cbn [app]. rewrite Hd, flat_map_app, escape_bytes_utf8_4, IH by lia.
           reflexivity.
        -- pose proof (escape_unit_head_not_low d (flat_map escape_unit s) Hd) as Hh.
           destruct (escape_unit d ++ flat_map escape_unit s) as [|e t] eqn:Et.
           { exfalso. unfold escape_unit in Et. destruct (is_special d); discriminate. }
           cbn [safe_head] in Hh. apply negb_true_iff in Hh. rewrite Hh.
           rewrite <- Et. change (escape_unit d ++ flat_map escape_unit s)
             with (flat_map escape_unit (d :: s)).
           rewrite IH by (cbn [length]; lia). reflexivity.
    + destruct (is_low_surrogate c).
      * rewrite IH by lia. reflexivity.
      * rewrite flat_map_app, escape_bytes_utf8_3, IH by lia. reflexivity.
Qed.

(** Escaping and encoding commute: the bytes of an escaped text are the
    escaped bytes of the text. *)
Lemma utf8_encode_escapeText text :
  utf8_encode (escapeText text) = flat_map escape_unit (utf8_encode text).
Proof.
  rewrite escapeText_one_pass. apply (utf8_encode_escaped_bounded (length text)). lia.
Qed.

(** X3. In the bytes of the output too a literal written through
    [escapeText] ends at its own parenthesis: a reader of the bytes that
    follow the opening parenthesis gets the UTF-8 encoding of the text and
    continues with the bytes of what the encoder wrote next. *)
Theorem escaped_literal_bytes (text rest : jsstring) :
  utf8_encode (lit "(" ++ escapeText text ++ lit ")" ++ rest)
  = lit "(" ++ utf8_encode (escapeText text) ++ lit ")" ++ utf8_encode rest
  /\ read_literal 0 (utf8_encode (escapeText text) ++ lit ")" ++ utf8_encode rest) []
     = Some (utf8_encode text, utf8_encode rest)
  /\ unescape (utf8_encode (escapeText text)) = utf8_encode text.
Proof.
  split; [|split].
  - rewrite (utf8_encode_ascii_app (lit "(")) by reflexivity.
    rewrite (utf8_encode_app (escapeText text)) by reflexivity. reflexivity.
  - rewrite utf8_encode_escapeText, read_literal_escaped.
    cbn [lit list_ascii_of_string map app read_literal].
    change (Z.of_N (N_of_ascii ")")) with rparen.
    change (rparen =? backslash) with false. change (rparen =? lparen) with false.
    change (rparen =? rparen) with true. cbn iota.
    rewrite app_nil_r, rev_involutive. reflexivity.
  - rewrite utf8_encode_escapeText.
    induction (utf8_encode text) as [|b bytes IH]; [reflexivity|].
    cbn [flat_map]. rewrite unescape_escape_unit, IH. reflexivity.
Qed.
(* ================================================================== *)
(** ** The code units and the bytes of the output *)
(* ================================================================== *)

Lemma frac_digits_digits fuel : forall r d,
  0 <= r < d -> forallb is_digit (frac_digits fuel r d) = true.
Proof.
  induction fuel as [|fuel IH]; intros r d H; [reflexivity|].
  cbn [frac_digits]. destruct (r =? 0); [reflexivity|].
  cbn [forallb]. rewrite IH by (apply Z.mod_pos_bound; lia).
  rewrite is_digit_digit_unit; [reflexivity|].
  split; [apply Z.div_pos; lia|].
  assert (10 * r / d < 10) by (apply Z.div_lt_upper_bound; lia). lia.
Qed.

Lemma number_to_string_ascii x : ascii_only (number_to_string x) = true.
Proof.
  unfold number_to_string. rewrite !ascii_only_app, nat_digits_ascii.
  assert (Hr : 0 <= Z.abs (Qnum x) mod Z.pos (Qden x) < Z.pos (Qden x))
    by (apply Z.mod_pos_bound; lia).
  destruct (Qnum x <? 0); destruct (Z.abs (Qnum x) mod Z.pos (Qden x) =? 0);
    cbn [andb]; try reflexivity;
    rewrite ascii_only_app, (forallb_digit_ascii _ (frac_digits_digits 20 _ _ Hr));
    reflexivity.
Qed.

Lemma ascii_only_Forall (P : Z -> Prop) s :
  (forall c, is_ascii c = true -> P c) -> ascii_only s = true -> Forall P s.
Proof.
  intros HP H. apply Forall_forall. intros c Hc. apply HP.
  unfold ascii_only in H. rewrite forallb_forall in H. apply H, Hc.
Qed.

Section Units.

Variable P : Z -> Prop.
Hypothesis P_ascii : forall c, is_ascii c = true -> P c.

Lemma escapeText_Forall text : Forall P text -> Forall P (escapeText text).
Proof.
  rewrite escapeText_one_pass. induction 1 as [|c text Hc _ IH]; [constructor|].
  cbn [flat_map]. apply Forall_app. split; [|exact IH].
  unfold escape_unit. destruct (is_special c); repeat constructor; try assumption.
  apply P_ascii. reflexivity.
Qed.

Lemma join_Forall sep lines :
  Forall P sep -> Forall (Forall P) lines -> Forall P (join sep lines).
Proof.
  intros Hsep. induction 1 as [|l lines Hl Hlines IH]; [constructor|].
  destruct lines as [|l' lines]; [exact Hl|].
  change (join sep (l :: l' :: lines)) with (l ++ sep ++ join sep (l' :: lines)).
  repeat (apply Forall_app; split); assumption.
Qed.

Lemma literal_line_Forall text :
  Forall P text -> Forall P (lit "(" ++ escapeText text ++ lit ") Tj").
Proof.
  intros H. repeat (apply Forall_app; split).
  - apply ascii_only_Forall; [exact P_ascii | reflexivity].
  - apply escapeText_Forall, H.
  - apply ascii_only_Forall; [exact P_ascii | reflexivity].
Qed.

Lemma number_to_string_Forall x : Forall P (number_to_string x).
Proof. apply ascii_only_Forall; [exact P_ascii | apply number_to_string_ascii]. Qed.

Lemma int_to_string_Forall n : Forall P (int_to_string n).
Proof. apply ascii_only_Forall; [exact P_ascii | apply int_to_string_ascii]. Qed.

Ltac units :=
  repeat first
    [ assumption
    | apply Forall_nil
    | match goal with
      | |- Forall P (lit _) => apply ascii_only_Forall; [exact P_ascii | reflexivity]
      | |- Forall P nl => apply ascii_only_Forall; [exact P_ascii | reflexivity]
      | |- Forall P (num _) => apply number_to_string_Forall
      | |- Forall P (int_to_string _) => apply int_to_string_Forall
      | |- Forall P (escapeText _) => apply escapeText_Forall
      | |- Forall P (_ ++ _) => apply Forall_app; split
      | |- Forall (Forall P) (_ ++ _) => apply Forall_app; split
      | |- Forall (Forall P) (_ :: _) => apply Forall_cons
      end ].

Variable data : CertificateRequest.
Hypothesis name_units : Forall P (name data).
Hypothesis course_units : Forall P (course data).
Hypothesis date_units : Forall P (date data).
Hypothesis id_units : Forall P (certificate_id data).

Lemma contentLines_Forall : Forall (Forall P) (contentLines data).
Proof.
  unfold contentLines, text_block, dateLabel, idLabel, certLabel, ofLabel, certifyText,
    completedText, brandLabel.
  units.
Qed.

Lemma contentStream_Forall : Forall P (contentStream data).
Proof.
  apply join_Forall; [|apply contentLines_Forall].
  apply ascii_only_Forall; [exact P_ascii | reflexivity].
Qed.

Lemma layout_Forall objs : Forall (Forall P) objs -> Forall P (layout objs).
Proof.
  induction 1 as [|obj objs Hobj _ IH]; [constructor|].
  rewrite layout_cons. units.
Qed.

Lemma objects_Forall : Forall (Forall P) (objects (build_objects data)).
Proof.
  rewrite build_objects_numbered.
  unfold object_bodies, numbered, catalog_body, pages_body, page_body, stream_body,
    font_body.
  pose proof contentStream_Forall. units.
Qed.

Lemma xref_entry_Forall o : Forall P (xref_entry o).
Proof. apply ascii_only_Forall; [exact P_ascii | apply xref_entry_ascii]. Qed.

(** Every code unit of the text of the file is an ASCII character or comes
    from one of the four fields. *)
Lemma pdf_text_Forall : Forall P (pdf_text data).
Proof.
  rewrite pdf_text_layout. apply Forall_app. split.
  { apply ascii_only_Forall; [exact P_ascii | reflexivity]. }
  apply Forall_app. split; [apply layout_Forall, objects_Forall|].
  rewrite app_assoc. apply Forall_app. split.
  - apply ascii_only_Forall; [exact P_ascii | apply xref_section_ascii].
  - apply ascii_only_Forall; [exact P_ascii | apply trailer_ascii].
Qed.

End Units.

Lemma Forall_ascii_only s : Forall (fun c => is_ascii c = true) s -> ascii_only s = true.
Proof. intros H. apply forallb_forall. apply Forall_forall, H. Qed.

Lemma ascii_only_Forall_ascii s : ascii_only s = true -> Forall (fun c => is_ascii c = true) s.
Proof. apply ascii_only_Forall. auto. Qed.

(** X4. When the four fields are ASCII the file is ASCII: the buffer holds
    the code units of the text as they are, every recorded offset is the
    number of characters written before the object, and [/Length] is the
    number of characters of the content stream. *)
Theorem ascii_fields_give_ascii_file (data : CertificateRequest) :
  ascii_only (name data) = true -> ascii_only (course data) = true ->
  ascii_only (date data) = true -> ascii_only (certificate_id data) = true ->
  generateCertificatePDF data = pdf_text data
  /\ ascii_only (generateCertificatePDF data) = true
  /\ length (streamBytes data) = length (contentStream data)
  /\ (forall k o, nth_error (object_offsets data) k = Some o ->
        o = Z.of_nat (length (text_before data k))).
Proof.
  intros Hn Hc Hd Hi.
  apply ascii_only_Forall_ascii in Hn, Hc, Hd, Hi.
  assert (Hascii : forall c, is_ascii c = true -> is_ascii c = true) by auto.
  pose proof (pdf_text_Forall _ Hascii data Hn Hc Hd Hi) as Htext.
  pose proof (contentStream_Forall _ Hascii data Hn Hc Hd Hi) as Hstream.
  pose proof (objects_Forall _ Hascii data Hn Hc Hd Hi) as Hobjs.
  apply Forall_ascii_only in Htext, Hstream.
  assert (Hbuf : generateCertificatePDF data = pdf_text data)
    by (unfold generateCertificatePDF; apply utf8_encode_ascii, Htext).
  split; [exact Hbuf|]. split; [rewrite Hbuf; exact Htext|].
  split; [unfold streamBytes; now rewrite utf8_encode_ascii|].
  intros k o Ho.
  assert (Hk : (k < 7)%nat).
  { rewrite <- (object_offsets_length data). apply nth_error_Some. congruence. }
  rewrite object_offset_bytes in Ho by exact Hk. apply Some_eq in Ho. subst o.
  rewrite <- utf8_encode_text_before. f_equal. f_equal.
  apply utf8_encode_ascii, Forall_ascii_only. unfold text_before.
  apply Forall_app. split; [apply ascii_only_Forall_ascii; reflexivity|].
  apply layout_Forall; [auto|]. apply Forall_forall. intros obj Hobj.
  rewrite Forall_forall in Hobjs. apply Hobjs.
  rewrite <- (firstn_skipn k (objects (build_objects data))).
  apply in_or_app. left. exact Hobj.
Qed.

Lemma lor_byte a b : is_byte a -> is_byte b -> is_byte (Z.lor a b).
Proof.
  unfold is_byte. intros Ha Hb. split; [apply Z.lor_nonneg; lia|].
  destruct (Z.eq_dec (Z.lor a b) 0) as [->|Hz]; [lia|].
  assert (H0 : 0 <= Z.lor a b) by (apply Z.lor_nonneg; lia).
  change 256 with (2 ^ 8). apply Z.log2_lt_pow2; [lia|].
  rewrite Z.log2_lor by lia.
  assert (La : Z.log2 a < 8).
  { destruct (Z.eq_dec a 0) as [->|]; [cbn; lia|]. apply Z.log2_lt_pow2; lia. }
  assert (Lb : Z.log2 b < 8).
  { destruct (Z.eq_dec b 0) as [->|]; [cbn; lia|]. apply Z.log2_lt_pow2; lia. }
  lia.
Qed.

Lemma continuation_byte x : is_byte (Z.lor 128 (Z.land x 63)).
Proof.
  apply lor_byte; [unfold is_byte; lia|].
  change 63 with (Z.ones 6). rewrite Z.land_ones by lia.
  pose proof (Z.mod_pos_bound x (2 ^ 6) ltac:(lia)). unfold is_byte.
  change (2 ^ 6) with 64 in *. lia.
Qed.

Lemma lead_byte k x n :
  is_byte k -> 0 <= n -> 0 <= x < 256 * 2 ^ n -> is_byte (Z.lor k (Z.shiftr x n)).
Proof.
  intros Hk Hn Hx. apply lor_byte; [exact Hk|].
  rewrite Z.shiftr_div_pow2 by lia. unfold is_byte.
  assert (0 < 2 ^ n) by (apply Z.pow_pos_nonneg; lia).
  split; [apply Z.div_pos; lia | apply Z.div_lt_upper_bound; lia].
Qed.

Lemma pair_code_point_bound hi lo :
  is_high_surrogate hi = true -> is_low_surrogate lo = true ->
  65536 <= pair_code_point hi lo < 1114112.
Proof.
  unfold is_high_surrogate, is_low_surrogate, pair_code_point.
  intros Hh Hl. apply andb_true_iff in Hh, Hl.
  destruct Hh as [H1 H2], Hl as [H3 H4]. apply Z.leb_le in H1, H2, H3, H4.
  rewrite Z.shiftl_mul_pow2 by lia. change (2 ^ 10) with 1024. lia.
Qed.

(** The encoder writes bytes, for code units of sixteen bits. *)
Lemma utf8_encode_bytes_bounded n : forall s,
  (length s <= n)%nat -> wf_string s -> Forall is_byte (utf8_encode s).
Proof.
  induction n as [|n IH]; intros s Hlen Hwf.
  - destruct s; [constructor | cbn in Hlen; lia].
  - destruct s as [|c s]; [constructor|]. cbn [length] in Hlen.
    inversion Hwf as [|? ? Hc Hs]; subst. unfold wf_unit in Hc.
    cbn [utf8_encode].
    destruct (c <? 128) eqn:H1.
    { apply Z.ltb_lt in H1.
      apply Forall_cons; [unfold is_byte; lia | apply IH; [lia|exact Hs]]. }
    destruct (c <? 2048) eqn:H2.
    { apply Z.ltb_lt in H2. apply Forall_app. split; [|apply IH; [lia|exact Hs]].
      unfold utf8_2. repeat first [apply Forall_cons | apply Forall_nil];
        [|apply continuation_byte].
      apply lead_byte; [unfold is_byte; lia | lia | change (2 ^ 6) with 64; lia]. }
    assert (H3 : Forall is_byte (utf8_3 c)).
    { unfold utf8_3. repeat first [apply Forall_cons | apply Forall_nil];
        try apply continuation_byte.
      apply lead_byte; [unfold is_byte; lia | lia | change (2 ^ 12) with 4096; lia]. }
    assert (HR : Forall is_byte replacement_bytes)
      by (repeat first [apply Forall_cons | apply Forall_nil]; unfold is_byte; lia).
    destruct (is_high_surrogate c) eqn:Hh.
    + destruct s as [|d s]; [exact HR|].
      destruct (is_low_surrogate d) eqn:Hl.
      * apply Forall_app. split.
        -- pose proof (pair_code_point_bound c d Hh Hl) as Hcp.
           unfold utf8_4. repeat first [apply Forall_cons | apply Forall_nil];
             try apply continuation_byte.
           apply lead_byte; [unfold is_byte; lia | lia | change (2 ^ 18) with 262144; lia].
        -- apply IH; [cbn [length] in Hlen; lia|]. inversion Hs; assumption.
      * apply Forall_app. split; [exact HR | apply IH; [lia | exact Hs]].
    + destruct (is_low_surrogate c); apply Forall_app;
        (split; [assumption | apply IH; [lia | exact Hs]]).
Qed.

Lemma utf8_encode_bytes s : wf_string s -> Forall is_byte (utf8_encode s).
Proof. apply (utf8_encode_bytes_bounded (length s)). lia. Qed.

(** X5. When the four fields are strings of 16-bit code units, every
    element of the returned buffer is a byte. *)
Theorem output_is_bytes (data : CertificateRequest) :
  wf_string (name data) -> wf_string (course data) ->
  wf_string (date data) -> wf_string (certificate_id data) ->
  Forall (fun b => 0 <= b < 256) (generateCertificatePDF data).
Proof.
  intros Hn Hc Hd Hi. apply utf8_encode_bytes. unfold wf_string.
  apply pdf_text_Forall; try assumption.
  intros c H. unfold is_ascii in H. apply andb_true_iff in H.
  destruct H as [H1 H2]. apply Z.leb_le in H1. apply Z.ltb_lt in H2.
  unfold wf_unit. lia.
Qed.

Lemma ascii_fields_give_ascii_file_witness :
  ascii_only (generateCertificatePDF alice) = true.
Proof.
  exact (proj1 (proj2 (ascii_fields_give_ascii_file alice
                         eq_refl eq_refl eq_refl eq_refl))).
Defined.

Lemma wf_string_check s :
  forallb (fun c => (0 <=? c) && (c <? 65536)) s = true -> wf_string s.
Proof.
  intros H. apply Forall_forall. intros c Hc.
  rewrite forallb_forall in H. specialize (H c Hc).
  apply andb_true_iff in H. destruct H as [H1 H2].
  apply Z.leb_le in H1. apply Z.ltb_lt in H2. split; assumption.
Qed.

Lemma output_is_bytes_witness :
  Forall (fun b => 0 <= b < 256) (generateCertificatePDF zoe).
Proof. apply output_is_bytes; apply wf_string_check; reflexivity. Defined.
(* ================================================================== *)
(** ** The string literals of the emitted content stream *)
(* ================================================================== *)

Lemma scan_plain p : no_lparen p = true -> reads_as p [].
Proof.
  unfold reads_as, no_lparen. induction p as [|c p IH]; intros H rest.
  - cbn [app]. destruct (scan_literals Outside rest); reflexivity.
  - cbn [forallb] in H. apply andb_true_iff in H. destruct H as [Hc Hp].
    apply negb_true_iff in Hc. cbn [app scan_literals]. rewrite Hc. apply IH, Hp.
Qed.

Lemma scan_escaped t : forall acc rest,
  scan_literals (Inside 0 acc) (flat_map escape_unit t ++ rparen :: rest)
  = option_map (cons (rev acc ++ t)) (scan_literals Outside rest).
Proof.
  induction t as [|c t IH]; intros acc rest.
  - cbn [flat_map app scan_literals]. change (rparen =? backslash) with false.
    change (rparen =? lparen) with false. change (rparen =? rparen) with true.
    cbn iota. now rewrite app_nil_r.
  - cbn [flat_map]. unfold escape_unit at 1. destruct (is_special c) eqn:Hs.
    + cbn [app scan_literals]. change (backslash =? backslash) with true. cbn iota.
      rewrite Hs. rewrite IH. cbn [rev]. now rewrite <- app_assoc.
    + cbn [app scan_literals]. unfold is_special in Hs.
      apply orb_false_iff in Hs. destruct Hs as [Hs H3].
      apply orb_false_iff in Hs. destruct Hs as [H1 H2].
      rewrite H1, H2, H3. rewrite IH. cbn [rev]. now rewrite <- app_assoc.
Qed.

Lemma reads_as_literal t tail :
  no_lparen tail = true ->
  reads_as (lit "(" ++ flat_map escape_unit t ++ lit ")" ++ tail) [t].
Proof.
  intros Htail rest. change (lit "(") with [lparen]. change (lit ")") with [rparen].
  rewrite <- !app_assoc. cbn [app scan_literals]. change (lparen =? lparen) with true.
  cbn iota. rewrite scan_escaped. cbn [rev app].
  rewrite (scan_plain tail Htail rest).
  destruct (scan_literals Outside rest); reflexivity.
Qed.

Lemma reads_as_line t :
  reads_as (lit "(" ++ escapeText t ++ lit ") Tj") [t].
Proof.
  rewrite escapeText_one_pass.
  apply (reads_as_literal t (lit " Tj")). reflexivity.
Qed.

Lemma reads_as_app a b ta tb :
  reads_as a ta -> reads_as b tb -> reads_as (a ++ b) (ta ++ tb).
Proof.
  intros Ha Hb rest. rewrite <- app_assoc, Ha, Hb.
  destruct (scan_literals Outside rest); cbn [option_map]; [|reflexivity].
  now rewrite app_assoc.
Qed.

Lemma reads_as_join_cons l lines t ts :
  lines <> [] -> reads_as l t -> reads_as (join nl lines) ts ->
  reads_as (join nl (l :: lines)) (t ++ ts).
Proof.
  intros Hne Hl Hls. destruct lines as [|l' lines]; [contradiction|].
  change (join nl (l :: l' :: lines)) with (l ++ nl ++ join nl (l' :: lines)).
  apply reads_as_app; [exact Hl|].
  change ts with ([] ++ ts). apply reads_as_app; [|exact Hls].
  apply scan_plain. reflexivity.
Qed.

Lemma reads_as_join_one l t : reads_as l t -> reads_as (join nl [l]) t.
Proof. exact (fun H => H). Qed.

Lemma is_digit_no_lparen s : forallb is_digit s = true -> no_lparen s = true.
Proof.
  intros H. apply forallb_forall. intros c Hc. rewrite forallb_forall in H.
  specialize (H c Hc). unfold is_digit in H. apply andb_true_iff in H.
  destruct H as [H _]. apply Z.leb_le in H. apply negb_true_iff, Z.eqb_neq.
  unfold lparen. lia.
Qed.

Lemma no_lparen_app a b : no_lparen (a ++ b) = no_lparen a && no_lparen b.
Proof. apply forallb_app. Qed.

Lemma number_to_string_no_lparen x : no_lparen (number_to_string x) = true.
Proof.
  unfold number_to_string. rewrite !no_lparen_app.
  rewrite (is_digit_no_lparen _ (nat_digits_digits _)).
  assert (Hr : 0 <= Z.abs (Qnum x) mod Z.pos (Qden x) < Z.pos (Qden x))
    by (apply Z.mod_pos_bound; lia).
  destruct (Qnum x <? 0); destruct (Z.abs (Qnum x) mod Z.pos (Qden x) =? 0);
    cbn [andb]; try reflexivity;
    rewrite no_lparen_app, (is_digit_no_lparen _ (frac_digits_digits 20 _ _ Hr));
    reflexivity.
Qed.

Ltac plain_line :=
  apply scan_plain;
  repeat (rewrite no_lparen_app);
  repeat (rewrite number_to_string_no_lparen);
  reflexivity.

Ltac stream_line :=
  first
    [ apply reads_as_line
    | match goal with
      | |- reads_as (lit "(Authorized Signature) Tj") _ =>
          exact (reads_as_line (lit "Authorized Signature"))
      | |- reads_as (lit "(Program Director) Tj") _ =>
          exact (reads_as_line (lit "Program Director"))
      end
    | plain_line ].

Lemma contentStream_reads_as data :
  reads_as (contentStream data) (stream_texts data).
Proof.
  unfold contentStream.
  assert (H : exists texts, reads_as
     (join nl (contentLines data)) texts /\ texts = stream_texts data).
  { unfold contentLines, text_block. cbn [app]. eexists. split.
    - repeat (apply reads_as_join_cons; [discriminate | unfold num; stream_line |]).
      apply reads_as_join_one. unfold num. stream_line.
    - reflexivity. }
  destruct H as (texts & H & ->). exact H.
Qed.

Lemma utf8_encode_join_nl lines :
  utf8_encode (join nl lines) = join nl (map utf8_encode lines).
Proof.
  induction lines as [|l lines IH]; [reflexivity|].
  destruct lines as [|l' lines]; [reflexivity|].
  change (join nl (l :: l' :: lines)) with (l ++ nl ++ join nl (l' :: lines)).
  rewrite utf8_encode_app by reflexivity.
  rewrite utf8_encode_nl_app, IH. reflexivity.
Qed.

Lemma utf8_encode_literal_line t :
  utf8_encode (lit "(" ++ escapeText t ++ lit ") Tj")
  = lit "(" ++ flat_map escape_unit (utf8_encode t) ++ lit ")" ++ lit " Tj".
Proof.
  rewrite utf8_encode_ascii_app by reflexivity.
  rewrite utf8_encode_app by reflexivity.
  rewrite utf8_encode_escapeText. reflexivity.
Qed.

Lemma reads_as_line_bytes t :
  reads_as (utf8_encode (lit "(" ++ escapeText t ++ lit ") Tj")) [utf8_encode t].
Proof.
  rewrite utf8_encode_literal_line.
  apply (reads_as_literal (utf8_encode t) (lit " Tj")). reflexivity.
Qed.

Lemma reads_as_plain_bytes l :
  ascii_only l = true -> no_lparen l = true -> reads_as (utf8_encode l) [].
Proof.
  intros Ha Hp. rewrite (utf8_encode_ascii l Ha). apply scan_plain, Hp.
Qed.

Ltac plain_bytes :=
  apply reads_as_plain_bytes;
  [ repeat (rewrite ascii_only_app); repeat (rewrite number_to_string_ascii); reflexivity
  | repeat (rewrite no_lparen_app); repeat (rewrite number_to_string_no_lparen);
    reflexivity ].

Ltac stream_bytes_line :=
  first
    [ apply reads_as_line_bytes
    | match goal with
      | |- reads_as (utf8_encode (lit "(Authorized Signature) Tj")) _ =>
          exact (reads_as_line_bytes (lit "Authorized Signature"))
      | |- reads_as (utf8_encode (lit "(Program Director) Tj")) _ =>
          exact (reads_as_line_bytes (lit "Program Director"))
      end
    | plain_bytes ].

Lemma streamBytes_reads_as data :
  reads_as (utf8_encode (contentStream data)) (map utf8_encode (stream_texts data)).
Proof.
  unfold contentStream. rewrite utf8_encode_join_nl.
  assert (H : exists texts,
             reads_as (join nl (map utf8_encode (contentLines data))) texts
             /\ texts = map utf8_encode (stream_texts data)).
  { unfold contentLines, text_block. cbn [app map]. eexists. split.
    - repeat (apply reads_as_join_cons;
              [discriminate | unfold num; stream_bytes_line |]).
      apply reads_as_join_one. unfold num. stream_bytes_line.
    - reflexivity. }
  destruct H as (texts & H & ->). exact H.
Qed.

Lemma land_disjoint k b n :
  0 <= n -> 0 <= b < 2 ^ n -> Z.land (k * 2 ^ n) b = 0.
Proof.
  intros Hn Hb. apply Z.bits_inj'. intros i Hi.
  rewrite Z.land_spec, Z.bits_0.
  destruct (Z.ltb_spec i n) as [Hlt | Hge].
  - rewrite Z.mul_pow2_bits_low by lia. reflexivity.
  - assert (Hbit : Z.testbit b i = false).
    { destruct (Z.eq_dec b 0) as [->|Hb0]; [apply Z.bits_0|].
      apply Z.bits_above_log2; [lia|].
      assert (Z.log2 b < n) by (apply Z.log2_lt_pow2; lia). lia. }
    rewrite Hbit. apply andb_false_r.
Qed.

Lemma lor_disjoint k b n :
  0 <= n -> 0 <= b < 2 ^ n -> Z.lor (k * 2 ^ n) b = k * 2 ^ n + b.
Proof.
  intros Hn Hb. rewrite <- (Z.add_lor_land (k * 2 ^ n) b).
  rewrite (land_disjoint k b n Hn Hb). lia.
Qed.

Lemma continuation_value x :
  Z.lor 128 (Z.land x 63) = 128 + x mod 64.
Proof.
  change 63 with (Z.ones 6). rewrite Z.land_ones by lia. change (2 ^ 6) with 64.
  pose proof (Z.mod_pos_bound x 64 ltac:(lia)).
  apply (lor_disjoint 1 (x mod 64) 7); [lia|]. change (2 ^ 7) with 128. lia.
Qed.

Lemma lead_value k m x n :
  0 <= m -> 0 <= n -> 0 <= x < 2 ^ m * 2 ^ n ->
  Z.lor (k * 2 ^ m) (Z.shiftr x n) = k * 2 ^ m + x / 2 ^ n.
Proof.
  intros Hm Hn Hx. rewrite Z.shiftr_div_pow2 by lia.
  assert (0 < 2 ^ n) by (apply Z.pow_pos_nonneg; lia).
  apply (lor_disjoint k (x / 2 ^ n) m); [lia|].
  split; [apply Z.div_pos; lia | apply Z.div_lt_upper_bound; lia].
Qed.

Lemma utf8_2_value c :
  128 <= c < 2048 -> utf8_2 c = [192 + c / 64; 128 + c mod 64].
Proof.
  intros Hc. unfold utf8_2. rewrite continuation_value.
  pose proof (lead_value 6 5 c 6 ltac:(lia) ltac:(lia)
                ltac:(change (2 ^ 5 * 2 ^ 6) with 2048; lia)) as H.
  change (6 * 2 ^ 5) with 192 in H. change (2 ^ 6) with 64 in H. rewrite H.
  reflexivity.
Qed.

Lemma utf8_3_value c :
  2048 <= c < 65536 ->
  utf8_3 c = [224 + c / 4096; 128 + (c / 64) mod 64; 128 + c mod 64].
Proof.
  intros Hc. unfold utf8_3. rewrite !continuation_value.
  pose proof (lead_value 14 4 c 12 ltac:(lia) ltac:(lia)
                ltac:(change (2 ^ 4 * 2 ^ 12) with 65536; lia)) as H.
  change (14 * 2 ^ 4) with 224 in H. change (2 ^ 12) with 4096 in H. rewrite H.
  rewrite Z.shiftr_div_pow2 by lia. reflexivity.
Qed.

Lemma utf8_4_value cp :
  65536 <= cp < 1114112 ->
  utf8_4 cp = [240 + cp / 262144; 128 + (cp / 4096) mod 64;
               128 + (cp / 64) mod 64; 128 + cp mod 64].
Proof.
  intros Hc. unfold utf8_4. rewrite !continuation_value.
  pose proof (lead_value 30 3 cp 18 ltac:(lia) ltac:(lia)
                ltac:(change (2 ^ 3 * 2 ^ 18) with 2097152; lia)) as H.
  change (30 * 2 ^ 3) with 240 in H. change (2 ^ 18) with 262144 in H. rewrite H.
  rewrite !Z.shiftr_div_pow2 by lia. reflexivity.
Qed.

Lemma option_map_Some {A B} (f : A -> B) o a : o = Some a -> option_map f o = Some (f a).
Proof. intros ->. reflexivity. Qed.

Lemma utf8_decode_encode_bounded n : forall s,
  (length s <= n)%nat -> well_paired s = true -> utf8_decode (utf8_encode s) = Some s.
Proof.
  induction n as [|n IH]; intros s Hlen Hwp.
  - destruct s; [reflexivity | cbn in Hlen; lia].
  - destruct s as [|c s]; [reflexivity|]. cbn [length] in Hlen.
    cbn [well_paired] in Hwp. cbn [utf8_encode].
    destruct (Z.ltb_spec c 128) as [H1|H1].
    { assert (Hs : well_paired s = true).
      { destruct (is_high_surrogate c) eqn:Hh.
        - unfold is_high_surrogate in Hh. apply andb_true_iff in Hh.
          destruct Hh as [Hh _]. apply Z.leb_le in Hh. lia.
        - apply andb_true_iff in Hwp. tauto. }
      cbn [utf8_decode]. destruct (Z.ltb_spec c 128); [|lia].
      apply option_map_Some, IH; [lia | exact Hs]. }
    destruct (Z.ltb_spec c 2048) as [H2|H2].
    { assert (Hs : well_paired s = true).
      { destruct (is_high_surrogate c) eqn:Hh.
        - unfold is_high_surrogate in Hh. apply andb_true_iff in Hh.
          destruct Hh as [Hh _]. apply Z.leb_le in Hh. lia.
        - apply andb_true_iff in Hwp. tauto. }
      rewrite utf8_2_value by lia. cbn [app utf8_decode].
      pose proof (Z.mod_pos_bound c 64 ltac:(lia)) as Hm.
      assert (Hq : 2 <= c / 64 < 32).
      { split; [apply Z.div_le_lower_bound; lia | apply Z.div_lt_upper_bound; lia]. }
      destruct (Z.ltb_spec (192 + c / 64) 128); [lia|].
      destruct (Z.ltb_spec (192 + c / 64) 192); [lia|].
      destruct (Z.ltb_spec (192 + c / 64) 224); [|lia].
      unfold is_continuation.
      destruct (Z.leb_spec 128 (128 + c mod 64)); [|lia].
      destruct (Z.ltb_spec (128 + c mod 64) 192); [|lia]. cbn [andb].
      rewrite (IH s ltac:(lia) Hs). cbn [option_map]. do 2 f_equal.
      pose proof (Z.div_mod c 64 ltac:(lia)). lia. }
    destruct (is_high_surrogate c) eqn:Hh.
    + destruct s as [|d s]; [discriminate|].
      apply andb_true_iff in Hwp. destruct Hwp as [Hl Hs]. rewrite Hl.
      pose proof (pair_code_point_bound c d Hh Hl) as Hcp.
      rewrite utf8_4_value by exact Hcp.
      set (cp := pair_code_point c d) in *.
      cbn [app utf8_decode].
      pose proof (Z.mod_pos_bound cp 64 ltac:(lia)) as Hm0.
      pose proof (Z.mod_pos_bound (cp / 64) 64 ltac:(lia)) as Hm1.
      pose proof (Z.mod_pos_bound (cp / 4096) 64 ltac:(lia)) as Hm2.
      assert (Hq : 0 <= cp / 262144 < 8).
      { split; [apply Z.div_pos; lia | apply Z.div_lt_upper_bound; lia]. }
      destruct (Z.ltb_spec (240 + cp / 262144) 128); [lia|].
      destruct (Z.ltb_spec (240 + cp / 262144) 192); [lia|].
      destruct (Z.ltb_spec (240 + cp / 262144) 224); [lia|].
      destruct (Z.ltb_spec (240 + cp / 262144) 240); [lia|].
      unfold is_continuation.
      destruct (Z.leb_spec 128 (128 + (cp / 4096) mod 64)); [|lia].
      destruct (Z.ltb_spec (128 + (cp / 4096) mod 64) 192); [|lia].
      destruct (Z.leb_spec 128 (128 + (cp / 64) mod 64)); [|lia].
      destruct (Z.ltb_spec (128 + (cp / 64) mod 64) 192); [|lia].
      destruct (Z.leb_spec 128 (128 + cp mod 64)); [|lia].
      destruct (Z.ltb_spec (128 + cp mod 64) 192); [|lia]. cbn [andb].
      rewrite (IH s ltac:(cbn [length] in Hlen; lia) Hs). cbn [option_map].
      assert (Hvalue : (240 + cp / 262144 - 240) * 262144
                       + (128 + (cp / 4096) mod 64 - 128) * 4096
                       + (128 + (cp / 64) mod 64 - 128) * 64
                       + (128 + cp mod 64 - 128) = cp).
      { pose proof (Z.div_mod cp 64 ltac:(lia)) as E0.
        pose proof (Z.div_mod (cp / 64) 64 ltac:(lia)) as E1.
        pose proof (Z.div_mod (cp / 4096) 64 ltac:(lia)) as E2.
        rewrite (Z.div_div cp 64 64) in E1 by lia. change (64 * 64) with 4096 in E1.
        rewrite (Z.div_div cp 4096 64) in E2 by lia.
        change (4096 * 64) with 262144 in E2. lia. }
      rewrite Hvalue.
      unfold is_high_surrogate, is_low_surrogate in Hh, Hl.
      apply andb_true_iff in Hh, Hl. destruct Hh as [Hh1 Hh2], Hl as [Hl1 Hl2].
      apply Z.leb_le in Hh1, Hh2, Hl1, Hl2.
      assert (Hcpv : cp - 65536 = (c - 55296) * 1024 + (d - 56320)).
      { unfold cp, pair_code_point. rewrite Z.shiftl_mul_pow2 by lia.
        change (2 ^ 10) with 1024. lia. }
      rewrite Hcpv.
      assert (Hdiv : ((c - 55296) * 1024 + (d - 56320)) / 1024 = c - 55296).
      { rewrite Z.div_add_l by lia. rewrite Z.div_small by lia. lia. }
      assert (Hmod : ((c - 55296) * 1024 + (d - 56320)) mod 1024 = d - 56320).
      { rewrite Z.add_comm, Z.mod_add by lia. apply Z.mod_small. lia. }
      rewrite Hdiv, Hmod. do 3 f_equal; lia.
    + apply andb_true_iff in Hwp. destruct Hwp as [Hwp Hs].
      apply andb_true_iff in Hwp. destruct Hwp as [Hwp Hnl].
      apply andb_true_iff in Hwp. destruct Hwp as [_ Hlt]. apply Z.ltb_lt in Hlt.
      apply negb_true_iff in Hnl. rewrite Hnl.
      rewrite utf8_3_value by lia. cbn [app utf8_decode].
      pose proof (Z.mod_pos_bound c 64 ltac:(lia)) as Hm0.
      pose proof (Z.mod_pos_bound (c / 64) 64 ltac:(lia)) as Hm1.
      assert (Hq : 0 <= c / 4096 < 16).
      { split; [apply Z.div_pos; lia | apply Z.div_lt_upper_bound; lia]. }
      destruct (Z.ltb_spec (224 + c / 4096) 128); [lia|].
      destruct (Z.ltb_spec (224 + c / 4096) 192); [lia|].
      destruct (Z.ltb_spec (224 + c / 4096) 224); [lia|].
      destruct (Z.ltb_spec (224 + c / 4096) 240); [|lia].
      unfold is_continuation.
      destruct (Z.leb_spec 128 (128 + (c / 64) mod 64)); [|lia].
      destruct (Z.ltb_spec (128 + (c / 64) mod 64) 192); [|lia].
      destruct (Z.leb_spec 128 (128 + c mod 64)); [|lia].
      destruct (Z.ltb_spec (128 + c mod 64) 192); [|lia]. cbn [andb].
      rewrite (IH s ltac:(lia) Hs). cbn [option_map]. do 2 f_equal.
      pose proof (Z.div_mod c 64 ltac:(lia)) as E0.
      pose proof (Z.div_mod (c / 64) 64 ltac:(lia)) as E1.
      rewrite (Z.div_div c 64 64) in E1 by lia. change (64 * 64) with 4096 in E1. lia.
Qed.

(** Decoding gives back a string in which every surrogate is paired. *)
Lemma utf8_decode_encode s :
  well_paired s = true -> utf8_decode (utf8_encode s) = Some s.
Proof. apply (utf8_decode_encode_bounded (length s)). lia. Qed.

(** A surrogate that has no partner is not restored: it was encoded as
    U+FFFD. *)
Lemma lone_surrogate_not_restored :
  utf8_decode (utf8_encode [0xD83D]) = Some [0xFFFD].
Proof. reflexivity. Qed.

Lemma well_paired_ascii_app a b :
  ascii_only a = true -> well_paired (a ++ b) = well_paired b.
Proof.
  induction a as [|c a IH]; intros H; [reflexivity|].
  cbn [ascii_only forallb] in H. apply andb_true_iff in H. destruct H as [Hc Ha].
  unfold is_ascii in Hc. apply andb_true_iff in Hc. destruct Hc as [H0 H1].
  apply Z.leb_le in H0. apply Z.ltb_lt in H1.
  cbn [app well_paired].
  assert (Hh : is_high_surrogate c = false).
  { unfold is_high_surrogate. apply andb_false_iff. left. apply Z.leb_gt. lia. }
  assert (Hl : is_low_surrogate c = false).
  { unfold is_low_surrogate. apply andb_false_iff. left. apply Z.leb_gt. lia. }
  rewrite Hh, Hl.
  destruct (Z.leb_spec 0 c); [|lia]. destruct (Z.ltb_spec c 65536); [|lia].
  cbn [andb negb]. apply IH, Ha.
Qed.

Lemma all_some_decode texts :
  Forall (fun t => well_paired t = true) texts ->
  all_some (map utf8_decode (map utf8_encode texts)) = Some texts.
Proof.
  induction 1 as [|t texts Ht _ IH]; [reflexivity|].
  cbn [map all_some]. rewrite (utf8_decode_encode t Ht), IH. reflexivity.
Qed.

Lemma stream_texts_well_paired data :
  well_paired (name data) = true -> well_paired (course data) = true ->
  well_paired (date data) = true -> well_paired (certificate_id data) = true ->
  Forall (fun t => well_paired t = true) (stream_texts data).
Proof.
  intros Hn Hc Hd Hi. unfold stream_texts, dateLabel, idLabel.
  repeat first [apply Forall_cons | apply Forall_nil];
    try assumption; try reflexivity;
    rewrite well_paired_ascii_app by reflexivity; assumption.
Qed.

Lemma course_line_in_stream data :
  exists before after,
    contentStream data
    = before ++ nl ++ (lit "(" ++ escapeText (course data) ++ lit ") Tj") ++ nl ++ after.
Proof.
  exists (join nl (firstn 56 (contentLines data))),
         (join nl (skipn 1 (skipn 56 (contentLines data)))).
  unfold contentStream.
  rewrite (firstn_skipn_middle (contentLines data) 56 1) at 1.
  assert (Hline : firstn 1 (skipn 56 (contentLines data))
                  = [lit "(" ++ escapeText (course data) ++ lit ") Tj"]) by reflexivity.
  rewrite Hline.
  rewrite join_app; [| discriminate | discriminate].
  rewrite join_app; [| discriminate | discriminate].
  cbn [join]. rewrite <- ?app_assoc. reflexivity.
Qed.

(** C4. [escapeText] doubles every backslash first and then puts a backslash
    before every parenthesis, which is one pass over the text; reversing the
    rule on what it returns gives back the text, so it is injective. The
    content stream that the encoder emits holds eleven string literals, and
    a reader of literals that reverses the rule gets from them the seven
    fixed texts and the four field texts exactly, in the order of the
    source, whatever the fields hold; the same reader gets from the bytes of
    the stream object in the returned buffer the UTF-8 encodings of these
    texts, which decode to the texts themselves when every surrogate of the
    fields belongs to a pair. The course [Intro (Basics)] is emitted as the
    line [(Intro \(Basics\)) Tj], in the text of the stream and in its
    bytes. *)
Theorem escapeText_round_trip :
  (forall text, escapeText text = flat_map escape_unit text)
  /\ (forall text, unescape (escapeText text) = text)
  /\ (forall a b, escapeText a = escapeText b -> a = b)
  /\ (forall data, content_literals (contentStream data) = Some (stream_texts data))
  /\ (forall data, exists offset declared,
        nth_error (object_offsets data) 3 = Some offset
        /\ read_stream (generateCertificatePDF data) offset
           = Some (declared, utf8_encode (contentStream data))
        /\ content_literals (utf8_encode (contentStream data))
           = Some (map utf8_encode (stream_texts data)))
  /\ (forall data,
        well_paired (name data) = true -> well_paired (course data) = true ->
        well_paired (date data) = true -> well_paired (certificate_id data) = true ->
        exists literals,
          content_literals (utf8_encode (contentStream data)) = Some literals
          /\ all_some (map utf8_decode literals) = Some (stream_texts data))
  /\ (forall data,
        In (lit "(" ++ escapeText (name data) ++ lit ") Tj") (contentLines data)
        /\ In (lit "(" ++ escapeText (course data) ++ lit ") Tj") (contentLines data)
        /\ In (lit "(" ++ escapeText (lit "Completed on: " ++ date data) ++ lit ") Tj")
              (contentLines data)
        /\ In (lit "(" ++ escapeText (lit "Certificate ID: " ++ certificate_id data)
               ++ lit ") Tj") (contentLines data))
  /\ (forall data, course data = lit "Intro (Basics)" ->
        In (lit "(Intro \(Basics\)) Tj") (contentLines data)
        /\ exists before after,
             contentStream data
             = before ++ nl ++ lit "(Intro \(Basics\)) Tj" ++ nl ++ after
             /\ utf8_encode (contentStream data)
                = utf8_encode before ++ nl ++ lit "(Intro \(Basics\)) Tj" ++ nl
                  ++ utf8_encode after).
Proof.
  split; [exact escapeText_one_pass|].
  split; [exact unescape_escapeText|].
  split; [exact escapeText_injective|].
  split.
  { intros data. unfold content_literals.
    rewrite <- (app_nil_r (contentStream data)), (contentStream_reads_as data []).
    cbn [scan_literals option_map]. now rewrite app_nil_r. }
  split.
  { intros data. destruct (read_stream_output data) as (pre & Hoff & Hread).
    exists (Z.of_nat (length pre)), (byteLength (contentStream data)).
    split; [exact Hoff|]. split; [exact Hread|]. unfold content_literals.
    rewrite <- (app_nil_r (utf8_encode (contentStream data))),
      (streamBytes_reads_as data []).
    cbn [scan_literals option_map]. now rewrite app_nil_r. }
  split.
  { intros data Hn Hc Hd Hi. exists (map utf8_encode (stream_texts data)). split.
    - unfold content_literals.
      rewrite <- (app_nil_r (utf8_encode (contentStream data))),
        (streamBytes_reads_as data []).
      cbn [scan_literals option_map]. now rewrite app_nil_r.
    - apply all_some_decode, stream_texts_well_paired; assumption. }
  split.
  { intros data. repeat split.
    - exact (nth_error_In _ _ (name_literal_line data)).
    - exact (nth_error_In _ _ (course_literal_line data)).
    - exact (nth_error_In _ _ (date_literal_line data)).
    - exact (nth_error_In _ _ (id_literal_line data)). }
  intros data Hc. split.
  { pose proof (nth_error_In _ _ (course_literal_line data)) as H.
    rewrite Hc in H. exact H. }
  destruct (course_line_in_stream data) as (before & after & Hs).
  rewrite Hc in Hs.
  change (lit "(" ++ escapeText (lit "Intro (Basics)") ++ lit ") Tj")
    with (lit "(Intro \(Basics\)) Tj") in Hs.
  exists before, after. split; [exact Hs|].
  rewrite Hs. rewrite utf8_encode_app by reflexivity.
  rewrite utf8_encode_nl_app.
  rewrite (utf8_encode_ascii_app (lit "(Intro \(Basics\)) Tj")) by reflexivity.
  rewrite utf8_encode_nl_app. reflexivity.
Qed.

Lemma escapeText_round_trip_witness :
  (course zoe = lit "Intro (Basics)"
   /\ exists before after,
        contentStream zoe = before ++ nl ++ lit "(Intro \(Basics\)) Tj" ++ nl ++ after)
  /\ (well_paired (name alice) = true
      /\ exists literals,
           content_literals (utf8_encode (contentStream alice)) = Some literals
           /\ all_some (map utf8_decode literals) = Some (stream_texts alice)).
Proof.
  destruct escapeText_round_trip as (_ & _ & _ & _ & _ & Hbytes & _ & Hcourse).
  split.
  - split; [reflexivity|].
    destruct (Hcourse zoe eq_refl) as (_ & before & after & Hs & _).
    exists before, after. exact Hs.
  - split; [reflexivity|].
    exact (Hbytes alice eq_refl eq_refl eq_refl eq_refl).
Defined.
(* ================================================================== *)
(** ** From the handler to the download *)
(* ================================================================== *)

Lemma triple_ind (P : list Z -> Prop) :
  P [] -> (forall a, P [a]) -> (forall a b, P [a; b]) ->
  (forall a b c rest, P rest -> P (a :: b :: c :: rest)) ->
  forall l, P l.
Proof.
  intros H0 H1 H2 H3. fix IH 1.
  intros [|a [|b [|c rest]]]; [exact H0 | apply H1 | apply H2 | apply H3, IH].
Qed.

Lemma b64_index_char i : is_sextet i -> b64_index (b64_char i) = Some i.
Proof.
  unfold is_sextet, b64_index, b64_char. intros H.
  destruct (i <? 26) eqn:E1.
  { apply Z.ltb_lt in E1.
    replace ((65 <=? 65 + i) && (65 + i <=? 90)) with true
      by (symmetry; apply andb_true_iff; split; apply Z.leb_le; lia).
    f_equal. lia. }
  apply Z.ltb_ge in E1. destruct (i <? 52) eqn:E2.
  { apply Z.ltb_lt in E2.
    replace ((65 <=? 97 + (i - 26)) && (97 + (i - 26) <=? 90)) with false
      by (symmetry; apply andb_false_iff; right; apply Z.leb_gt; lia).
    replace ((97 <=? 97 + (i - 26)) && (97 + (i - 26) <=? 122)) with true
      by (symmetry; apply andb_true_iff; split; apply Z.leb_le; lia).
    f_equal. lia. }
  apply Z.ltb_ge in E2. destruct (i <? 62) eqn:E3.
  { apply Z.ltb_lt in E3.
    replace ((65 <=? 48 + (i - 52)) && (48 + (i - 52) <=? 90)) with false
      by (symmetry; apply andb_false_iff; left; apply Z.leb_gt; lia).
    replace ((97 <=? 48 + (i - 52)) && (48 + (i - 52) <=? 122)) with false
      by (symmetry; apply andb_false_iff; left; apply Z.leb_gt; lia).
    replace ((48 <=? 48 + (i - 52)) && (48 + (i - 52) <=? 57)) with true
      by (symmetry; apply andb_true_iff; split; apply Z.leb_le; lia).
    f_equal. lia. }
  apply Z.ltb_ge in E3.
  assert (Hi : i = 62 \/ i = 63) by lia. destruct Hi as [-> | ->]; reflexivity.
Qed.

Lemma b64_char_plain i :
  is_sextet i -> is_ascii_whitespace (b64_char i) = false /\ b64_char i <> 61.
Proof.
  unfold is_sextet, b64_char, is_ascii_whitespace. intros H.
  assert (Hr : 43 <= (if i <? 26 then 65 + i
                      else if i <? 52 then 97 + (i - 26)
                      else if i <? 62 then 48 + (i - 52)
                      else if i =? 62 then 43 else 47)
               /\ (if i <? 26 then 65 + i
                      else if i <? 52 then 97 + (i - 26)
                      else if i <? 62 then 48 + (i - 52)
                      else if i =? 62 then 43 else 47) <> 61).
  { destruct (i <? 26) eqn:E1; [apply Z.ltb_lt in E1; lia|].
    destruct (i <? 52) eqn:E2; [apply Z.ltb_lt in E2; lia|].
    destruct (i <? 62) eqn:E3; [apply Z.ltb_lt in E3; apply Z.ltb_ge in E2; lia|].
    destruct (i =? 62); lia. }
  destruct Hr as [Hge Hne]. split; [|exact Hne].
  repeat (apply orb_false_iff; split); apply Z.eqb_neq; lia.
Qed.

Lemma sextet_values_range bytes :
  Forall is_byte bytes -> Forall is_sextet (sextet_values bytes).
Proof.
  induction bytes as [| a | a b | a b c rest IH] using triple_ind; intros H.
  - constructor.
  - inversion H as [|? ? Ha _]; subst. unfold is_byte in Ha.
    cbn [sextet_values]. repeat first [apply Forall_cons | apply Forall_nil];
      unfold is_sextet; Z.div_mod_to_equations; lia.
  - inversion H as [|? ? Ha H']; subst. inversion H' as [|? ? Hb _]; subst.
    unfold is_byte in Ha, Hb.
    cbn [sextet_values]. repeat first [apply Forall_cons | apply Forall_nil];
      unfold is_sextet; Z.div_mod_to_equations; lia.
  - inversion H as [|? ? Ha H']; subst. inversion H' as [|? ? Hb H'']; subst.
    inversion H'' as [|? ? Hc Hrest]; subst. unfold is_byte in Ha, Hb, Hc.
    cbn [sextet_values].
    repeat first [apply Forall_cons | exact (IH Hrest)];
      unfold is_sextet; Z.div_mod_to_equations; lia.
Qed.

Lemma base64_sextets bytes :
  base64 bytes = map b64_char (sextet_values bytes) ++ b64_padding bytes.
Proof.
  induction bytes as [| a | a b | a b c rest IH] using triple_ind;
    try reflexivity.
  cbn [base64 sextet_values b64_padding map app]. now rewrite IH.
Qed.

Lemma decode_sextet_values bytes :
  Forall is_byte bytes -> decode_sextets (sextet_values bytes) = bytes.
Proof.
  induction bytes as [| a | a b | a b c rest IH] using triple_ind; intros H.
  - reflexivity.
  - inversion H as [|? ? Ha _]; subst. unfold is_byte in Ha.
    cbn [sextet_values decode_sextets]. f_equal. Z.div_mod_to_equations; lia.
  - inversion H as [|? ? Ha H']; subst. inversion H' as [|? ? Hb _]; subst.
    unfold is_byte in Ha, Hb. cbn [sextet_values decode_sextets].
    f_equal; [|f_equal]; Z.div_mod_to_equations; lia.
  - inversion H as [|? ? Ha H']; subst. inversion H' as [|? ? Hb H'']; subst.
    inversion H'' as [|? ? Hc Hrest]; subst. unfold is_byte in Ha, Hb, Hc.
    cbn [sextet_values decode_sextets]. rewrite (IH Hrest).
    f_equal; [|f_equal; [|f_equal]]; Z.div_mod_to_equations; lia.
Qed.

Lemma b64_indices_chars l :
  Forall is_sextet l -> b64_indices (map b64_char l) = Some l.
Proof.
  induction 1 as [|i l Hi _ IH]; [reflexivity|].
  cbn [map b64_indices]. now rewrite b64_index_char, IH.
Qed.

Lemma sextet_values_shape bytes :
  exists k : nat,
    (length (sextet_values bytes) = (4 * k)%nat /\ b64_padding bytes = [])
    \/ (length (sextet_values bytes) = (4 * k + 2)%nat /\ b64_padding bytes = [61; 61])
    \/ (length (sextet_values bytes) = (4 * k + 3)%nat /\ b64_padding bytes = [61]).
Proof.
  induction bytes as [| a | a b | a b c rest IH] using triple_ind.
  - exists 0%nat. left. split; reflexivity.
  - exists 0%nat. right. left. split; reflexivity.
  - exists 0%nat. right. right. split; reflexivity.
  - destruct IH as [k IH]. exists (S k). cbn [sextet_values b64_padding length].
    destruct IH as [[H1 H2] | [[H1 H2] | [H1 H2]]]; rewrite H1, H2;
      [left | right; left | right; right]; split; try reflexivity; lia.
Qed.

Lemma mod4_of_shape k r : (r < 4)%nat -> ((4 * k + r) mod 4 = r)%nat.
Proof.
  intros H. rewrite Nat.add_comm, Nat.mul_comm, Nat.Div0.mod_add.
  apply Nat.mod_small, H.
Qed.

Lemma rev_head_in {A} (l : list A) x r : rev l = x :: r -> In x l.
Proof.
  intros H. apply in_rev. rewrite H. left. reflexivity.
Qed.

Lemma strip_padding_plain u :
  Forall (fun c => c <> 61) u -> strip_padding u = u.
Proof.
  intros Hu. unfold strip_padding. destruct (length u mod 4 =? 0)%nat; [|reflexivity].
  destruct (rev u) as [|a r] eqn:E; [reflexivity|].
  pose proof (rev_head_in _ _ _ E) as Hin. rewrite Forall_forall in Hu.
  apply Hu in Hin. apply Z.eqb_neq in Hin. rewrite Hin. destruct r; reflexivity.
Qed.

Lemma strip_padding_one u :
  Forall (fun c => c <> 61) u -> Nat.modulo (length (u ++ [61])) 4 = 0%nat ->
  strip_padding (u ++ [61]) = u.
Proof.
  intros Hu Hlen. unfold strip_padding. rewrite Hlen. cbn [Nat.eqb].
  rewrite rev_app_distr. cbn [rev app].
  destruct (rev u) as [|b r] eqn:E.
  - apply (f_equal (@rev Z)) in E. rewrite rev_involutive in E. subst u. reflexivity.
  - pose proof (rev_head_in _ _ _ E) as Hin. rewrite Forall_forall in Hu.
    apply Hu in Hin. apply Z.eqb_neq in Hin. cbn [Z.eqb Pos.eqb]. rewrite Hin.
    apply (f_equal (@rev Z)) in E. rewrite rev_involutive in E. cbn [rev] in E.
    symmetry. exact E.
Qed.

Lemma strip_padding_two u :
  Nat.modulo (length (u ++ [61; 61])) 4 = 0%nat -> strip_padding (u ++ [61; 61]) = u.
Proof.
  intros Hlen. unfold strip_padding. rewrite Hlen. cbn [Nat.eqb].
  rewrite rev_app_distr. cbn [rev app Z.eqb Pos.eqb]. apply rev_involutive.
Qed.

Lemma filter_all {A} (f : A -> bool) l : forallb f l = true -> filter f l = l.
Proof.
  induction l as [|x l IH]; [reflexivity|]. cbn [forallb filter].
  intros H. apply andb_true_iff in H. destruct H as [Hx Hl].
  rewrite Hx, IH by exact Hl. reflexivity.
Qed.

Lemma atob_of_base64 (bytes : Buffer) :
  Forall is_byte bytes -> atob (base64 bytes) = Some bytes.
Proof.
  intros Hbytes. pose proof (sextet_values_range bytes Hbytes) as Hrange.
  set (u := map b64_char (sextet_values bytes)).
  assert (Hu61 : Forall (fun c => c <> 61) u).
  { apply Forall_map. eapply Forall_impl; [|exact Hrange].
    intros i Hi. apply (b64_char_plain i Hi). }
  assert (Huws : forallb (fun c => negb (is_ascii_whitespace c)) u = true).
  { apply forallb_forall. intros c Hc. apply in_map_iff in Hc.
    destruct Hc as (i & <- & Hi). rewrite Forall_forall in Hrange.
    destruct (b64_char_plain i (Hrange i Hi)) as [-> _]. reflexivity. }
  assert (Hlen_u : length u = length (sextet_values bytes)) by apply length_map.
  unfold atob. rewrite base64_sextets. fold u.
  assert (Hfilter : filter (fun c => negb (is_ascii_whitespace c)) (u ++ b64_padding bytes)
                    = u ++ b64_padding bytes).
  { apply filter_all. rewrite forallb_app, Huws.
    destruct (sextet_values_shape bytes) as [k [[_ ->] | [[_ ->] | [_ ->]]]]; reflexivity. }
  rewrite Hfilter.
  assert (Hstrip : strip_padding (u ++ b64_padding bytes) = u
                   /\ (length u mod 4 =? 1)%nat = false).
  { destruct (sextet_values_shape bytes) as [k [[H1 H2] | [[H1 H2] | [H1 H2]]]];
      rewrite H2, Hlen_u, H1.
    - rewrite app_nil_r. split; [apply strip_padding_plain, Hu61|].
      replace (4 * k)%nat with (4 * k + 0)%nat by lia. now rewrite mod4_of_shape by lia.
    - split; [|now rewrite mod4_of_shape by lia].
      apply strip_padding_two. rewrite length_app, Hlen_u, H1. cbn [length].
      replace (4 * k + 2 + 2)%nat with (4 * S k + 0)%nat by lia. apply mod4_of_shape. lia.
    - split; [|now rewrite mod4_of_shape by lia].
      apply strip_padding_one; [exact Hu61|]. rewrite length_app, Hlen_u, H1. cbn [length].
      replace (4 * k + 3 + 1)%nat with (4 * S k + 0)%nat by lia. apply mod4_of_shape. lia. }
  destruct Hstrip as [-> ->]. unfold u. rewrite b64_indices_chars by exact Hrange.
  cbn [option_map]. now rewrite decode_sextet_values.
Qed.

(** X6. [atob] gives back the bytes that [toString ('base64')] encoded:
    what the handler puts in [pdf_base64] is decoded by the browser to the
    bytes of the buffer, whatever their number; so two buffers with the
    same base64 text are the same buffer. *)
Theorem atob_base64 (bytes : Buffer) :
  Forall is_byte bytes ->
  atob (base64 bytes) = Some bytes
  /\ forall other, Forall is_byte other -> base64 other = base64 bytes -> other = bytes.
Proof.
  intros Hbytes. split; [exact (atob_of_base64 bytes Hbytes)|].
  intros other Hother E.
  pose proof (atob_of_base64 other Hother) as H1.
  rewrite E, (atob_of_base64 bytes Hbytes) in H1.
  apply Some_eq in H1. congruence.
Qed.

Lemma map_mod_bytes bytes : Forall is_byte bytes -> map (fun code => code mod 256) bytes = bytes.
Proof.
  induction 1 as [|b bytes Hb _ IH]; [reflexivity|].
  cbn [map]. rewrite IH. f_equal. apply Z.mod_small, Hb.
Qed.

Lemma base64_nonempty a bytes : base64 (a :: bytes) <> [].
Proof. destruct bytes as [|b [|c rest]]; discriminate. Qed.

Lemma output_nonempty data : generateCertificatePDF data <> [].
Proof. rewrite buffer_layout. discriminate. Qed.

(** X7. [downloadPDF] on an entry that carries the [pdf_base64] the handler
    made for a certificate puts in the downloaded file exactly the bytes
    [generateCertificatePDF] returned, under the entry's file name, or under
    [Certificate_<participant_name>.pdf] when the entry has none; an entry
    without [pdf_base64] downloads nothing. *)
Theorem downloadPDF_restores_the_buffer (data : CertificateRequest)
    (who : jsstring) (file : option jsstring) :
  wf_string (name data) -> wf_string (course data) ->
  wf_string (date data) -> wf_string (certificate_id data) ->
  downloadPDF {| participant_name := who;
                 cert_pdf_base64 := Some (base64 (generateCertificatePDF data));
                 cert_filename := file |}
  = Download (generateCertificatePDF data)
      (match file with
       | Some (c :: f) => c :: f
       | _ => lit "Certificate_" ++ who ++ lit ".pdf"
       end)
  /\ downloadPDF {| participant_name := who; cert_pdf_base64 := None;
                    cert_filename := file |} = NoDownload.
Proof.
  intros Hn Hc Hd Hi. split; [|reflexivity].
  assert (Hbytes : Forall is_byte (generateCertificatePDF data)).
  { apply utf8_encode_bytes. unfold wf_string.
    apply pdf_text_Forall; try assumption.
    intros u H. unfold is_ascii in H. apply andb_true_iff in H.
    destruct H as [H1 H2]. apply Z.leb_le in H1. apply Z.ltb_lt in H2.
    unfold wf_unit. lia. }
  unfold downloadPDF. cbn [cert_pdf_base64].
  destruct (base64 (generateCertificatePDF data)) as [|c s] eqn:E.
  - exfalso. destruct (generateCertificatePDF data) as [|a buf] eqn:Hb.
    + apply (output_nonempty data Hb).
    + apply (base64_nonempty a buf E).
  - rewrite <- E, atob_of_base64 by exact Hbytes.
    rewrite map_mod_bytes by exact Hbytes. reflexivity.
Qed.

Lemma atob_base64_witness : atob (base64 [77; 97]) = Some [77; 97].
Proof.
  apply (proj1 (atob_base64 [77; 97]
    ltac:(repeat first [apply Forall_cons | apply Forall_nil]; unfold is_byte; lia))).
Defined.

Lemma downloadPDF_restores_the_buffer_witness :
  downloadPDF {| participant_name := name zoe;
                 cert_pdf_base64 := Some (base64 (generateCertificatePDF zoe));
                 cert_filename := None |}
  = Download (generateCertificatePDF zoe)
      (lit "Certificate_" ++ name zoe ++ lit ".pdf").
Proof.
  apply (downloadPDF_restores_the_buffer zoe (name zoe) None);
    apply wf_string_check; reflexivity.
Defined.
(* ================================================================== *)
(** ** The encoder and the greatest length of a string *)
(* ================================================================== *)



















Lemma frac_digits_length fuel : forall r d, (length (frac_digits fuel r d) <= fuel)%nat.
Proof.
  induction fuel as [|fuel IH]; intros r d; [cbn; lia|].
  cbn [frac_digits]. destruct (r =? 0); [cbn; lia|].
  cbn [length]. specialize (IH (10 * r mod d) d). lia.
Qed.




















(* ================================================================== *)
(** ** More on the request handler *)
(* ================================================================== *)




Lemma text_argument_non_string E v :
  (forall s, v <> VString s) -> exists e, text_argument E v = Throw e.
Proof.
  intros H. destruct v as [| | | |s| |fields]; cbn [text_argument]; eauto.
  - exfalso. apply (H s). reflexivity.
  - destruct (to_string E (get_own (lit "length") fields)); cbn [bind]; eauto.
Qed.

Lemma or_else_truthy v d : truthy v = true -> or_else v d = v.
Proof. unfold or_else. now intros ->. Qed.

Lemma certificate_for_bad_name E clock p tick v :
  get_property E p "name" = Ok v -> truthy_non_string v ->
  exists e, certificate_for E clock p tick = Throw e.
Proof.
  intros Hget [T Hns]. unfold certificate_for. rewrite Hget. cbn [bind].
  destruct (get_property_ok_any E p "name" "course" _ Hget) as (vc & ->).
  destruct (get_property_ok_any E p "name" "date" _ Hget) as (vd & ->).
  destruct (get_property_ok_any E p "name" "certificate_id" _ Hget) as (vi & ->).
  cbn [bind]. destruct (if truthy vd then _ else _) as [d t1].
  destruct (if truthy vi then _ else _) as [i t2].
  unfold generateCertificatePDF_untyped. rewrite (or_else_truthy v _ T).
  destruct (text_argument_non_string E v Hns) as (e & ->). cbn [bind]. eauto.
Qed.

Lemma certificate_for_bad_course E clock p tick v :
  get_property E p "course" = Ok v -> truthy_non_string v ->
  exists e, certificate_for E clock p tick = Throw e.
Proof.
  intros Hget [T Hns]. unfold certificate_for. rewrite Hget.
  destruct (get_property_ok_any E p "course" "name" _ Hget) as (vn & ->).
  destruct (get_property_ok_any E p "course" "date" _ Hget) as (vd & ->).
  destruct (get_property_ok_any E p "course" "certificate_id" _ Hget) as (vi & ->).
  cbn [bind]. destruct (if truthy vd then _ else _) as [d t1].
  destruct (if truthy vi then _ else _) as [i t2].
  unfold generateCertificatePDF_untyped. rewrite (or_else_truthy v _ T).
  destruct (text_argument E (or_else vn _)); cbn [bind]; [|eauto].
  destruct (text_argument_non_string E v Hns) as (e & ->). cbn [bind]. eauto.
Qed.

(** X9. One participant is enough to fail a whole batch: when any element
    of [participants] is [null], or has a name or a course that is neither
    a string nor falsy (a number, [true], an array, an object), the answer
    is 500 with [success: false] and no certificate at all, whatever the
    other participants are and wherever the element stands. *)
Theorem one_bad_participant_fails_the_batch (E : Engine) (clock : nat -> Z)
    (body : value) (participants : list value) (p : value) :
  destructure_participants E body = Ok (VArray participants) ->
  In p participants ->
  (p = VNull
   \/ (exists v, get_property E p "name" = Ok v /\ truthy_non_string v)
   \/ (exists v, get_property E p "course" = Ok v /\ truthy_non_string v)) ->
  exists message,
    POST E clock (Ok body) = {| status := 500; body := Failure message |}
    /\ success (POST E clock (Ok body)) = false
    /\ certificates_of (POST E clock (Ok body)) = [].
Proof.
  intros Hd Hin Hbad.
  assert (Hthrow : forall t, exists e, certificate_for E clock p t = Throw e).
  { intros t. destruct Hbad as [-> | [(v & Hv & Hns) | (v & Hv & Hns)]].
    - eexists. reflexivity.
    - eapply certificate_for_bad_name; eassumption.
    - eapply certificate_for_bad_course; eassumption. }
  destruct (certificates_for_throws E clock participants 0%nat p Hin Hthrow) as (e & He).
  assert (HP : POST E clock (Ok body)
               = {| status := 500; body := Failure (errorMsg e) |}).
  { unfold POST, POST_try. cbn [bind]. rewrite Hd. cbn [bind].
    destruct participants as [|q rest]; [contradiction|]. rewrite He. reflexivity. }
  exists (errorMsg e). rewrite HP. repeat split.
Qed.

Lemma sanitize_chars s : forallb is_name_char (sanitize s) = true.
Proof.
  induction s as [|c s IH]; [reflexivity|].
  cbn [sanitize map forallb]. fold (sanitize s). rewrite IH, andb_true_r.
  unfold is_name_char. destruct (is_alnum c) eqn:H; [now rewrite H | reflexivity].
Qed.

Lemma is_name_char_ascii c : is_name_char c = true -> is_ascii c = true.
Proof.
  unfold is_name_char, is_alnum, is_ascii. intros H.
  apply orb_true_iff in H. apply andb_true_iff.
  destruct H as [H | H].
  - repeat (apply orb_true_iff in H; destruct H as [H | H]);
      apply andb_true_iff in H; destruct H as [H1 H2];
      apply Z.leb_le in H1, H2; split; [apply Z.leb_le | apply Z.ltb_lt | apply Z.leb_le
                                        | apply Z.ltb_lt | apply Z.leb_le | apply Z.ltb_lt]; lia.
  - apply Z.eqb_eq in H. subst c. split; reflexivity.
Qed.

(** X10. Every file name the handler returns is [Certificate_], a stem and
    [.pdf], where the stem has as many characters as the name it comes from
    (or is [certificate]), is not empty, and is made of ASCII letters,
    digits and underscores only: no name can put a path separator, a dot,
    a quote or a control character in it. Names that are already
    alphanumeric are kept as they are. *)
Theorem filename_is_safe (E : Engine) (clock : nat -> Z) (p : value)
    (tick tick' : nat) (e : certificate_entry) :
  certificate_for E clock p tick = Ok (e, tick') ->
  exists base,
    or_else (entry_name e) (VString (lit "certificate")) = VString base
    /\ filename e = lit "Certificate_" ++ sanitize base ++ lit ".pdf"
    /\ length (sanitize base) = length base
    /\ base <> []
    /\ forallb is_name_char (sanitize base) = true
    /\ ascii_only (filename e) = true
    /\ (forallb is_alnum base = true -> sanitize base = base).
Proof.
  intros H. destruct (certificate_for_entry _ _ _ _ _ _ H)
    as (p_name & base & _ & Hen & Hb & Hf).
  exists base. rewrite Hen. split; [exact Hb|]. split; [exact Hf|].
  split; [apply length_map|]. split.
  { apply or_else_string in Hb. destruct Hb as [[_ Hne] | [_ ->]];
      [exact Hne | discriminate]. }
  split; [apply sanitize_chars|]. split.
  - rewrite Hf, !ascii_only_app. apply andb_true_iff. split; [reflexivity|].
    apply andb_true_iff. split; [|reflexivity].
    apply forallb_forall. intros c Hc. apply is_name_char_ascii.
    pose proof (sanitize_chars base) as Hs. rewrite forallb_forall in Hs. apply Hs, Hc.
  - intros Ha. unfold sanitize. rewrite <- (map_id base) at 2.
    apply map_ext_in. intros c Hc. rewrite forallb_forall in Ha. now rewrite (Ha c Hc).
Qed.


Lemma one_bad_participant_fails_the_batch_witness :
  exists message,
    POST v8 fixed_clock (batch [alice_json; VNull])
    = {| status := 500; body := Failure message |}.
Proof.
  destruct (one_bad_participant_fails_the_batch v8 fixed_clock
              (VObject [(lit "participants", VArray [alice_json; VNull])])
              [alice_json; VNull] VNull) as (message & H & _).
  - reflexivity.
  - right. left. reflexivity.
  - left. reflexivity.
  - exists message. exact H.
Defined.

Lemma filename_is_safe_witness :
  exists e tick, certificate_for v8 fixed_clock alice_json 0 = Ok (e, tick)
                 /\ ascii_only (filename e) = true.
Proof.
  destruct (certificate_for v8 fixed_clock alice_json 0) as [[e tick]|err] eqn:H.
  - exists e, tick. split; [reflexivity|].
    destruct (filename_is_safe v8 fixed_clock alice_json 0 tick e H)
      as (base & _ & _ & _ & _ & _ & Ha & _).
    exact Ha.
  - exfalso. vm_compute in H. discriminate.
Defined.
(* ================================================================== *)
(** ** Attaching the PDFs on the client *)
(* ================================================================== *)

Lemma unit_eqb_list_refl s : unit_eqb_list s s = true.
Proof.
  unfold unit_eqb_list. rewrite Nat.eqb_refl. cbn [andb].
  induction s as [|c s IH]; [reflexivity|].
  cbn [combine forallb fst snd]. now rewrite Z.eqb_refl, IH.
Qed.

Lemma unit_eqb_list_eq a : forall b, unit_eqb_list a b = true -> a = b.
Proof.
  unfold unit_eqb_list.
  induction a as [|x a IH]; intros [|y b] H; try reflexivity; try discriminate.
  cbn [length combine forallb fst snd] in H.
  apply andb_true_iff in H. destruct H as [Hl H].
  apply andb_true_iff in H. destruct H as [Hxy H].
  apply Z.eqb_eq in Hxy. subst y. f_equal. apply IH.
  apply andb_true_iff. split; assumption.
Qed.

Lemma find_first {A} (f : A -> bool) l : forall j x,
  nth_error l j = Some x -> f x = true ->
  (forall i y, (i < j)%nat -> nth_error l i = Some y -> f y = false) ->
  find f l = Some x.
Proof.
  induction l as [|a l IH]; intros j x Hj Hx Hbefore; [destruct j; discriminate|].
  destruct j as [|j]; cbn [nth_error find] in *.
  - apply Some_eq in Hj. subst a. now rewrite Hx.
  - rewrite (Hbefore 0%nat a) by (try lia; reflexivity).
    apply (IH j x Hj Hx). intros i y Hi Hy. apply (Hbefore (S i) y); [lia | exact Hy].
Qed.

(** X11. The merge of [handleGenerate] gives to a certificate the PDF and
    the file name of the first entry of the answer, in the order of the
    answer, that has the same [certificate_id] or the same [email] (two
    properties that are both absent count as the same); it keeps the number
    and the order of the certificates and leaves a certificate that no entry
    matches as it is. So a certificate gets the PDF made for it when no
    earlier entry shares its identifier or its e-mail address, and the PDF
    of another participant when one does. *)
Theorem attach_pdfs_takes_the_first_match
    (certificates : list agent_certificate) (pdfs : list pdf_entry) :
  length (attach_pdfs certificates pdfs) = length certificates
  /\ (forall k cert, nth_error certificates k = Some cert ->
      (forall j p,
          nth_error pdfs j = Some p -> pdf_matches cert p = true ->
          (forall i q, (i < j)%nat -> nth_error pdfs i = Some q ->
                       pdf_matches cert q = false) ->
          nth_error (attach_pdfs certificates pdfs) k = Some (with_pdf cert p))
      /\ ((forall p, In p pdfs -> pdf_matches cert p = false) ->
          nth_error (attach_pdfs certificates pdfs) k = Some cert))
  /\ (forall k cert p rest,
      nth_error certificates k = Some cert -> pdfs = p :: rest ->
      (strict_equal (pe_email p) (ac_email cert) = true
       \/ (pe_certificate_id p = VUndefined /\ ac_certificate_id cert = VUndefined)) ->
      nth_error (attach_pdfs certificates pdfs) k = Some (with_pdf cert p)).
Proof.
  split; [apply length_map|]. split.
  - intros k cert Hk. split.
    + intros j p Hj Hp Hbefore. unfold attach_pdfs.
      rewrite nth_error_map, Hk. cbn [option_map]. unfold attach_pdf.
      now rewrite (find_first _ _ j p Hj Hp Hbefore).
    + intros Hnone. unfold attach_pdfs. rewrite nth_error_map, Hk. cbn [option_map].
      unfold attach_pdf. destruct (find (pdf_matches cert) pdfs) as [p|] eqn:F;
        [|reflexivity].
      apply find_some in F. destruct F as [Hin Hm]. rewrite (Hnone p Hin) in Hm.
      discriminate.
  - intros k cert p rest Hk -> Hsame. unfold attach_pdfs.
    rewrite nth_error_map, Hk. cbn [option_map]. unfold attach_pdf. cbn [find].
    replace (pdf_matches cert p) with true; [reflexivity|].
    symmetry. unfold pdf_matches. destruct Hsame as [He | [H1 H2]].
    + rewrite He. apply orb_true_r.
    + rewrite H1, H2. reflexivity.
Qed.

Lemma attach_pdfs_takes_the_first_match_witness :
  let first := {| pe_certificate_id := VString (lit "CERT-1");
                  pe_email := VString (lit "team@example.com");
                  pe_pdf_base64 := VString (lit "JVBERi0x");
                  pe_filename := VString (lit "Certificate_Ann.pdf") |} in
  let second := {| pe_certificate_id := VString (lit "CERT-2");
                   pe_email := VString (lit "team@example.com");
                   pe_pdf_base64 := VString (lit "JVBERi0y");
                   pe_filename := VString (lit "Certificate_Ben.pdf") |} in
  let ben := {| ac_certificate_id := VString (lit "CERT-2");
                ac_email := VString (lit "team@example.com");
                ac_pdf_base64 := VUndefined; ac_filename := VUndefined;
                ac_other := [] |} in
  pdf_matches ben second = true
  /\ nth_error (attach_pdfs [ben] [first; second]) 0 = Some (with_pdf ben first).
Proof.
  intros first second ben. split; [reflexivity|].
  destruct (attach_pdfs_takes_the_first_match [ben] [first; second]) as (_ & _ & H).
  apply (H 0%nat ben first [second]); [reflexivity | reflexivity | left; reflexivity].
Defined.
(* ================================================================== *)
(** ** Reading CSV on the client *)
(* ================================================================== *)

Lemma unit_eqb_list_neq a b : a <> b -> unit_eqb_list a b = false.
Proof.
  intro H. destruct (unit_eqb_list a b) eqn:E; [|reflexivity].
  now apply unit_eqb_list_eq in E.
Qed.

Lemma row_get_set_same r k v : row_get (row_set r k v) k = Some v.
Proof.
  induction r as [|[k0 w] r IH]; cbn [row_set row_get].
  - now rewrite unit_eqb_list_refl.
  - destruct (unit_eqb_list k0 k) eqn:E; cbn [row_get]; rewrite E; [reflexivity | exact IH].
Qed.

Lemma row_get_set_other r k v k' : k' <> k -> row_get (row_set r k v) k' = row_get r k'.
Proof.
  intro Hne. induction r as [|[k0 w] r IH]; cbn [row_set row_get].
  - rewrite unit_eqb_list_neq by congruence. reflexivity.
  - destruct (unit_eqb_list k0 k) eqn:E; cbn [row_get].
    + apply unit_eqb_list_eq in E. subst k0.
      rewrite unit_eqb_list_neq by congruence. reflexivity.
    + now rewrite IH.
Qed.

Lemma row_get_assign_proto r k v :
  row_get (row_assign r k v) (lit "__proto__") = row_get r (lit "__proto__").
Proof.
  unfold row_assign. destruct (unit_eqb_list k (lit "__proto__")) eqn:E; [reflexivity|].
  apply row_get_set_other. intro H. subst k. now rewrite unit_eqb_list_refl in E.
Qed.

Lemma row_get_assign_same r k v :
  k <> lit "__proto__" -> row_get (row_assign r k v) k = Some v.
Proof.
  intro H. unfold row_assign. rewrite (unit_eqb_list_neq _ _ H). apply row_get_set_same.
Qed.

Lemma row_get_assign_other r k v k' :
  k' <> k -> row_get (row_assign r k v) k' = row_get r k'.
Proof.
  intro H. unfold row_assign. destruct (unit_eqb_list k (lit "__proto__")); [reflexivity|].
  now apply row_get_set_other.
Qed.

Lemma fill_row_proto headers values : forall i r,
  row_get (fill_row headers i values r) (lit "__proto__") = row_get r (lit "__proto__").
Proof.
  induction headers as [|h hs IH]; intros i r; cbn [fill_row]; [reflexivity|].
  rewrite IH. apply row_get_assign_proto.
Qed.

Lemma fill_row_absent headers values k : ~ In k headers -> forall i r,
  row_get (fill_row headers i values r) k = row_get r k.
Proof.
  induction headers as [|h hs IH]; intros Hn i r; cbn [fill_row]; [reflexivity|].
  rewrite IH by (intro; apply Hn; now right).
  apply row_get_assign_other. intro; apply Hn; now left.
Qed.

Lemma fill_row_last headers values k : k <> lit "__proto__" -> forall j i r,
  nth_error headers j = Some k ->
  (forall j', (j < j')%nat -> nth_error headers j' <> Some k) ->
  row_get (fill_row headers i values r) k = Some (nth (i + j) values []).
Proof.
  intro Hk. induction headers as [|h hs IH]; intros j i r Hj Hlast; [destruct j; discriminate|].
  cbn [fill_row]. destruct j as [|j]; cbn [nth_error] in Hj.
  - apply Some_eq in Hj. subst h.
    rewrite fill_row_absent.
    + rewrite Nat.add_0_r. now apply row_get_assign_same.
    + intro Hin. apply In_nth_error in Hin. destruct Hin as [n Hn].
      apply (Hlast (S n)); [lia | exact Hn].
  - rewrite (IH j (S i)); [f_equal; f_equal; lia | exact Hj |].
    intros j' Hlt. apply (Hlast (S j')). lia.
Qed.

Lemma in_has_last {A} (dec : forall a b : A, {a = b} + {a <> b}) (k : A) l :
  In k l -> exists j, nth_error l j = Some k /\ forall j', (j < j')%nat -> nth_error l j' <> Some k.
Proof.
  induction l as [|a l IH]; intro Hin; [destruct Hin|].
  destruct (in_dec dec k l) as [Hl | Hl].
  - destruct (IH Hl) as (j & Hj & Hlast). exists (S j). split; [exact Hj|].
    intros [|j'] Hlt; [lia|]. cbn [nth_error]. apply Hlast. lia.
  - destruct Hin as [-> | Hin]; [|contradiction]. exists 0%nat. split; [reflexivity|].
    intros [|j'] Hlt; [lia|]. cbn [nth_error]. intro H. apply Hl. eapply nth_error_In; eassumption.
Qed.

Lemma jsstring_eq_dec (a b : jsstring) : {a = b} + {a <> b}.
Proof. apply list_eq_dec. apply Z.eq_dec. Qed.

Lemma fill_row_keys headers values k :
  (exists v, row_get (fill_row headers 0 values []) k = Some v)
  <-> (In k headers /\ k <> lit "__proto__").
Proof.
  split.
  - intros [v Hv]. split.
    + destruct (in_dec jsstring_eq_dec k headers) as [H|H]; [exact H|].
      rewrite fill_row_absent in Hv by exact H. discriminate.
    + intro Hk. subst k. rewrite fill_row_proto in Hv. discriminate.
  - intros [Hin Hk]. destruct (in_has_last jsstring_eq_dec k headers Hin) as (j & Hj & Hlast).
    eexists. apply (fill_row_last headers values k Hk j 0%nat [] Hj Hlast).
Qed.

Lemma split_on_length sep s : length (split_on sep s) = S (count_occ Z.eq_dec s sep).
Proof.
  induction s as [|c s IH]; [reflexivity|].
  cbn [split_on count_occ]. destruct (Z.eqb_spec c sep) as [->|Hne].
  - destruct (Z.eq_dec sep sep); [|congruence]. cbn [length]. now rewrite IH.
  - destruct (Z.eq_dec c sep); [congruence|].
    destruct (split_on sep s); [discriminate|]. exact IH.
Qed.

(** X12. Every row that [parseCSV] returns has exactly the headers as its
    keys, whatever the number of cells of its line: a key has a value in the
    row if and only if it is one of the headers and is not [__proto__]. The
    rows are as many as the lines that are not blank, less the first one,
    and the headers are one more than the commas of that first line. *)
Theorem parseCSV_rows_are_rectangular (text : jsstring) :
  let t := parseCSV text in
  length (csv_rows t) = pred (length (nonblank_lines text))
  /\ (forall first rest, nonblank_lines text = first :: rest ->
        length (csv_headers t) = S (count_occ Z.eq_dec first 44))
  /\ (forall row, In row (csv_rows t) -> forall k,
        (exists v, row_get row k = Some v)
        <-> (In k (csv_headers t) /\ k <> lit "__proto__")).
Proof.
  unfold parseCSV.
  destruct (nonblank_lines text) as [|first rest]; cbn zeta; cbn [csv_rows csv_headers].
  - split; [reflexivity|]. split; [discriminate|]. intros row [].
  - split; [now rewrite length_map|]. split.
    + intros f r H. injection H as <- <-. unfold line_cells. rewrite length_map. apply split_on_length.
    + intros row Hin k. apply in_map_iff in Hin. destruct Hin as (line & <- & _).
      apply fill_row_keys.
Qed.

(** X13. The row that [parseCSV] makes of a line gives to a header the
    cell of the line at the last column that carries this header, and the
    empty string when the line has no cell there. *)
Theorem parseCSV_cell_values (text first : jsstring) (rest : list jsstring) :
  nonblank_lines text = first :: rest ->
  csv_headers (parseCSV text) = line_cells first
  /\ forall n line, nth_error rest n = Some line ->
     exists row, nth_error (csv_rows (parseCSV text)) n = Some row
     /\ forall j h, nth_error (line_cells first) j = Some h ->
          h <> lit "__proto__" ->
          (forall j', (j < j')%nat -> nth_error (line_cells first) j' <> Some h) ->
          row_get row h = Some (nth j (line_cells line) []).
Proof.
  unfold parseCSV. intros ->. cbn zeta; cbn [csv_rows csv_headers].
  split; [reflexivity|]. intros n line Hn.
  eexists. split; [apply map_nth_error; exact Hn|].
  intros j h Hj Hh Hlast.
  apply (fill_row_last (line_cells first) (line_cells line) h Hh j 0%nat [] Hj Hlast).
Qed.

Lemma parseCSV_rows_are_rectangular_witness :
  let text := lit "name,email" ++ nl ++ lit "Ann" ++ nl in
  let row := [(lit "name", lit "Ann"); (lit "email", [])] in
  In row (csv_rows (parseCSV text))
  /\ ((exists v, row_get row (lit "email") = Some v)
      <-> (In (lit "email") (csv_headers (parseCSV text))
           /\ lit "email" <> lit "__proto__")).
Proof.
  intros text row.
  assert (Hin : In row (csv_rows (parseCSV text))) by (left; reflexivity).
  split; [exact Hin|].
  exact (proj2 (proj2 (parseCSV_rows_are_rectangular text)) row Hin (lit "email")).
Defined.

Lemma parseCSV_cell_values_witness :
  let text := lit "name,email,name" ++ nl ++ lit "Ann, ann@example.com ,Lee" ++ nl in
  nonblank_lines text = [lit "name,email,name"; lit "Ann, ann@example.com ,Lee"]
  /\ exists row, nth_error (csv_rows (parseCSV text)) 0 = Some row
       /\ row_get row (lit "name") = Some (lit "Lee").
Proof.
  intro text. split; [reflexivity|].
  destruct (parseCSV_cell_values text (lit "name,email,name")
              [lit "Ann, ann@example.com ,Lee"] eq_refl) as [_ H].
  destruct (H 0%nat (lit "Ann, ann@example.com ,Lee") eq_refl) as (row & Hrow & Hget).
  exists row. split; [exact Hrow|].
  apply (Hget 2%nat (lit "name")); [reflexivity | intro E; vm_compute in E; discriminate |].
  intros [|[|[|j']]] Hlt E; try lia; vm_compute in E; destruct j'; discriminate.
Defined.

Lemma trim_start_spaces s : forallb is_js_space s = true -> trim_start s = [].
Proof.
  induction s as [|c s IH]; [reflexivity|]. cbn [forallb trim_start].
  intro H. apply andb_true_iff in H. destruct H as [Hc Hs]. rewrite Hc. now apply IH.
Qed.

Lemma trim_start_app s t :
  trim_start (s ++ t) = if forallb is_js_space s then trim_start t else trim_start s ++ t.
Proof.
  induction s as [|c s IH]; [reflexivity|].
  cbn [app trim_start forallb]. destruct (is_js_space c); cbn [andb]; [exact IH | reflexivity].
Qed.

Lemma trim_app_space s c : is_js_space c = true -> trim (s ++ [c]) = trim s.
Proof.
  intro Hc. unfold trim. rewrite trim_start_app.
  destruct (forallb is_js_space s) eqn:E.
  - rewrite (trim_start_spaces s E). cbn [trim_start]. now rewrite Hc.
  - rewrite rev_app_distr. cbn [rev app trim_start]. now rewrite Hc.
Qed.

Lemma cell_app_space s c : is_js_space c = true -> cell (s ++ [c]) = cell s.
Proof. intro Hc. unfold cell. now rewrite trim_app_space. Qed.

Lemma is_blank_app_space s c : is_js_space c = true -> is_blank (s ++ [c]) = is_blank s.
Proof. intro Hc. unfold is_blank. now rewrite trim_app_space. Qed.

Lemma split_on_cons sep c s :
  c <> sep ->
  exists p ps, split_on sep s = p :: ps /\ split_on sep (c :: s) = (c :: p) :: ps.
Proof.
  intro Hne. cbn [split_on]. destruct (Z.eqb_spec c sep); [contradiction|].
  pose proof (split_on_length sep s) as Hl.
  destruct (split_on sep s) as [|p ps]; [discriminate|]. now exists p, ps.
Qed.

Lemma split_on_app_end sep x s :
  x <> sep -> Forall2 (same_but_end x) (split_on sep (s ++ [x])) (split_on sep s).
Proof.
  intro Hne. induction s as [|c s IH].
  - cbn [app split_on]. destruct (Z.eqb_spec x sep); [contradiction|].
    constructor; [now right | constructor].
  - cbn [app]. destruct (Z.eq_dec c sep) as [->|Hc].
    + cbn [split_on]. rewrite Z.eqb_refl. constructor; [now left | exact IH].
    + destruct (split_on_cons sep c s Hc) as (p & ps & E1 & E2).
      destruct (split_on_cons sep c (s ++ [x]) Hc) as (p' & ps' & E1' & E2').
      rewrite E2, E2'. rewrite E1, E1' in IH. inversion IH; subst.
      constructor; [|assumption].
      match goal with H : same_but_end _ _ _ |- _ => destruct H as [-> | ->] end;
        [now left | now right].
Qed.

Lemma split_on_crlf text :
  Forall2 (same_but_end 13) (split_on 10 (replace_all 10 [13; 10] text)) (split_on 10 text).
Proof.
  induction text as [|c text IH]; [constructor; [now left | constructor]|].
  unfold replace_all in *. cbn [flat_map]. destruct (Z.eqb_spec c 10) as [->|Hc].
  - cbn [app]. change (split_on 10 (13 :: 10 :: ?s)) with ([13] :: split_on 10 s).
    change (split_on 10 (10 :: ?s)) with ([] :: split_on 10 s).
    constructor; [now right | exact IH].
  - cbn [app].
    destruct (split_on_cons 10 c text Hc) as (p & ps & E1 & E2).
    destruct (split_on_cons 10 c (flat_map (fun x => if x =? 10 then [13; 10] else [x]) text) Hc)
      as (p' & ps' & E1' & E2').
    rewrite E2, E2'. rewrite E1, E1' in IH. inversion IH; subst.
    constructor; [|assumption].
    match goal with H : same_but_end _ _ _ |- _ => destruct H as [-> | ->] end;
      [now left | now right].
Qed.

Lemma line_cells_same_but_end a b :
  same_but_end 13 a b -> line_cells a = line_cells b.
Proof.
  intros [-> | ->]; [reflexivity|]. unfold line_cells.
  pose proof (split_on_app_end 44 13 b ltac:(discriminate)) as H.
  induction H as [|x y l l' Hxy _ IH]; [reflexivity|].
  cbn [map]. rewrite IH. f_equal.
  destruct Hxy as [-> | ->]; [reflexivity | now apply cell_app_space].
Qed.

Lemma is_blank_same_but_end a b : same_but_end 13 a b -> is_blank a = is_blank b.
Proof. intros [-> | ->]; [reflexivity | now apply is_blank_app_space]. Qed.

Lemma filter_same_but_end ls ls' :
  Forall2 (same_but_end 13) ls ls' ->
  Forall2 (same_but_end 13)
    (filter (fun line => negb (is_blank line)) ls)
    (filter (fun line => negb (is_blank line)) ls').
Proof.
  induction 1 as [|a b l l' Hab _ IH]; [constructor|].
  cbn [filter]. rewrite (is_blank_same_but_end a b Hab).
  destruct (is_blank b); cbn [negb]; [exact IH | now constructor].
Qed.

(** X14. [parseCSV] reads a text whose lines end in carriage return and
    line feed as it reads the same text with line feeds alone: the same
    headers and the same rows. *)
Theorem parseCSV_ignores_carriage_returns (text : jsstring) :
  parseCSV (replace_all 10 [13; 10] text) = parseCSV text.
Proof.
  unfold parseCSV, nonblank_lines.
  pose proof (filter_same_but_end _ _ (split_on_crlf text)) as H.
  destruct H as [|a b l l' Hab Hl]; [reflexivity|].
  cbn zeta. rewrite (line_cells_same_but_end a b Hab). f_equal.
  induction Hl as [|x y m m' Hxy _ IH]; [reflexivity|].
  cbn [map]. now rewrite IH, (line_cells_same_but_end x y Hxy).
Qed.



Lemma split_on_plain sep s : ~ In sep s -> split_on sep s = [s].
Proof.
  induction s as [|c s IH]; intro H; [reflexivity|].
  cbn [split_on]. destruct (Z.eqb_spec c sep) as [->|Hc]; [exfalso; apply H; now left|].
  rewrite IH by (intro; apply H; now right). reflexivity.
Qed.

Lemma split_on_app sep a b :
  ~ In sep a -> split_on sep (a ++ sep :: b) = a :: split_on sep b.
Proof.
  induction a as [|c a IH]; intro H.
  - cbn [app split_on]. now rewrite Z.eqb_refl.
  - cbn [app split_on]. destruct (Z.eqb_spec c sep) as [->|Hc]; [exfalso; apply H; now left|].
    rewrite IH by (intro; apply H; now right). reflexivity.
Qed.

Lemma split_on_join sep ls :
  ls <> [] -> Forall (fun l => ~ In sep l) ls -> split_on sep (join [sep] ls) = ls.
Proof.
  induction ls as [|l ls IH]; intros Hne H; [contradiction|].
  inversion H as [|? ? Hl Hls]; subst.
  destruct ls as [|l' ls].
  - cbn [join]. now apply split_on_plain.
  - change (join [sep] (l :: l' :: ls)) with (l ++ sep :: join [sep] (l' :: ls)).
    rewrite split_on_app by exact Hl. f_equal. apply IH; [discriminate | exact Hls].
Qed.

Lemma in_join sep x ls :
  In x (join [sep] ls) -> x = sep \/ exists l, In l ls /\ In x l.
Proof.
  induction ls as [|l ls IH]; [intros []|].
  destruct ls as [|l' ls].
  - cbn [join]. intro H. right. exists l. split; [now left | exact H].
  - change (join [sep] (l :: l' :: ls)) with (l ++ sep :: join [sep] (l' :: ls)).
    intro H. apply in_app_or in H. destruct H as [H | [H | H]].
    + right. exists l. split; [now left | exact H].
    + now left.
    + destruct (IH H) as [-> | (m & Hm & Hx)]; [now left|].
      right. exists m. split; [now right | exact Hx].
Qed.

Lemma trim_start_keeps c s : is_js_space c = false -> trim_start (c :: s) = c :: s.
Proof. intro H. cbn [trim_start]. now rewrite H. Qed.

Lemma trim_nonspace_ends c s d :
  is_js_space c = false -> is_js_space d = false -> trim (c :: s ++ [d]) = c :: s ++ [d].
Proof.
  intros Hc Hd. unfold trim. rewrite (trim_start_keeps c _ Hc).
  change (c :: s ++ [d]) with ((c :: s) ++ [d]). rewrite rev_app_distr.
  cbn [rev app]. rewrite (trim_start_keeps d _ Hd).
  change (d :: rev s ++ [c]) with ([d] ++ rev (c :: s)).
  rewrite rev_app_distr, rev_involutive. reflexivity.
Qed.

Lemma trim_all_space s : forallb is_js_space s = true -> trim s = [].
Proof. intro H. unfold trim. now rewrite (trim_start_spaces s H). Qed.

Lemma trim_start_nonempty s : forallb is_js_space s = false -> trim_start s <> [].
Proof.
  induction s as [|c s IH]; [discriminate|].
  cbn [forallb trim_start]. destruct (is_js_space c); cbn [andb]; [exact IH | discriminate].
Qed.

Lemma trim_start_suffix s : exists p, s = p ++ trim_start s /\ forallb is_js_space p = true.
Proof.
  induction s as [|c s (p & Hp & Hs)]; [now exists []|].
  cbn [trim_start]. destruct (is_js_space c) eqn:E.
  - exists (c :: p). split; [cbn [app]; now f_equal | cbn [forallb]; now rewrite E].
  - now exists [].
Qed.

Lemma is_blank_false s : forallb is_js_space s = false -> is_blank s = false.
Proof.
  intro H. unfold is_blank, trim.
  destruct (trim_start_suffix s) as (p & Hp & Hsp).
  assert (H1 : forallb is_js_space (trim_start s) = false).
  { rewrite Hp in H. rewrite forallb_app, Hsp in H. exact H. }
  assert (H2 : forallb is_js_space (rev (trim_start s)) = false) by now rewrite forallb_rev.
  pose proof (trim_start_nonempty _ H2) as H3.
  destruct (trim_start (rev (trim_start s))) as [|x l] eqn:E; [contradiction|].
  cbn [rev]. destruct (rev l); reflexivity.
Qed.

Lemma has_nonspace c s : In c s -> is_js_space c = false -> forallb is_js_space s = false.
Proof.
  intros Hin Hc. destruct (forallb is_js_space s) eqn:E; [|reflexivity].
  rewrite forallb_forall in E. rewrite (E c Hin) in Hc. discriminate.
Qed.

Lemma replace_all_absent c r s : ~ In c s -> replace_all c r s = s.
Proof.
  unfold replace_all. induction s as [|x s IH]; intro H; [reflexivity|].
  cbn [flat_map]. destruct (Z.eqb_spec x c) as [->|Hx]; [exfalso; apply H; now left|].
  cbn [app]. f_equal. apply IH. intro; apply H; now right.
Qed.

Lemma cell_csv_field v : ~ In quote v -> cell (csv_field v) = v.
Proof.
  intro H. unfold cell, csv_field. rewrite (replace_all_absent quote _ v H).
  change ([quote] ++ v ++ [quote]) with (quote :: v ++ [quote]).
  rewrite trim_nonspace_ends by reflexivity.
  unfold strip_quotes. rewrite Z.eqb_refl. rewrite rev_app_distr. cbn [rev app].
  rewrite Z.eqb_refl. apply rev_involutive.
Qed.

Lemma in_csv_field x v : In x (csv_field v) -> x = quote \/ In x v.
Proof.
  unfold csv_field, replace_all. intro H.
  apply in_app_or in H. destruct H as [[<- | []] | H]; [now left|].
  apply in_app_or in H. destruct H as [H | [<- | []]]; [|now left].
  apply in_flat_map in H. destruct H as (y & Hy & Hx).
  destruct (y =? quote).
  - destruct Hx as [<- | [<- | []]]; now left.
  - destruct Hx as [<- | []]. now right.
Qed.


Lemma has_unit_false c s : has_unit c s = false -> ~ In c s.
Proof.
  unfold has_unit. intros H Hin.
  assert (existsb (Z.eqb c) s = true) by (apply existsb_exists; exists c; split; [exact Hin | apply Z.eqb_refl]).
  congruence.
Qed.

Lemma plain_key_spec k : plain_key k = true ->
  forallb is_js_space k = false /\ ~ In 44 k /\ ~ In 10 k /\ cell k = k /\ k <> lit "__proto__".
Proof.
  unfold plain_key. intro H.
  repeat (apply andb_true_iff in H; destruct H as [H ?]).
  repeat match goal with X : negb _ = true |- _ => apply negb_true_iff in X end.
  match goal with X : unit_eqb_list (trim k) k = true |- _ => apply unit_eqb_list_eq in X; rename X into Ht end.
  match goal with X : unit_eqb_list (strip_quotes k) k = true |- _ => apply unit_eqb_list_eq in X; rename X into Hs end.
  split; [|split; [|split; [|split]]].
  - destruct (forallb is_js_space k) eqn:E; [|reflexivity].
    rewrite (trim_all_space k E) in Ht. subst k. discriminate.
  - now apply has_unit_false.
  - now apply has_unit_false.
  - unfold cell. now rewrite Ht.
  - intro E. subst k. discriminate.
Qed.

Lemma plain_value_spec v : plain_value v = true -> ~ In 44 v /\ ~ In 10 v /\ ~ In quote v.
Proof.
  unfold plain_value. intro H.
  repeat (apply andb_true_iff in H; destruct H as [H ?]).
  repeat match goal with X : negb _ = true |- _ => apply negb_true_iff in X end.
  repeat split; now apply has_unit_false.
Qed.

Lemma filter_Forall {A} (f : A -> bool) l : Forall (fun x => f x = true) l -> filter f l = l.
Proof. induction 1 as [|x l Hx _ IH]; [reflexivity|]. cbn [filter]. now rewrite Hx, IH. Qed.

Lemma header_line_cells keys :
  keys <> [] -> forallb plain_key keys = true -> line_cells (join (lit ",") keys) = keys.
Proof.
  intros Hne H. rewrite forallb_forall in H. unfold line_cells.
  change (lit ",") with [44]. rewrite split_on_join.
  - rewrite <- (map_id keys) at 2. apply map_ext_in. intros k Hk.
    exact (proj1 (proj2 (proj2 (proj2 (plain_key_spec k (H k Hk)))))).
  - exact Hne.
  - apply Forall_forall. intros k Hk. exact (proj1 (proj2 (plain_key_spec k (H k Hk)))).
Qed.

Lemma row_line_cells row :
  row <> [] -> forallb (fun kv => plain_value (snd kv)) row = true ->
  line_cells (row_line row) = map snd row.
Proof.
  intros Hne H. rewrite forallb_forall in H. unfold line_cells, row_line.
  change (lit ",") with [44]. rewrite split_on_join.
  - rewrite map_map. apply map_ext_in. intros kv Hkv.
    apply cell_csv_field. exact (proj2 (proj2 (plain_value_spec _ (H kv Hkv)))).
  - destruct row; [contradiction | discriminate].
  - apply Forall_forall. intros f Hf. apply in_map_iff in Hf. destruct Hf as (kv & <- & Hkv).
    intro Hin. apply in_csv_field in Hin. destruct Hin as [Hq | Hin]; [discriminate|].
    destruct (plain_value_spec _ (H kv Hkv)) as (H44 & _). exact (H44 Hin).
Qed.

Lemma header_line_plain keys :
  keys <> [] -> forallb plain_key keys = true ->
  ~ In 10 (join (lit ",") keys) /\ is_blank (join (lit ",") keys) = false.
Proof.
  intros Hne H. rewrite forallb_forall in H. change (lit ",") with [44]. split.
  - intro Hin. apply in_join in Hin. destruct Hin as [Hq | (k & Hk & Hin)]; [discriminate|].
    destruct (plain_key_spec k (H k Hk)) as (_ & _ & H10 & _). exact (H10 Hin).
  - apply is_blank_false. destruct keys as [|k keys]; [contradiction|].
    destruct (plain_key_spec k (H k (or_introl eq_refl))) as (Hs & _).
    destruct keys as [|k' keys]; [exact Hs|].
    change (join [44] (k :: k' :: keys)) with (k ++ 44 :: join [44] (k' :: keys)).
    rewrite forallb_app, Hs. reflexivity.
Qed.

Lemma row_line_plain row :
  row <> [] -> forallb (fun kv => plain_value (snd kv)) row = true ->
  ~ In 10 (row_line row) /\ is_blank (row_line row) = false.
Proof.
  intros Hne H. rewrite forallb_forall in H. unfold row_line. change (lit ",") with [44]. split.
  - intro Hin. apply in_join in Hin. destruct Hin as [Hq | (f & Hf & Hin)]; [discriminate|].
    apply in_map_iff in Hf. destruct Hf as (kv & <- & Hkv).
    apply in_csv_field in Hin. destruct Hin as [Hq | Hin]; [discriminate|].
    destruct (plain_value_spec _ (H kv Hkv)) as (_ & H10 & _). exact (H10 Hin).
  - apply is_blank_false. destruct row as [|kv row]; [contradiction|].
    cbn [map]. destruct (map _ row) as [|f fs]; reflexivity.
Qed.

Lemma row_get_fill_nodup keys row k v :
  NoDup keys -> map fst row = keys -> k <> lit "__proto__" -> In (k, v) row ->
  row_get (fill_row keys 0 (map snd row) []) k = Some v.
Proof.
  intros Hnd Hkeys Hk Hin. apply In_nth_error in Hin. destruct Hin as [j Hj].
  assert (Hkj : nth_error keys j = Some k).
  { rewrite <- Hkeys. now rewrite (map_nth_error fst j row Hj). }
  rewrite (fill_row_last keys (map snd row) k Hk j 0%nat [] Hkj).
  - cbn [Nat.add]. f_equal. apply nth_error_nth. now rewrite (map_nth_error snd j row Hj).
  - intros j' Hlt Hj'. rewrite NoDup_nth_error in Hnd.
    assert (j = j'); [|lia]. apply Hnd; [|congruence].
    apply nth_error_Some. congruence.
Qed.

(** X15. [parseCSV] reads back what [exportToCSV] writes when the rows
    have the same keys, the keys are plain and different from one another
    and no value holds a comma, a line feed or a quotation mark: the headers
    are the keys, there is one row for each row written, and a row gives to
    each key the value written for it. *)
Theorem parseCSV_reads_exportToCSV
    (keys : list jsstring) (data : list (list (jsstring * jsstring))) :
  data <> [] -> keys <> [] -> NoDup keys ->
  forallb plain_key keys = true ->
  Forall (fun row => map fst row = keys
                     /\ forallb (fun kv => plain_value (snd kv)) row = true) data ->
  exists text, exportToCSV_text data = Some text
    /\ csv_headers (parseCSV text) = keys
    /\ length (csv_rows (parseCSV text)) = length data
    /\ forall n row, nth_error data n = Some row ->
         exists r, nth_error (csv_rows (parseCSV text)) n = Some r
           /\ forall k v, In (k, v) row -> row_get r k = Some v.
Proof.
  intros Hdata Hkeys Hnd Hplain Hrows.
  destruct data as [|first rest]; [contradiction|].
  assert (Hfirst : map fst first = keys) by (inversion Hrows; tauto).
  assert (Hne : forall row, In row (first :: rest) -> row <> []).
  { intros row Hin. rewrite Forall_forall in Hrows. destruct (Hrows row Hin) as [E _].
    intro; subst row. now apply Hkeys. }
  eexists. split; [reflexivity|].
  rewrite Hfirst.
  set (lines := join (lit ",") keys :: map row_line (first :: rest)).
  assert (Hlines : nonblank_lines (join nl lines) = lines).
  { unfold nonblank_lines. change nl with [10]. rewrite split_on_join.
    - apply filter_Forall. apply Forall_forall. intros l [<- | Hl].
      + now rewrite (proj2 (header_line_plain keys Hkeys Hplain)).
      + apply in_map_iff in Hl. destruct Hl as (row & <- & Hrow).
        rewrite Forall_forall in Hrows.
        now rewrite (proj2 (row_line_plain row (Hne row Hrow) (proj2 (Hrows row Hrow)))).
    - discriminate.
    - apply Forall_forall. intros l [<- | Hl].
      + apply (header_line_plain keys Hkeys Hplain).
      + apply in_map_iff in Hl. destruct Hl as (row & <- & Hrow).
        rewrite Forall_forall in Hrows.
        apply (row_line_plain row (Hne row Hrow) (proj2 (Hrows row Hrow))). }
  unfold parseCSV. rewrite Hlines. unfold lines. cbn zeta. cbn [csv_headers csv_rows].
  rewrite (header_line_cells keys Hkeys Hplain).
  split; [reflexivity|]. split; [now rewrite !length_map|].
  intros n row Hn. rewrite map_map.
  eexists. split; [apply (map_nth_error _ n (first :: rest) Hn)|].
  intros k v Hin.
  assert (Hrow : In row (first :: rest)) by (eapply nth_error_In; exact Hn).
  rewrite Forall_forall in Hrows. destruct (Hrows row Hrow) as [Hk Hv].
  rewrite (row_line_cells row (Hne row Hrow) Hv).
  apply (row_get_fill_nodup keys row k v Hnd Hk); [|exact Hin].
  assert (Hkk : In k keys) by (rewrite <- Hk; apply in_map_iff; now exists (k, v)).
  rewrite forallb_forall in Hplain.
  exact (proj2 (proj2 (proj2 (proj2 (plain_key_spec k (Hplain k Hkk)))))).
Qed.

Lemma parseCSV_reads_exportToCSV_witness :
  let keys := [lit "Name"; lit "Email"; lit "Status"] in
  let data :=
    [[(lit "Name", lit "Ann Lee"); (lit "Email", lit "ann@example.com");
      (lit "Status", lit "sent")];
     [(lit "Name", lit "Ben"); (lit "Email", []);
      (lit "Status", lit " failed: no address ")]] in
  exists text, exportToCSV_text data = Some text
    /\ csv_headers (parseCSV text) = keys
    /\ length (csv_rows (parseCSV text)) = length data
    /\ forall n row, nth_error data n = Some row ->
         exists r, nth_error (csv_rows (parseCSV text)) n = Some r
           /\ forall k v, In (k, v) row -> row_get r k = Some v.
Proof.
  intros keys data.
  apply (parseCSV_reads_exportToCSV keys data).
  - discriminate.
  - discriminate.
  - repeat constructor; cbn [In]; intros H; repeat destruct H as [H|H]; try discriminate H; exact H.
  - reflexivity.
  - repeat constructor.
Defined.

Lemma read_quoted_field s : forall acc rest,
  starts_with quote rest = false ->
  read_quoted (replace_all quote [quote; quote] s ++ quote :: rest) acc
  = Some (rev acc ++ s, rest).
Proof.
  unfold replace_all.
  induction s as [|c s IH]; intros acc rest Hrest.
  - cbn [flat_map app read_quoted]. rewrite Z.eqb_refl.
    destruct rest as [|d rest]; [now rewrite app_nil_r|].
    cbn [starts_with] in Hrest. rewrite Hrest. now rewrite app_nil_r.
  - cbn [flat_map]. destruct (c =? quote) eqn:E.
    + apply Z.eqb_eq in E. subst c. cbn [app read_quoted]. rewrite !Z.eqb_refl.
      rewrite (IH (quote :: acc) rest Hrest). cbn [rev]. now rewrite <- app_assoc.
    + cbn [app read_quoted]. rewrite E.
      rewrite (IH (c :: acc) rest Hrest). cbn [rev]. now rewrite <- app_assoc.
Qed.

(** X16. A field that [exportToCSV] writes is read back by a reader of
    quoted fields, which takes two quotation marks for one and stops at a
    single one, whatever the text holds and whatever follows that is not a
    quotation mark; so two texts with the same field are the same text. *)
Theorem csv_field_round_trip (s rest : jsstring) :
  starts_with quote rest = false ->
  read_field (csv_field s ++ rest) = Some (s, rest)
  /\ forall s', csv_field s' = csv_field s -> s' = s.
Proof.
  intro Hrest.
  assert (H : forall t r, starts_with quote r = false ->
                read_field (csv_field t ++ r) = Some (t, r)).
  { intros t r Hr. unfold csv_field, read_field.
    cbn [app]. rewrite Z.eqb_refl. rewrite <- app_assoc. cbn [app].
    apply (read_quoted_field t [] r Hr). }
  split; [exact (H s rest Hrest)|].
  intros s' E. pose proof (H s' [] eq_refl) as H1. pose proof (H s [] eq_refl) as H2.
  rewrite E in H1. rewrite H1 in H2. apply Some_eq in H2. congruence.
Qed.

Lemma csv_field_round_trip_witness :
  let s := lit "say " ++ [quote] ++ lit "hi" ++ [quote; 44] ++ lit " twice" in
  starts_with quote (lit ",next") = false
  /\ read_field (csv_field s ++ lit ",next") = Some (s, lit ",next").
Proof.
  intro s. split; [reflexivity|].
  exact (proj1 (csv_field_round_trip s (lit ",next") eq_refl)).
Defined.
(* ================================================================== *)
(** ** Coordinates of the text blocks *)
(* ================================================================== *)

(** X17. The x coordinates of the course, the date and the identifier are
    written in the content stream as exact decimals: [396 - 5.5 * length]
    for the course, the integer [354 - 3 * length] for the date and
    [360 - 2.25 * length] for the identifier, with a minus sign when the
    text is too long for the page and the fraction [.25], [.5] or [.75]
    and no exponent; the lengths count the UTF-16 code units of the field. *)
Theorem coordinates_are_exact_decimals (data : CertificateRequest) :
  let units (s : jsstring) := Z.of_nat (length s) in
  nth_error (contentLines data) 55
  = Some (quarters_to_string (1584 - 22 * units (course data)) ++ lit " 330 Td")
  /\ nth_error (contentLines data) 64
     = Some (int_to_string (354 - 3 * units (date data)) ++ lit " 280 Td")
  /\ nth_error (contentLines data) 88
     = Some (quarters_to_string (1440 - 9 * units (certificate_id data)) ++ lit " 80 Td").
Proof.
  intro units. unfold contentLines, text_block. cbn [app nth_error].
  assert (Hc : num (centerX - len (course data) * 11 / 2)%Q
               = quarters_to_string (1584 - 22 * units (course data))).
  { unfold num. apply number_to_string_quarters.
    unfold units, centerX, pageWidth, len, Qminus, Qplus, Qopp, Qdiv, Qmult, Qinv, inject_Z.
    cbn [Qnum Qden]. rewrite ?Pos2Z.inj_mul. lia. }
  assert (Hd : num (centerX - len (dateLabel data) * 6 / 2)%Q
               = int_to_string (354 - 3 * units (date data))).
  { unfold num. apply number_to_string_integer.
    unfold units, dateLabel, centerX, pageWidth, len, Qminus, Qplus, Qopp, Qdiv, Qmult, Qinv, inject_Z.
    rewrite length_app. change (length (lit "Completed on: ")) with 14%nat.
    cbn [Qnum Qden]. rewrite ?Pos2Z.inj_mul. lia. }
  assert (Hi : num (centerX - len (idLabel data) * 4.5 / 2)%Q
               = quarters_to_string (1440 - 9 * units (certificate_id data))).
  { unfold num. apply number_to_string_quarters.
    unfold units, idLabel, centerX, pageWidth, len, Qminus, Qplus, Qopp, Qdiv, Qmult, Qinv, inject_Z.
    rewrite length_app. change (length (lit "Certificate ID: ")) with 16%nat.
    cbn [Qnum Qden]. rewrite ?Pos2Z.inj_mul. lia. }
  rewrite Hc, Hd, Hi. repeat split.
Qed.
